(** * ChatScrap gateway: provider selection, health tracking and dispatch

    A shallow embedding of [services/ProviderManager.ts] (selection
    strategies, health map, provider manager) and [services/G4FService.ts]
    (retrying dispatch, roster cache), with the properties of the
    specification proved about it.

    Conventions of the embedding.
    - A JavaScript [number] that holds a counter, a timestamp or a status
      code is a [Z]; an array index that the code only ever produces with
      [%] on a length is a [nat].  Counters are exact on the integers the
      code can reach (below 2^53).
    - [Map<string, V>] is a [gmap string V]; arrays are lists.
    - [Date] values are kept symbolically (see [Date]).
    - Everything the code reads from outside (the registry's replies, the
      clock, [Math.random]) is an explicit argument; everything it mutates
      ([this.x]) is returned as a new state.
    - Object fields have the types their TypeScript interfaces declare; an
      optional field is an [option].  Where the code reads a value untyped
      (the body of a failed request's response, caught as [any]) the field
      ranges over every JSON value. *)

From Stdlib Require Import ZArith String Ascii List Bool Lia Sorted Permutation.
From stdpp Require Import base gmap strings pretty.
From Equations Require Import Equations.
Import ListNotations.

Local Open Scope string_scope.
Local Open Scope Z_scope.
Local Open Scope list_scope.

(** ** JavaScript helpers *)

Module JS.

(** Truthiness of a string value: the empty string is falsy. *)
Definition truthy (s : string) : bool :=
  match s with EmptyString => false | _ => true end.

(** Truthiness of an optional string field ([undefined] is falsy). *)
Definition truthy_opt (o : option string) : bool :=
  match o with Some s => truthy s | None => false end.

(** [a || b] on an optional string with a string default. *)
Definition or_string (o : option string) (d : string) : string :=
  match o with
  | Some s => if truthy s then s else d
  | None => d
  end.

(** [a || d] on an optional number: [undefined] and [0] are falsy. *)
Definition or_number (o : option Z) (d : Z) : Z :=
  match o with
  | Some v => if v =? 0 then d else v
  | None => d
  end.

(** [String.prototype.toLowerCase], on the ASCII letters. *)
Definition lower_ascii (c : ascii) : ascii :=
  let n := nat_of_ascii c in
  if ((65 <=? n) && (n <=? 90))%nat then ascii_of_nat (n + 32) else c.

Fixpoint toLowerCase (s : string) : string :=
  match s with
  | EmptyString => EmptyString
  | String c s' => String (lower_ascii c) (toLowerCase s')
  end.

(** [s.includes(pat)]: [pat] occurs in [s] as a contiguous substring. *)
Fixpoint includes (s pat : string) : bool :=
  String.prefix pat s ||
  match s with
  | EmptyString => false
  | String _ s' => includes s' pat
  end.

(** [o?.includes(pat)] used as a condition: [undefined] is falsy. *)
Definition opt_includes (o : option string) (pat : string) : bool :=
  match o with Some s => includes s pat | None => false end.

(** [o === lit] for an optional string field. *)
Definition opt_is (o : option string) (lit : string) : bool :=
  match o with Some s => String.eqb s lit | None => false end.

End JS.

(** ** Shared types *)

(** [Date] objects, kept symbolically: [new Date()] at clock reading [ms],
    or [new Date(s)] parsed from the registry's string. *)
Inductive Date :=
| DateAt (ms : Z)
| DateParsed (s : string).

(** Modelled from the spec: the status vocabulary of [Provider] in
    [@shared/types], which is not among the sources (spec section 3:
    available, unavailable, rate_limited, unknown). *)
Inductive ProviderStatus :=
| available
| unavailable
| rate_limited
| unknown.

Definition status_eqb (a b : ProviderStatus) : bool :=
  match a, b with
  | available, available
  | unavailable, unavailable
  | rate_limited, rate_limited
  | unknown, unknown => true
  | _, _ => false
  end.

(** Modelled from the spec: the [Provider] interface of [@shared/types],
    which is not among the sources; its fields are the ones
    [G4FService.getAvailableProviders] builds and the tests use. *)
Record Provider := mkProvider {
  id : string;
  name : string;
  status : ProviderStatus;
  lastChecked : Date;
  model : option string
}.

(** The callback [p => p.status === 'available']. *)
Definition is_available (p : Provider) : bool :=
  status_eqb (status p) available.

(** The callback [p => p.id === wanted]. *)
Definition has_id (wanted : string) (p : Provider) : bool :=
  String.eqb (id p) wanted.

(** ** Selection strategies *)

(** The interface [ProviderSelectionStrategy]: one method, which may read
    and update the strategy object it is called on. *)
Class ProviderSelectionStrategy (S : Type) :=
  strategy_select : S -> list Provider -> option Provider * S.

Module RoundRobinStrategy.

Record t := mk { currentIndex : nat }.

Definition create : t := {| currentIndex := 0 |}.

Definition selectProvider (this : t) (providers : list Provider)
  : option Provider * t :=
  let availableProviders := List.filter is_available providers in
  if (length availableProviders =? 0)%nat then (None, this)
  else
    let provider :=
      nth_error availableProviders
        (currentIndex this mod length availableProviders) in
    (provider,
     {| currentIndex :=
          (currentIndex this + 1) mod length availableProviders |}).

End RoundRobinStrategy.

Module RandomStrategy.

(** A number [numerator / 2^scale].  The doubles of [[0, 1)], from which
    [Math.random()] draws, are the numbers of this form with a numerator
    below 2^53 and a scale from 53 (the doubles from 1/2 up) to 1074 (the
    smallest ones). *)
Record Dyadic := mkDyadic { numerator : Z; scale : Z }.

Definition is_random (r : Dyadic) : bool :=
  (0 <=? numerator r) && (numerator r <? 2 ^ 53) &&
  (53 <=? scale r) && (scale r <=? 1074).

(** The [k]-th call of [Math.random()] on the instance yields [random k],
    and [calls] counts the calls made so far. *)
Record t := mk { random : nat -> Dyadic; calls : nat }.

(** The rounding of double arithmetic on a natural number: its 53 leading
    bits are kept, to nearest, a tie going to the even significand. *)
Definition round53 (x : Z) : Z :=
  let excess := Z.log2 x + 1 - 53 in
  if excess <=? 0 then x
  else
    let unit := 2 ^ excess in
    let q := x / unit in
    let rest := x mod unit in
    let half := unit / 2 in
    if (half <? rest) || ((rest =? half) && Z.odd q)
    then (q + 1) * unit
    else q * unit.

(** [r * n] on doubles, for a draw [r] and an array length [n]: the exact
    product [numerator * n / 2^scale], rounded.  A length is an integer
    below 2^32, which is exact as a double; the product is below 2^32 and
    a multiple of [2^-scale], so it neither overflows nor underflows. *)
Definition times (r : Dyadic) (n : nat) : Dyadic :=
  {| numerator := round53 (numerator r * Z.of_nat n); scale := scale r |}.

(** [Math.floor(x)] *)
Definition floor (x : Dyadic) : Z := numerator x / 2 ^ scale x.

(** [array[i]] for an integer [i]: [undefined] outside the array. *)
Definition at_index {A : Type} (l : list A) (i : Z) : option A :=
  if i <? 0 then None else nth_error l (Z.to_nat i).

Definition selectProvider (this : t) (providers : list Provider)
  : option Provider * t :=
  let availableProviders := List.filter is_available providers in
  if (length availableProviders =? 0)%nat then (None, this)
  else
    let randomIndex :=
      floor (times (random this (calls this)) (length availableProviders)) in
    (at_index availableProviders randomIndex,
     {| random := random this; calls := S (calls this) |}).

End RandomStrategy.

Module PriorityStrategy.

Record t := mk { priorityOrder : list string }.

Definition default_order : list string :=
  ["bing"; "chatgptai"; "you"; "freegpt"].

(** The constructor, with its default argument. *)
Definition create (order : option (list string)) : t :=
  {| priorityOrder := default default_order order |}.

(** The [for (const priorityId of this.priorityOrder)] loop. *)
Fixpoint scan (order : list string) (availableProviders : list Provider)
  : option Provider :=
  match order with
  | [] => None
  | priorityId :: rest =>
      match List.find (has_id priorityId) availableProviders with
      | Some provider => Some provider
      | None => scan rest availableProviders
      end
  end.

Definition selectProvider (this : t) (providers : list Provider)
  : option Provider :=
  let availableProviders := List.filter is_available providers in
  if (length availableProviders =? 0)%nat then None
  else
    match scan (priorityOrder this) availableProviders with
    | Some provider => Some provider
    | None => nth_error availableProviders 0
    end.

End PriorityStrategy.

#[export] Instance RoundRobin_strategy
  : ProviderSelectionStrategy RoundRobinStrategy.t :=
  RoundRobinStrategy.selectProvider.

#[export] Instance Random_strategy
  : ProviderSelectionStrategy RandomStrategy.t :=
  RandomStrategy.selectProvider.

#[export] Instance Priority_strategy
  : ProviderSelectionStrategy PriorityStrategy.t :=
  fun this providers => (PriorityStrategy.selectProvider this providers, this).

(** ** Outcomes of asynchronous calls *)

(** A value together with the equation that names it, to keep a loop
    condition in scope of the branch it guards. *)
Definition inspect {A : Type} (x : A) : { y : A | x = y } :=
  exist _ x eq_refl.

(** How an awaited promise settles.  A rejection carries the thrown
    value's message, when it is an [Error]. *)
Inductive Completion (A : Type) :=
| Resolves (value : A)
| Rejects (reason : option string).
Arguments Resolves {A} value.
Arguments Rejects {A} reason.

(** How a synchronous call ends: with its value, or by throwing a
    [TypeError] with the given message. *)
Inductive Evaluation (A : Type) :=
| Returns (value : A)
| Throws (message : string).
Arguments Returns {A} value.
Arguments Throws {A} message.

(** ** G4FService *)

Module G4FService.

Record G4FResponse := mkResponse {
  success : bool;
  message : option string;
  error : option string;
  provider : option string;
  timestamp : option string
}.

(** One entry of [G4FProvidersResponse.providers]. *)
Record RemoteProvider := mkRemote {
  r_id : string;
  r_name : string;
  r_status : string;
  r_last_checked : string;
  r_model : option string;
  r_error_message : option string
}.

Record G4FProvidersResponse := mkProviders {
  ps_success : bool;
  ps_providers : list RemoteProvider;
  ps_count : Z
}.

(** The [error] field of the body of a failed request's response.  The
    body is whatever JSON the remote end sent and the [catch] block reads
    it untyped ([error: any]), so the field is a string or any other
    value: a number, a boolean, an array or an object.  Of a value that is
    not a string the code can observe its truthiness, and where it hands
    the value on ([getErrorMessage]) the model hands on the text [shown]
    that stands for it.  An absent or [null] field is [None]. *)
Inductive BodyValue :=
| Text (s : string)
| NotText (truthy : bool) (shown : string).

(** The value a failed request is rejected with, as the code reads it:
    [error.code], [error.message], [error.response?.status] and
    [error.response?.data?.error]. *)
Record ErrorBody := mkBody { body_error : option BodyValue }.

Record ErrorResponse := mkErrorResponse {
  http_status : Z;
  http_data : option ErrorBody
}.

Record JsError := mkError {
  err_code : option string;
  err_message : option string;
  err_response : option ErrorResponse
}.

(** [new Error(msg)] *)
Definition new_Error (msg : string) : JsError :=
  {| err_code := None; err_message := Some msg; err_response := None |}.

(** [error.response?.data?.error] *)
Definition response_error (e : JsError) : option BodyValue :=
  match err_response e with
  | Some r => match http_data r with
              | Some d => body_error d
              | None => None
              end
  | None => None
  end.

(** [error.response?.status === code] *)
Definition response_status_is (e : JsError) (code : Z) : bool :=
  match err_response e with
  | Some r => http_status r =? code
  | None => false
  end.

(** How [this.client.post] and [this.client.get] settle. *)
Inductive PostOutcome :=
| PostResolved (data : G4FResponse)
| PostRejected (e : JsError).

Inductive GetOutcome :=
| GetResolved (data : G4FProvidersResponse)
| GetRejected (e : JsError).


(** What the service does to the outside world. *)
Record Payload := mkPayload {
  pl_message : string;
  pl_provider : option string;
  pl_model : string
}.

Inductive Event :=
| HttpPost (url : string) (payload : Payload)
| HttpGet (url : string)
| Sleep (ms : Z).

Definition is_post (e : Event) : bool :=
  match e with HttpPost _ _ => true | _ => false end.

Definition is_get (e : Event) : bool :=
  match e with HttpGet _ => true | _ => false end.

(** The instance fields the modelled methods read or write. *)
Record t := mk {
  baseUrl : string;
  maxRetries : nat;
  retryDelay : Z;
  providersCache : list Provider;
  cacheExpiry : Z;
  cacheTTL : Z
}.

(** The constructor; [env_url] is [process.env.G4F_SERVICE_URL]. *)
Definition create (env_url : option string) : t :=
  {| baseUrl := JS.or_string env_url "http://localhost:5001";
     maxRetries := 3;
     retryDelay := 1000;
     providersCache := [];
     cacheExpiry := 0;
     cacheTTL := 5 * 60 * 1000 |}.

Definition mapProviderStatus (s : string) : ProviderStatus :=
  if String.eqb s "available" then available
  else if String.eqb s "rate_limited" then rate_limited
  else unavailable.

(** [v?.toLowerCase()] on the body's [error] field: [undefined] when the
    field is absent, the lowered text of a string, and a [TypeError] for
    any other value, which has no such method (the message is the one
    Node.js gives). *)
Definition lowered (v : option BodyValue) : Evaluation (option string) :=
  match v with
  | None => Returns None
  | Some (Text s) => Returns (Some (JS.toLowerCase s))
  | Some (NotText _ _) =>
      Throws "error.response?.data?.error?.toLowerCase is not a function"
  end.

(** Both texts are lowered before any of the five tests is made. *)
Definition isRateLimitError (e : JsError) : Evaluation bool :=
  let message := JS.or_string (option_map JS.toLowerCase (err_message e)) "" in
  match lowered (response_error e) with
  | Throws thrown => Throws thrown
  | Returns low =>
      let responseData := JS.or_string low "" in
      Returns
        (JS.includes message "rate limit" ||
         JS.includes message "too many requests" ||
         JS.includes responseData "rate limit" ||
         JS.includes responseData "too many requests" ||
         response_status_is e 429)
  end.

Definition isConnectionError (e : JsError) : bool :=
  JS.opt_is (err_code e) "ECONNREFUSED" ||
  JS.opt_is (err_code e) "ENOTFOUND" ||
  JS.opt_is (err_code e) "ETIMEDOUT" ||
  JS.opt_includes (err_message e) "Network Error" ||
  JS.opt_includes (err_message e) "timeout".

(** Truthiness of the body's [error] field, and the text returned for it. *)
Definition body_truthy (v : option BodyValue) : bool :=
  match v with
  | Some (Text s) => JS.truthy s
  | Some (NotText truthy _) => truthy
  | None => false
  end.

Definition body_text (v : option BodyValue) : string :=
  match v with
  | Some (Text s) => s
  | Some (NotText _ shown) => shown
  | None => ""
  end.

Definition getErrorMessage (e : JsError) : string :=
  if body_truthy (response_error e) then body_text (response_error e)
  else if JS.truthy_opt (err_message e) then default "" (err_message e)
  else "Unknown error occurred".

(** The [try] block of one attempt: the response data when the body says
    success, the caught value otherwise. *)
Definition try_post (o : PostOutcome) : G4FResponse + JsError :=
  match o with
  | PostResolved data =>
      if success data then inl data
      else inr (new_Error
                  (JS.or_string (error data) "Unknown error from G4F service"))
  | PostRejected e => inr e
  end.

(** What one iteration of the retry loop decides; [Throw] is an exception
    raised inside the [catch] block, which nothing catches. *)
Inductive Step :=
| Return (data : G4FResponse)
| Continue (caught : JsError) (delay : Z)
| Break (caught : JsError)
| Throw (thrown : string).

(** The second [if] of the [catch] block and the [break] after it. *)
Definition connection_check (this : t) (attempt : nat) (e : JsError) : Step :=
  if isConnectionError e then
    if (attempt <? maxRetries this)%nat
    then Continue e (retryDelay this * Z.of_nat attempt)
    else Break e
  else Break e.

(** The [catch] block of one attempt: a rate-limit error below the ceiling
    is retried after the delay; otherwise control falls to the second
    [if]. *)
Definition on_catch (this : t) (attempt : nat) (e : JsError) : Step :=
  match isRateLimitError e with
  | Throws thrown => Throw thrown
  | Returns true =>
      if (attempt <? maxRetries this)%nat
      then Continue e (retryDelay this * Z.of_nat attempt)
      else connection_check this attempt e
  | Returns false => connection_check this attempt e
  end.

Definition attempt_step (this : t) (attempt : nat) (o : PostOutcome) : Step :=
  match try_post o with
  | inl data => Return data
  | inr e => on_catch this attempt e
  end.

(** How the [for] loop is left: by [return response.data], by falling
    out of it with [lastError] as it then stands, or by an exception. *)
Inductive LoopExit :=
| Returned (data : G4FResponse)
| Fell (lastError : option JsError)
| Threw (thrown : string).

(** [for (let attempt = ...; attempt <= this.maxRetries; attempt++)],
    entered at [attempt]; [post k] is how the [k]-th request settles. *)
Equations? retry_loop (this : t) (post : nat -> PostOutcome)
    (payload : Payload) (attempt : nat) (lastError : option JsError)
  : LoopExit * list Event
  by wf (S (maxRetries this) - attempt)%nat lt :=
  retry_loop this post payload attempt lastError
    with inspect (attempt <=? maxRetries this)%nat := {
    | exist _ true Hle with attempt_step this attempt (post attempt) := {
        | Return data => (Returned data, [HttpPost "/chat" payload])
        | Continue e ms =>
            let rest := retry_loop this post payload (S attempt) (Some e) in
            (fst rest, HttpPost "/chat" payload :: Sleep ms :: snd rest)
        | Break e => (Fell (Some e), [HttpPost "/chat" payload])
        | Throw thrown => (Threw thrown, [HttpPost "/chat" payload]) }
    | exist _ false _ => (Fell lastError, []) }.
Proof. apply Nat.leb_le in Hle. lia. Qed.

(** [sendToProvider(message, provider, model)].  [model] is [None] when
    the argument is omitted; [nowIso] is [new Date().toISOString()] at the
    time the failure result is built.  An exception that leaves the loop
    rejects the promise the method returns. *)
Definition sendToProvider (this : t) (post : nat -> PostOutcome)
    (nowIso : string)
    (message : string) (provider : option string) (model : option string)
  : Completion G4FResponse * list Event :=
  let payload :=
    {| pl_message := message;
       pl_provider := provider;
       pl_model := default "gpt-3.5-turbo" model |} in
  let run := retry_loop this post payload 1 None in
  match fst run with
  | Returned data => (Resolves data, snd run)
  | Fell None =>
      (* getErrorMessage(null) reads a property of null *)
      (Rejects (Some "Cannot read properties of null (reading 'response')"),
       snd run)
  | Fell (Some lastError) =>
      (Resolves {| success := false;
                   message := None;
                   error := Some (getErrorMessage lastError);
                   provider := provider;
                   timestamp := Some nowIso |},
       snd run)
  | Threw thrown => (Rejects (Some thrown), snd run)
  end.

(** The number of [POST /chat] requests in a trace. *)
Definition attempts (tr : list Event) : nat :=
  length (List.filter is_post tr).

(** The number of [GET] requests in a trace. *)
Definition fetches (tr : list Event) : nat :=
  length (List.filter is_get tr).

Definition convert (p : RemoteProvider) : Provider :=
  {| id := r_id p;
     name := r_name p;
     status := mapProviderStatus (r_status p);
     lastChecked := DateParsed (r_last_checked p);
     model := r_model p |}.

(** The [catch] block of [getAvailableProviders]. *)
Definition stale_or_empty (this : t) : list Provider :=
  if (0 <? length (providersCache this))%nat then providersCache this
  else [].

(** [getAvailableProviders()].  [now] is [Date.now()] at the cache check,
    [get] is how [GET /providers] settles if it is sent, [now'] is
    [Date.now()] when the reply is stored. *)
Definition getAvailableProviders (this : t) (now : Z) (get : GetOutcome)
    (now' : Z) : list Provider * t * list Event :=
  if (0 <? length (providersCache this))%nat && (now <? cacheExpiry this)
  then (providersCache this, this, [])
  else
    match get with
    | GetResolved data =>
        if ps_success data then
          let cache := List.map convert (ps_providers data) in
          (cache,
           {| baseUrl := baseUrl this;
              maxRetries := maxRetries this;
              retryDelay := retryDelay this;
              providersCache := cache;
              cacheExpiry := now' + cacheTTL this;
              cacheTTL := cacheTTL this |},
           [HttpGet "/providers"])
        else (stale_or_empty this, this, [HttpGet "/providers"])
    | GetRejected _ => (stale_or_empty this, this, [HttpGet "/providers"])
    end.

Record TestResult := mkTest {
  t_provider : string;
  t_status : ProviderStatus;
  t_lastChecked : Date;
  t_error : option string
}.


Definition clearCache (this : t) : t :=
  {| baseUrl := baseUrl this;
     maxRetries := maxRetries this;
     retryDelay := retryDelay this;
     providersCache := [];
     cacheExpiry := 0;
     cacheTTL := cacheTTL this |}.

(** [getCacheStatus()]; [now] is [Date.now()]. *)
Record CacheStatus := mkCacheStatus {
  cached : nat;
  expiresAt : option Date;
  isExpired : bool
}.

Definition getCacheStatus (this : t) (now : Z) : CacheStatus :=
  {| cached := length (providersCache this);
     expiresAt :=
       if 0 <? cacheExpiry this then Some (DateAt (cacheExpiry this))
       else None;
     isExpired := cacheExpiry this <=? now |}.

(** The calls that touch the roster cache, as one type. *)
Inductive CacheCall :=
| Fetch (now : Z) (get : GetOutcome) (now' : Z)
| Clear.

Definition cache_step (this : t) (call : CacheCall) : t :=
  match call with
  | Fetch now get now' => snd (fst (getAvailableProviders this now get now'))
  | Clear => clearCache this
  end.

Definition cache_run (this : t) (calls : list CacheCall) : t :=
  fold_left cache_step calls this.

End G4FService.

(** ** ProviderManager *)

Module ProviderManager.

Record ProviderHealthStatus := mkHealth {
  providerId : string;
  isHealthy : bool;
  lastChecked : Date;
  consecutiveFailures : Z;
  error : option string
}.

(** The constructor's [options] argument. *)
Record Options := mkOptions {
  opt_healthCheckInterval : option Z;
  opt_maxConsecutiveFailures : option Z;
  opt_enableHealthCheck : option bool
}.

Definition no_options : Options :=
  {| opt_healthCheckInterval := None;
     opt_maxConsecutiveFailures := None;
     opt_enableHealthCheck := None |}.

(** The instance fields; [healthCheckTimer] is whether the interval
    timer is armed.  The injected service is not a field here: what it
    answers is an argument of each method that awaits it. *)
Record t (S : Type) := mk {
  selectionStrategy : S;
  healthCheckInterval : Z;
  healthCheckTimer : bool;
  providerHealth : gmap string ProviderHealthStatus;
  maxConsecutiveFailures : Z;
  healthCheckEnabled : bool
}.
Arguments mk {S}.
Arguments selectionStrategy {S}.
Arguments healthCheckInterval {S}.
Arguments healthCheckTimer {S}.
Arguments providerHealth {S}.
Arguments maxConsecutiveFailures {S}.
Arguments healthCheckEnabled {S}.

(** What [selectProvider] writes to the console. *)
Inductive Log :=
| UsingPreferred (preferredProvider : string)
| PreferredFallback (preferredProvider : string)
| NoHealthyProviders
| Selected (selectedId : string).

Section Manager.
Context {S : Type} `{ProviderSelectionStrategy S}.

Definition set_health (this : t S)
    (h : gmap string ProviderHealthStatus) : t S :=
  mk (selectionStrategy this) (healthCheckInterval this)
     (healthCheckTimer this) h (maxConsecutiveFailures this)
     (healthCheckEnabled this).

Definition set_strategy_state (this : t S) (s : S) : t S :=
  mk s (healthCheckInterval this) (healthCheckTimer this)
     (providerHealth this) (maxConsecutiveFailures this)
     (healthCheckEnabled this).

Definition set_timer (this : t S) (armed : bool) : t S :=
  mk (selectionStrategy this) (healthCheckInterval this) armed
     (providerHealth this) (maxConsecutiveFailures this)
     (healthCheckEnabled this).

(** [new ProviderManager(service, selectionStrategy, options)] with a
    strategy given. *)
Definition create (selectionStrategy : S) (options : Options) : t S :=
  let enabled :=
    match opt_enableHealthCheck options with
    | Some false => false
    | _ => true
    end in
  mk selectionStrategy
     (JS.or_number (opt_healthCheckInterval options) (5 * 60 * 1000))
     enabled
     ∅
     (JS.or_number (opt_maxConsecutiveFailures options) 3)
     enabled.

(** The private [updateProviderHealth]; [now] is the clock reading of
    [new Date()]. *)
Definition updateProviderHealth (this : t S) (providerId : string)
    (isHealthy : bool) (error : option string) (now : Z) : t S :=
  let existing := providerHealth this !! providerId in
  let updated :=
    {| providerId := providerId;
       isHealthy := isHealthy;
       lastChecked := DateAt now;
       consecutiveFailures :=
         if isHealthy then 0
         else JS.or_number (consecutiveFailures <$> existing) 0 + 1;
       error := if isHealthy then None else error |} in
  set_health this (<[providerId := updated]> (providerHealth this)).

(** The private [isProviderHealthy]. *)
Definition isProviderHealthy (this : t S) (providerId : string) : bool :=
  match providerHealth this !! providerId with
  | None => true
  | Some health =>
      isHealthy health &&
      (consecutiveFailures health <? maxConsecutiveFailures this)
  end.

(** [getAvailableProviders()]; [reply] is how
    [this.g4fService.getAvailableProviders()] settles. *)
Definition getAvailableProviders (this : t S)
    (reply : Completion (list Provider)) (now : Z)
  : list Provider * t S :=
  match reply with
  | Resolves providers =>
      (providers,
       fold_left
         (fun acc provider =>
            updateProviderHealth acc (id provider)
              (is_available provider) None now)
         providers this)
  | Rejects _ => ([], this)
  end.

(** The callback of the [filter] calls: remotely available and locally
    healthy. *)
Definition usable (this : t S) (p : Provider) : bool :=
  is_available p && isProviderHealthy this (id p).

(** The part of [selectProvider] after the preferred-provider block. *)
Definition select_by_strategy (this : t S) (providers : list Provider)
    (logs : list Log) : option Provider * t S * list Log :=
  let healthyProviders := List.filter (usable this) providers in
  if (length healthyProviders =? 0)%nat
  then (None, this, logs ++ [NoHealthyProviders])
  else
    let '(selected, strategy') :=
      strategy_select (selectionStrategy this) healthyProviders in
    (selected,
     set_strategy_state this strategy',
     logs ++ match selected with
             | Some p => [Selected (id p)]
             | None => []
             end).

(** [selectProvider(preferredProvider?)]. *)
Definition selectProvider (this : t S) (preferredProvider : option string)
    (reply : Completion (list Provider)) (now : Z)
  : option Provider * t S * list Log :=
  let '(providers, this) := getAvailableProviders this reply now in
  match preferredProvider with
  | Some wanted =>
      if JS.truthy wanted then
        match
          List.find
            (fun p => has_id wanted p && is_available p &&
                      isProviderHealthy this wanted)
            providers
        with
        | Some preferred => (Some preferred, this, [UsingPreferred wanted])
        | None =>
            select_by_strategy this providers [PreferredFallback wanted]
        end
      else select_by_strategy this providers []
  | None => select_by_strategy this providers []
  end.

(** [testProviderHealth(providerId)]; [reply] is how
    [this.g4fService.testProvider(providerId)] settles.  The result is
    [this.providerHealth.get(providerId)]. *)
Definition testProviderHealth (this : t S) (providerId : string)
    (reply : Completion G4FService.TestResult) (now : Z)
  : option ProviderHealthStatus * t S :=
  let this :=
    match reply with
    | Resolves result =>
        updateProviderHealth this providerId
          (status_eqb (G4FService.t_status result) available)
          (G4FService.t_error result) now
    | Rejects reason =>
        updateProviderHealth this providerId false
          (Some (default "Unknown error" reason)) now
    end in
  (providerHealth this !! providerId, this).

Definition markProviderFailure (this : t S) (providerId : string)
    (error : option string) (now : Z) : t S :=
  updateProviderHealth this providerId false error now.

Definition markProviderSuccess (this : t S) (providerId : string)
    (now : Z) : t S :=
  updateProviderHealth this providerId true None now.

(** [healthX?.consecutiveFailures || 0] of the sort's comparator. *)
Definition failures_of (this : t S) (p : Provider) : Z :=
  JS.or_number (consecutiveFailures <$> providerHealth this !! id p) 0.

(** [Array.prototype.sort] is stable: an element is inserted before the
    elements after it that do not have a smaller key. *)
Fixpoint insert_sorted (key : Provider -> Z) (p : Provider)
    (l : list Provider) : list Provider :=
  match l with
  | [] => [p]
  | q :: l' =>
      if key q <? key p then q :: insert_sorted key p l'
      else p :: l
  end.

Definition sort_by (key : Provider -> Z) (l : list Provider)
  : list Provider :=
  fold_right (insert_sorted key) [] l.

(** [getFallbackProviders(excludeProviders)]. *)
Definition getFallbackProviders (this : t S)
    (excludeProviders : list string)
    (reply : Completion (list Provider)) (now : Z)
  : list Provider * t S :=
  let '(allProviders, this) := getAvailableProviders this reply now in
  (sort_by (failures_of this)
     (List.filter
        (fun p => negb (existsb (String.eqb (id p)) excludeProviders) &&
                  usable this p)
        allProviders),
   this).

Definition startPeriodicHealthCheck (this : t S) : t S :=
  set_timer this true.

Definition stopPeriodicHealthCheck (this : t S) : t S :=
  set_timer this false.

(** [performHealthCheck()]; [roster] is how the service's roster call
    settles and [probe p] how the probe of [p] settles.  The probes of
    one sweep are recorded here in roster order. *)
Definition performHealthCheck (this : t S)
    (roster : Completion (list Provider))
    (probe : Provider -> Completion G4FService.TestResult) (now : Z)
  : t S :=
  match roster with
  | Resolves providers =>
      fold_left
        (fun acc p => snd (testProviderHealth acc (id p) (probe p) now))
        providers this
  | Rejects _ => this
  end.

Definition destroy (this : t S) : t S :=
  set_health (stopPeriodicHealthCheck this) ∅.

(** The public operations that touch the health map, as one type. *)
Inductive Op :=
| MarkFailure (providerId : string) (error : option string)
| MarkSuccess (providerId : string)
| TestHealth (providerId : string)
             (reply : Completion G4FService.TestResult)
| GetAvailable (reply : Completion (list Provider))
| Select (preferredProvider : option string)
         (reply : Completion (list Provider))
| Fallback (excludeProviders : list string)
           (reply : Completion (list Provider))
| HealthSweep (roster : Completion (list Provider))
              (probe : Provider -> Completion G4FService.TestResult)
| Destroy.

(** One operation, performed at clock reading [now]. *)
Definition step (this : t S) (call : Z * Op) : t S :=
  let now := fst call in
  match snd call with
  | MarkFailure providerId error =>
      markProviderFailure this providerId error now
  | MarkSuccess providerId => markProviderSuccess this providerId now
  | TestHealth providerId reply =>
      snd (testProviderHealth this providerId reply now)
  | GetAvailable reply => snd (getAvailableProviders this reply now)
  | Select preferredProvider reply =>
      snd (fst (selectProvider this preferredProvider reply now))
  | Fallback excludeProviders reply =>
      snd (getFallbackProviders this excludeProviders reply now)
  | HealthSweep roster probe => performHealthCheck this roster probe now
  | Destroy => destroy this
  end.

Definition run (this : t S) (calls : list (Z * Op)) : t S :=
  fold_left step calls this.

(** [consecutiveFailures] of a provider, read as the code reads it
    ([existing?.consecutiveFailures || 0]). *)
Definition failures (this : t S) (providerId : string) : Z :=
  JS.or_number (consecutiveFailures <$> providerHealth this !! providerId) 0.

(** [getProviderHealth(providerId)] *)
Definition getProviderHealth (this : t S) (providerId : string)
  : option ProviderHealthStatus :=
  providerHealth this !! providerId.

(** [h.lastChecked.getTime()]; [parseDate] stands for the parsing of a
    date string, which no record written by the manager needs. *)
Definition getTime (parseDate : string -> Z) (d : Date) : Z :=
  match d with
  | DateAt ms => ms
  | DateParsed s => parseDate s
  end.

(** The body of [getStatistics()] on the array of the map's values.  The
    quotient [totalFailures / healthStatuses.length] is kept as its two
    operands. *)
Inductive Average :=
| Quotient (totalFailures count : Z)
| Zero.

Record Statistics := mkStatistics {
  totalProviders : Z;
  healthyProviders : Z;
  unhealthyProviders : Z;
  averageConsecutiveFailures : Average;
  lastHealthCheck : option Date
}.

Definition statistics_of (parseDate : string -> Z)
    (healthStatuses : list ProviderHealthStatus) : Statistics :=
  let healthyCount :=
    Z.of_nat (length (List.filter isHealthy healthStatuses)) in
  let totalFailures :=
    fold_left (fun sum h => sum + consecutiveFailures h) healthStatuses 0 in
  let total := Z.of_nat (length healthStatuses) in
  {| totalProviders := total;
     healthyProviders := healthyCount;
     unhealthyProviders := total - healthyCount;
     averageConsecutiveFailures :=
       if 0 <? total then Quotient totalFailures total else Zero;
     lastHealthCheck :=
       match healthStatuses with
       | [] => None
       | h :: rest =>
           Some (DateAt
                   (fold_left Z.max
                      (List.map (fun x => getTime parseDate (lastChecked x))
                         rest)
                      (getTime parseDate (lastChecked h))))
       end |}.

(** [getStatistics()].  The values are taken in the order the finite map
    lists them; counts, sum and maximum do not depend on it. *)
Definition getStatistics (parseDate : string -> Z) (this : t S) : Statistics :=
  statistics_of parseDate ((map_to_list (providerHealth this)).*2).

End Manager.

(** [setSelectionStrategy(strategy)]: the strategy object is replaced,
    possibly by one of another class. *)
Definition setSelectionStrategy {S S' : Type} (this : t S) (strategy : S')
  : t S' :=
  mk strategy (healthCheckInterval this) (healthCheckTimer this)
     (providerHealth this) (maxConsecutiveFailures this)
     (healthCheckEnabled this).

(** [new ProviderManager(service, undefined, options)]: the default
    strategy is a [PriorityStrategy] with its default order. *)
Definition create_default (options : Options) : t PriorityStrategy.t :=
  create (PriorityStrategy.create None) options.

End ProviderManager.

(** ** JavaScript values of request bodies and query strings *)

Module JSValue.

(** A number that may be [NaN]. *)
Inductive JsNum :=
| NaN
| Num (z : Z).

(** Truthiness of a number: [NaN] and [0] are falsy. *)
Definition num_truthy (n : JsNum) : bool :=
  match n with
  | NaN => false
  | Num z => negb (z =? 0)
  end.

(** [n || d] on an optional number. *)
Definition num_or (o : option JsNum) (d : Z) : Z :=
  match o with
  | Some (Num z) => if z =? 0 then d else z
  | _ => d
  end.

(** A string that the code measures or scans (a field of a request body,
    a query parameter) is the sequence of its UTF-16 code units, each a
    number below 2^16: [s.length] is the number of units, and [trim] and
    [parseInt] work unit by unit. *)
Definition JsString : Type := list N.

(** The code units of a literal written in ASCII. *)
Definition units (s : string) : JsString :=
  List.map (fun c => N.of_nat (nat_of_ascii c)) (list_ascii_of_string s).

(** Truthiness of a string: the empty string is falsy. *)
Definition nonempty (s : JsString) : bool :=
  match s with [] => false | _ => true end.

(** A field of a parsed JSON body; objects and arrays are not looked
    into. *)
Inductive JsValue :=
| JUndefined
| JNull
| JBool (b : bool)
| JNumber (n : JsNum)
| JString (s : JsString)
| JObject.

Definition truthy (v : JsValue) : bool :=
  match v with
  | JUndefined | JNull => false
  | JBool b => b
  | JNumber n => num_truthy n
  | JString s => nonempty s
  | JObject => true
  end.

(** The white space and line terminators of ECMAScript, which [trim] and
    [parseInt] strip: tab to carriage return, space, no-break space,
    U+1680, U+2000 to U+200A, the line and paragraph separators, U+202F,
    U+205F, U+3000 and the byte order mark.  Each is one code unit. *)
Definition is_white (c : N) : bool :=
  ((9 <=? c) && (c <=? 13) || (c =? 32) || (c =? 160) || (c =? 5760) ||
   (8192 <=? c) && (c <=? 8202) || (c =? 8232) || (c =? 8233) ||
   (c =? 8239) || (c =? 8287) || (c =? 12288) || (c =? 65279))%N.

Fixpoint trimStart (s : JsString) : JsString :=
  match s with
  | [] => []
  | c :: s' => if is_white c then trimStart s' else s
  end.

Fixpoint trimEnd (s : JsString) : JsString :=
  match s with
  | [] => []
  | c :: s' =>
      match trimEnd s' with
      | [] => if is_white c then [] else [c]
      | rest => c :: rest
      end
  end.

(** [String.prototype.trim] *)
Definition trim (s : JsString) : JsString := trimEnd (trimStart s).

(** The value of a decimal digit, [0] to [9]. *)
Definition digit (c : N) : option Z :=
  if ((48 <=? c) && (c <=? 57))%N then Some (Z.of_N (c - 48)) else None.

(** The longest prefix of decimal digits, as a number; [None] when the
    string does not start with a digit. *)
Fixpoint read_digits (s : JsString) (acc : option Z) : option Z :=
  match s with
  | [] => acc
  | c :: s' =>
      match digit c with
      | Some d => read_digits s' (Some (10 * default 0 acc + d))
      | None => acc
      end
  end.

(** [parseInt(s, 10)]: leading white space, an optional sign ([-] is unit
    45, [+] is unit 43), then the longest run of digits; [NaN] when there
    is no digit.  The value is exact, as the code's is below 2^53. *)
Definition parseInt (s : JsString) : JsNum :=
  let s := trimStart s in
  let signed :=
    match s with
    | 45%N :: rest => (true, rest)
    | 43%N :: rest => (false, rest)
    | _ => (false, s)
    end in
  match read_digits (snd signed) None with
  | Some v => Num (if fst signed then - v else v)
  | None => NaN
  end.

(** [isNaN(n)] *)
Definition isNaN (n : JsNum) : bool :=
  match n with NaN => true | Num _ => false end.

(** [n < k] and [n > k]; comparisons with [NaN] are false. *)
Definition num_lt (n : JsNum) (k : Z) : bool :=
  match n with NaN => false | Num z => z <? k end.

Definition num_gt (n : JsNum) (k : Z) : bool :=
  match n with NaN => false | Num z => k <? z end.

End JSValue.

(** ** MessageStorage *)

Module MessageStorage.

Inductive Role :=
| user
| assistant.

(** The [Message] interface of [@shared/types] is not among the sources;
    the fields are those of the object [addMessage] builds.  [timestamp]
    is the [Date] as its [getTime()]. *)
Record Message := mkMessage {
  id : string;
  content : string;
  role : Role;
  timestamp : Z;
  provider : option string;
  error : option string
}.

Record t := mk { messages : list Message }.

Definition create : t := {| messages := [] |}.

(** [addMessage(content, role, provider?, error?)]; [uuid] is the value
    of [uuidv4()] and [now] the clock reading of [new Date()]. *)
Definition addMessage (this : t) (uuid : string) (now : Z)
    (content : string) (role : Role)
    (provider : option string) (error : option string) : Message * t :=
  let message :=
    {| id := uuid; content := content; role := role; timestamp := now;
       provider := provider; error := error |} in
  (message, {| messages := messages this ++ [message] |}).

(** [Array.prototype.sort] with the comparator
    [a.timestamp.getTime() - b.timestamp.getTime()]: the sort is stable. *)
Fixpoint insert_by_time (m : Message) (l : list Message) : list Message :=
  match l with
  | [] => [m]
  | q :: l' =>
      if timestamp q <? timestamp m then q :: insert_by_time m l'
      else m :: l
  end.

Definition sort_by_time (l : list Message) : list Message :=
  fold_right insert_by_time [] l.

(** The relative index of [Array.prototype.slice]: a negative index counts
    from the end, and the result is clamped to the array. *)
Definition relative (len i : Z) : Z :=
  if i <? 0 then Z.max (len + i) 0 else Z.min i len.

(** [l.slice(start, end)]; [end] is [None] for [undefined]. *)
Definition slice {A : Type} (l : list A) (start : Z) (end_ : option Z)
  : list A :=
  let len := Z.of_nat (length l) in
  let k := relative len start in
  let final :=
    match end_ with
    | None => len
    | Some e => relative len e
    end in
  firstn (Z.to_nat (Z.max (final - k) 0)) (skipn (Z.to_nat k) l).

(** [getMessages(limit?, offset?)]; the sort is in place, so the stored
    array is left sorted. *)
Definition getMessages (this : t)
    (limit offset : option JSValue.JsNum) : list Message * t :=
  let start := JSValue.num_or offset 0 in
  let end_ :=
    match limit with
    | Some (JSValue.Num l) => if l =? 0 then None else Some (start + l)
    | _ => None
    end in
  let sorted := sort_by_time (messages this) in
  (slice sorted start end_, {| messages := sorted |}).

Definition clearMessages (this : t) : t := {| messages := [] |}.

Definition getMessageCount (this : t) : Z :=
  Z.of_nat (length (messages this)).

(** [this.messages[this.messages.length - 1]] *)
Definition getLastMessage (this : t) : option Message :=
  last (messages this).

End MessageStorage.

(** ** Error handling middleware *)

Module ErrorHandler.

(** The [details] objects the repository passes to [AppError]. *)
Inductive Details :=
| ErrorsDetail (errors : list string)
| OriginalErrorDetail (originalError : string)
| ContentTypeDetail (receivedContentType : option string)
| SizeDetail (maxSize receivedSize : string).

Record AppError := mkAppError {
  message : string;
  statusCode : Z;
  code : string;
  details : option Details;
  suggestions : option (list string)
}.

(** [new AppError(message, statusCode, code, details, suggestions)] with
    its default arguments. *)
Definition new_AppError (message : string) (statusCode : option Z)
    (code : option string) (details : option Details)
    (suggestions : option (list string)) : AppError :=
  {| message := message;
     statusCode := default 500 statusCode;
     code := default "INTERNAL_ERROR" code;
     details := details;
     suggestions := suggestions |}.

(** What reaches [errorHandler]: an [AppError], or another error with its
    [name] and [message], whether it is a [SyntaxError] and whether it has
    a [body] property. *)
Inductive Thrown :=
| ThrownApp (e : AppError)
| ThrownOther (name message : string) (isSyntaxError hasBody : bool).

(** The status and the JSON body [errorHandler] sends; a field that the
    object spread leaves out is [None]. *)
Record ErrorResponse := mkErrorResponse {
  res_status : Z;
  res_code : string;
  res_message : string;
  res_details : option Details;
  res_suggestions : option (list string)
}.

Definition respond (statusCode : Z) (code message : string)
    (details : option Details) (suggestions : list string) : ErrorResponse :=
  {| res_status := statusCode;
     res_code := code;
     res_message := message;
     res_details := details;
     res_suggestions :=
       if (0 <? length suggestions)%nat then Some suggestions else None |}.

Definition errorHandler (error : Thrown) : ErrorResponse :=
  match error with
  | ThrownApp e =>
      respond (statusCode e) (code e) (message e) (details e)
        (default [] (suggestions e))
  | ThrownOther name msg isSyntaxError hasBody =>
      if String.eqb name "ValidationError" then
        respond 400 "VALIDATION_ERROR" msg None
          ["Check the request format and required fields"]
      else if isSyntaxError && hasBody then
        respond 400 "INVALID_JSON" "Invalid JSON in request body" None
          ["Ensure the request body contains valid JSON"]
      else if JS.truthy msg then
        respond 500 "INTERNAL_ERROR" msg None []
      else
        respond 500 "INTERNAL_ERROR" "An unexpected error occurred" None []
  end.

End ErrorHandler.

(** ** Request validation middleware *)

Module RequestValidator.

Import ErrorHandler.

Definition MAX_MESSAGE_LENGTH : N := 10000.
Definition MAX_PROVIDER_NAME_LENGTH : N := 100.

(** How a middleware ends: by calling [next()], or by throwing. *)
Inductive Verdict :=
| Next
| Throw (e : AppError).

(** What [requestValidator] reads of the request; [bodySize] is
    [JSON.stringify(req.body).length] when the body is an object, [None]
    when it is not. *)
Record Request := mkRequest {
  path : string;
  method : string;
  contentType : option string;
  bodySize : option Z
}.

(** [Math.round(bodySize / 1024)] for a size that is not negative. *)
Definition rounded_kb (bodySize : Z) : Z := (2 * bodySize + 1024) / 2048.

Definition requestValidator (req : Request) : Verdict :=
  if String.eqb (path req) "/health" || negb (String.prefix "/api/" (path req))
  then Next
  else if
    (String.eqb (method req) "POST" || String.eqb (method req) "PUT") &&
    (negb (JS.truthy_opt (contentType req)) ||
     negb (JS.opt_includes (contentType req) "application/json"))
  then
    Throw (new_AppError "Content-Type must be application/json" (Some 400)
             (Some "INVALID_CONTENT_TYPE")
             (Some (ContentTypeDetail (contentType req)))
             (Some ["Set Content-Type header to application/json"]))
  else
    match bodySize req with
    | Some size =>
        if 1024 * 1024 <? size then
          Throw (new_AppError "Request body too large" (Some 413)
                   (Some "PAYLOAD_TOO_LARGE")
                   (Some (SizeDetail "1MB"
                            (pretty (rounded_kb size) +:+ "KB")))
                   (Some ["Reduce the size of your request payload"]))
        else Next
    | None => Next
    end.

(** The errors [validateSendMessage] collects for [message]. *)
Definition message_errors (message : JSValue.JsValue) : list string :=
  if negb (JSValue.truthy message) then ["Message is required"]
  else
    match message with
    | JSValue.JString s =>
        if (length (JSValue.trim s) =? 0)%nat
        then ["Message cannot be empty"]
        else if (MAX_MESSAGE_LENGTH <? N.of_nat (length s))%N
        then ["Message cannot exceed " +:+ pretty MAX_MESSAGE_LENGTH
              +:+ " characters"]
        else []
    | _ => ["Message must be a string"]
    end.

(** The errors it collects for the optional [provider]. *)
Definition provider_errors (provider : JSValue.JsValue) : list string :=
  match provider with
  | JSValue.JUndefined => []
  | JSValue.JString s =>
      if (MAX_PROVIDER_NAME_LENGTH <? N.of_nat (length s))%N
      then ["Provider name cannot exceed " +:+ pretty MAX_PROVIDER_NAME_LENGTH
            +:+ " characters"]
      else []
  | _ => ["Provider must be a string"]
  end.

(** [validateSendMessage]; the arguments are [req.body.message] and
    [req.body.provider]. *)
Definition validateSendMessage (message provider : JSValue.JsValue)
  : Verdict :=
  let errors := message_errors message ++ provider_errors provider in
  if (0 <? length errors)%nat then
    Throw (new_AppError "Validation failed" (Some 400)
             (Some "VALIDATION_ERROR") (Some (ErrorsDetail errors))
             (Some ["Check the request format and field requirements"]))
  else Next.

Definition limit_errors (limit : option JSValue.JsString) : list string :=
  match limit with
  | None => []
  | Some l =>
      let limitNum := JSValue.parseInt l in
      if JSValue.isNaN limitNum || JSValue.num_lt limitNum 1 ||
         JSValue.num_gt limitNum 1000
      then ["Limit must be a number between 1 and 1000"]
      else []
  end.

Definition offset_errors (offset : option JSValue.JsString)
  : list string :=
  match offset with
  | None => []
  | Some o =>
      let offsetNum := JSValue.parseInt o in
      if JSValue.isNaN offsetNum || JSValue.num_lt offsetNum 0
      then ["Offset must be a non-negative number"]
      else []
  end.

(** [validateHistoryQuery]; the arguments are [req.query.limit] and
    [req.query.offset]. *)
Definition validateHistoryQuery (limit offset : option JSValue.JsString)
  : Verdict :=
  let errors := limit_errors limit ++ offset_errors offset in
  if (0 <? length errors)%nat then
    Throw (new_AppError "Query validation failed" (Some 400)
             (Some "VALIDATION_ERROR") (Some (ErrorsDetail errors))
             (Some ["Check the query parameters format"]))
  else Next.

End RequestValidator.

(** ** ChatController *)

Module ChatController.

Record t := mk { messageStorage : MessageStorage.t }.

Definition create : t := {| messageStorage := MessageStorage.create |}.

(** The double quote character. *)
Definition dquote : string := String (ascii_of_nat 34) EmptyString.

Definition mockResponse (message : string) : string :=
  "This is a mock response to: " +:+ dquote +:+ message +:+ dquote +:+
  ". The G4F service integration will be implemented in subtask 4.3.".

(** The [data] of the reply of [sendMessage]. *)
Record SendData := mkSendData {
  userMessage : MessageStorage.Message;
  assistantMessage : MessageStorage.Message;
  totalMessages : Z
}.

(** [sendMessage]; [message] and [provider] are the fields of the body,
    [uuid1], [now1] and [uuid2], [now2] what [uuidv4()] and [new Date()]
    give for the two stored messages. *)
Definition sendMessage (this : t) (message : string)
    (provider : option string) (uuid1 : string) (now1 : Z)
    (uuid2 : string) (now2 : Z) : SendData * t :=
  let '(userMessage, storage) :=
    MessageStorage.addMessage (messageStorage this) uuid1 now1 message
      MessageStorage.user None None in
  let '(assistantMessage, storage) :=
    MessageStorage.addMessage storage uuid2 now2 (mockResponse message)
      MessageStorage.assistant
      (Some (JS.or_string provider "mock-provider")) None in
  ({| userMessage := userMessage;
      assistantMessage := assistantMessage;
      totalMessages := MessageStorage.getMessageCount storage |},
   {| messageStorage := storage |}).

Record Pagination := mkPagination {
  total : Z;
  limit : Z;
  offset : Z;
  hasMore : bool
}.

Record HistoryData := mkHistoryData {
  history : list MessageStorage.Message;
  pagination : Pagination
}.

(** [req.query.x ? parseInt(req.query.x, 10) : undefined] *)
Definition query_number (q : option JSValue.JsString)
  : option JSValue.JsNum :=
  match q with
  | Some s => if JSValue.nonempty s then Some (JSValue.parseInt s) else None
  | None => None
  end.

(** [getHistory]; the arguments are [req.query.limit] and
    [req.query.offset]. *)
Definition getHistory (this : t)
    (q_limit q_offset : option JSValue.JsString) : HistoryData * t :=
  let limit := query_number q_limit in
  let offset := query_number q_offset in
  let '(messages, storage) :=
    MessageStorage.getMessages (messageStorage this) limit offset in
  let totalCount := MessageStorage.getMessageCount storage in
  let actualOffset := JSValue.num_or offset 0 in
  let actualLimit := JSValue.num_or limit totalCount in
  ({| history := messages;
      pagination :=
        {| total := totalCount;
           limit := actualLimit;
           offset := actualOffset;
           hasMore :=
             match limit with
             | Some _ => actualOffset + actualLimit <? totalCount
             | None => false
             end |} |},
   {| messageStorage := storage |}).

(** [clearHistory]: the reply carries the number of messages cleared. *)
Definition clearHistory (this : t) : Z * t :=
  let messageCount := MessageStorage.getMessageCount (messageStorage this) in
  (messageCount,
   {| messageStorage := MessageStorage.clearMessages (messageStorage this) |}).

End ChatController.

(** ** Sample data used by the worked examples *)

Module Sample.

Definition provider (i : string) (s : ProviderStatus) : Provider :=
  {| id := i; name := i; status := s;
     lastChecked := DateParsed "2023-01-01T00:00:00Z"; model := None |}.

Definition p1 : Provider := provider "p1" available.
Definition A : Provider := provider "A" available.

(** The roster of the manager's test suite. *)
Definition mockProviders : list Provider :=
  [provider "bing" available; provider "chatgptai" available;
   provider "you" rate_limited; provider "freegpt" unavailable].

(** A fresh manager with the default strategy and threshold. *)
Definition manager : ProviderManager.t PriorityStrategy.t :=
  ProviderManager.create_default
    {| ProviderManager.opt_healthCheckInterval := None;
       ProviderManager.opt_maxConsecutiveFailures := Some 3;
       ProviderManager.opt_enableHealthCheck := Some false |}.

(** Three reported failures of [p1], at clock readings 2, 3 and 4. *)
Definition three_failures : list (Z * ProviderManager.Op) :=
  [(2, ProviderManager.MarkFailure "p1" (Some "boom"));
   (3, ProviderManager.MarkFailure "p1" (Some "boom"));
   (4, ProviderManager.MarkFailure "p1" (Some "boom"))].

(** A rejection with status 429, a rejection with status 400, and a
    successful reply, as in the service's test suite. *)
Definition rateLimitError : G4FService.JsError :=
  {| G4FService.err_code := None;
     G4FService.err_message := Some "Rate limit exceeded";
     G4FService.err_response :=
       Some {| G4FService.http_status := 429;
               G4FService.http_data :=
                 Some {| G4FService.body_error :=
                           Some (G4FService.Text "Rate limit exceeded") |} |} |}.

Definition badRequest : G4FService.JsError :=
  {| G4FService.err_code := None;
     G4FService.err_message := Some "Bad request";
     G4FService.err_response :=
       Some {| G4FService.http_status := 400;
               G4FService.http_data :=
                 Some {| G4FService.body_error :=
                           Some (G4FService.Text "Bad request") |} |} |}.

Definition successResponse : G4FService.G4FResponse :=
  {| G4FService.success := true;
     G4FService.message := Some "Success after retry";
     G4FService.error := None;
     G4FService.provider := Some "bing";
     G4FService.timestamp := None |}.

(** Two rate-limit rejections, then a success. *)
Definition flaky (k : nat) : G4FService.PostOutcome :=
  if (k <? 3)%nat then G4FService.PostRejected rateLimitError
  else G4FService.PostResolved successResponse.

(** A rejection with status 429 whose body carries its error as an
    object, [{error: {code: 429, message: 'Too Many Requests'}}], and one
    with status 500 and the body [{error: {message: 'upstream failed'}}]. *)
Definition structuredRateLimit : G4FService.JsError :=
  {| G4FService.err_code := Some "ERR_BAD_REQUEST";
     G4FService.err_message := Some "Request failed with status code 429";
     G4FService.err_response :=
       Some {| G4FService.http_status := 429;
               G4FService.http_data :=
                 Some {| G4FService.body_error :=
                           Some (G4FService.NotText true
                                   "[object Object]") |} |} |}.

Definition structuredFailure : G4FService.JsError :=
  {| G4FService.err_code := Some "ERR_BAD_RESPONSE";
     G4FService.err_message := Some "Request failed with status code 500";
     G4FService.err_response :=
       Some {| G4FService.http_status := 500;
               G4FService.http_data :=
                 Some {| G4FService.body_error :=
                           Some (G4FService.NotText true
                                   "[object Object]") |} |} |}.

(** Two rejections with status 429 and a structured body, then a
    success. *)
Definition flaky_structured (k : nat) : G4FService.PostOutcome :=
  if (k <? 3)%nat then G4FService.PostRejected structuredRateLimit
  else G4FService.PostResolved successResponse.

Definition emptyRoster : G4FService.G4FProvidersResponse :=
  {| G4FService.ps_success := true;
     G4FService.ps_providers := [];
     G4FService.ps_count := 0 |}.

Definition oneRoster : G4FService.G4FProvidersResponse :=
  {| G4FService.ps_success := true;
     G4FService.ps_providers :=
       [ {| G4FService.r_id := "bing";
            G4FService.r_name := "Bing";
            G4FService.r_status := "available";
            G4FService.r_last_checked := "2023-01-01T00:00:00Z";
            G4FService.r_model := None;
            G4FService.r_error_message := None |} ];
     G4FService.ps_count := 1 |}.

End Sample.

(** ** Vocabulary of the statements *)

Module Spec.

Import ProviderManager.

(** A health record is consistent: healthy means no failure counted and
    no error kept, unhealthy means at least one failure counted. *)
Definition record_ok (h : ProviderHealthStatus) : Prop :=
  (isHealthy h = true -> consecutiveFailures h = 0 /\ error h = None) /\
  (isHealthy h = false -> 1 <= consecutiveFailures h).

Definition health_ok (m : gmap string ProviderHealthStatus) : Prop :=
  forall providerId h, m !! providerId = Some h -> record_ok h.

(** A reported outcome that is not a success of [providerId]. *)
Definition spares (providerId : string) (call : Z * Op) : Prop :=
  match snd call with
  | MarkFailure _ _ => True
  | MarkSuccess other => other <> providerId
  | _ => False
  end.

(** A reported outcome of another provider than [providerId]. *)
Definition avoids (providerId : string) (call : Z * Op) : Prop :=
  match snd call with
  | MarkFailure other _ | MarkSuccess other => other <> providerId
  | _ => False
  end.

(** The callback counting the reported failures of [providerId]. *)
Definition is_failure_of (providerId : string) (call : Z * Op) : bool :=
  match snd call with
  | MarkFailure other _ => String.eqb other providerId
  | _ => false
  end.

Definition failures_reported (providerId : string) (calls : list (Z * Op))
  : Z :=
  Z.of_nat (length (List.filter (is_failure_of providerId) calls)).

(** The strategy object after [k] consecutive calls on the same list. *)
Fixpoint round_robin_after (k : nat) (this : RoundRobinStrategy.t)
    (providers : list Provider) : RoundRobinStrategy.t :=
  match k with
  | O => this
  | Datatypes.S k' =>
      round_robin_after k'
        (snd (RoundRobinStrategy.selectProvider this providers)) providers
  end.

(** A strategy that only ever returns a member of the list it is given. *)
Definition sound_strategy (S : Type) `{ProviderSelectionStrategy S} : Prop :=
  forall (s : S) (l : list Provider) (p : Provider) (s' : S),
    strategy_select s l = (Some p, s') -> In p l.

(** The [POST] and [Sleep] events of a dispatch that makes [n] attempts:
    each attempt but the last is followed by its back-off delay. *)
Definition backoff_trace (this : G4FService.t)
    (payload : G4FService.Payload) (first n : nat)
  : list G4FService.Event :=
  flat_map
    (fun k => [G4FService.HttpPost "/chat" payload;
               G4FService.Sleep
                 (G4FService.retryDelay this * Z.of_nat k)])
    (seq first (n - 1))
  ++ [G4FService.HttpPost "/chat" payload].

(** The classification of a caught error ends normally and finds a rate
    limit or a connection failure: the conditions of the two [continue]
    statements. *)
Definition retryable (e : G4FService.JsError) : bool :=
  match G4FService.isRateLimitError e with
  | Returns rate => rate || G4FService.isConnectionError e
  | Throws _ => false
  end.

(** The body's [error] field when it is a string. *)
Definition text_of (v : option G4FService.BodyValue) : option string :=
  match v with
  | Some (G4FService.Text s) => Some s
  | _ => None
  end.

(** What one [sendMessage] call is given: the body's [message] and
    [provider], and the ids and clock readings of the two messages. *)
Record SendCall := mkSendCall {
  call_message : string;
  call_provider : option string;
  call_uuid1 : string;
  call_now1 : Z;
  call_uuid2 : string;
  call_now2 : Z
}.

Definition send (this : ChatController.t) (c : SendCall) : ChatController.t :=
  snd (ChatController.sendMessage this (call_message c) (call_provider c)
         (call_uuid1 c) (call_now1 c) (call_uuid2 c) (call_now2 c)).

(** Messages in time order. *)
Definition in_time_order (l : list MessageStorage.Message) : Prop :=
  Sorted (fun a b => MessageStorage.timestamp a <= MessageStorage.timestamp b)
    l.

End Spec.

(** * Properties *)

(** ** Selection strategies *)

Section Strategies.

Lemma filter_nil_length {A : Type} (f : A -> bool) (l : list A) :
  (length (List.filter f l) =? 0)%nat = true <-> List.filter f l = [].
Proof.
  rewrite Nat.eqb_eq. destruct (List.filter f l); simpl; split; congruence.
Qed.





(** The default order prefers [bing] on the roster of the test suite. *)
Example priority_default_order :
  PriorityStrategy.selectProvider (PriorityStrategy.create None)
    Sample.mockProviders = Some (Sample.provider "bing" available).
Proof. reflexivity. Qed.

Lemma mod_succ_differs (c n : nat) :
  (2 <= n)%nat -> (c mod n <> (c + 1) mod n)%nat.
Proof.
  intros Hn.
  assert (Hr : (c mod n < n)%nat) by (apply Nat.mod_upper_bound; lia).
  rewrite <- Nat.Div0.add_mod_idemp_l.
  destruct (Nat.eq_dec (c mod n + 1)%nat n) as [Heq|Hne].
  - rewrite Heq, Nat.Div0.mod_same. lia.
  - rewrite (Nat.mod_small (c mod n + 1)%nat n) by lia. lia.
Qed.

Lemma nth_error_distinct_ids (l : list Provider) (i j : nat) (p q : Provider) :
  List.NoDup (List.map id l) ->
  nth_error l i = Some p -> nth_error l j = Some q -> i <> j ->
  id p <> id q.
Proof.
  intros Hnd Hi Hj Hij Heq. apply Hij.
  assert (Hlt : (i < length (List.map id l))%nat).
  { rewrite length_map. apply nth_error_Some. congruence. }
  apply (proj1 (NoDup_nth_error (List.map id l)) Hnd i j Hlt).
  rewrite !nth_error_map, Hi, Hj. simpl. congruence.
Qed.

Lemma round_robin_call (this : RoundRobinStrategy.t)
    (providers : list Provider) :
  let avail := List.filter is_available providers in
  (0 < length avail)%nat ->
  RoundRobinStrategy.selectProvider this providers
  = (nth_error avail (RoundRobinStrategy.currentIndex this mod length avail),
     {| RoundRobinStrategy.currentIndex :=
          (RoundRobinStrategy.currentIndex this + 1) mod length avail |}).
Proof.
  intros avail Hpos. unfold RoundRobinStrategy.selectProvider. fold avail.
  destruct (length avail =? 0)%nat eqn:Hlen; [|reflexivity].
  apply Nat.eqb_eq in Hlen. lia.
Qed.

(** C9. On a list whose available providers have distinct ids and are at
    least two, a call of [RoundRobinStrategy.selectProvider] returns the
    available provider at position [cursor mod length] and leaves the
    cursor at [(cursor + 1) mod length]; the next call on the same list
    therefore returns a provider with a different id. *)
Theorem round_robin_consecutive_calls_differ
    (this : RoundRobinStrategy.t) (providers : list Provider) :
  let avail := List.filter is_available providers in
  let n := length avail in
  List.NoDup (List.map id avail) ->
  (2 <= n)%nat ->
  exists first second,
    let this' := snd (RoundRobinStrategy.selectProvider this providers) in
    RoundRobinStrategy.selectProvider this providers
    = (Some first,
       {| RoundRobinStrategy.currentIndex :=
            (RoundRobinStrategy.currentIndex this + 1) mod n |}) /\
    nth_error avail (RoundRobinStrategy.currentIndex this mod n)
    = Some first /\
    fst (RoundRobinStrategy.selectProvider this' providers) = Some second /\
    nth_error avail ((RoundRobinStrategy.currentIndex this + 1) mod n)
    = Some second /\
    id first <> id second.
Proof.
  intros avail n Hnd Hn.
  assert (Hlen : (length avail =? 0)%nat = false)
    by (apply Nat.eqb_neq; fold n; lia).
  set (c := RoundRobinStrategy.currentIndex this).
  destruct (nth_error avail (c mod n)%nat) as [first|] eqn:Hfirst.
  2:{ apply nth_error_None in Hfirst.
      pose proof (Nat.mod_upper_bound c n). fold n in Hfirst. lia. }
  destruct (nth_error avail ((c + 1) mod n)%nat) as [second|] eqn:Hsecond.
  2:{ apply nth_error_None in Hsecond.
      pose proof (Nat.mod_upper_bound (c + 1)%nat n). fold n in Hsecond. lia. }
  exists first, second.
  rewrite !round_robin_call by (fold avail; fold n; lia).
  fold avail. fold n. fold c. simpl.
  rewrite round_robin_call by (fold avail; fold n; lia).
  fold avail. fold n. simpl.
  rewrite Nat.Div0.mod_mod, Hfirst, Hsecond.
  repeat split; try reflexivity.
  apply (nth_error_distinct_ids avail (c mod n)%nat ((c + 1) mod n)%nat);
    auto using mod_succ_differs.
Qed.

(** Two calls on the available part of the test suite's roster, from a
    fresh strategy. *)
Lemma round_robin_consecutive_calls_differ_witness :
  exists first second,
    fst (RoundRobinStrategy.selectProvider RoundRobinStrategy.create
           Sample.mockProviders) = Some first /\
    fst (RoundRobinStrategy.selectProvider
           (snd (RoundRobinStrategy.selectProvider RoundRobinStrategy.create
                   Sample.mockProviders))
           Sample.mockProviders) = Some second /\
    id first <> id second.
Proof.
  destruct (round_robin_consecutive_calls_differ
              RoundRobinStrategy.create Sample.mockProviders)
    as (first & second & Hcall & _ & Hnext & _ & Hdiff).
  - simpl. repeat constructor; simpl; intuition discriminate.
  - simpl. lia.
  - exists first, second. rewrite Hcall. simpl.
    rewrite Hcall in Hnext. simpl in Hnext. auto.
Defined.

End Strategies.

(** ** Health tracker *)

Section Health.

Import ProviderManager Spec.
Context {S : Type} `{ProviderSelectionStrategy S}.

Implicit Types (this : t S) (providerId : string).

#[local] Arguments updateProviderHealth : simpl never.

Lemma update_lookup this providerId b e now other :
  providerHealth (updateProviderHealth this providerId b e now) !! other
  = if decide (providerId = other)
    then Some {| ProviderManager.providerId := providerId;
                 isHealthy := b;
                 lastChecked := DateAt now;
                 consecutiveFailures :=
                   if b then 0 else failures this providerId + 1;
                 error := if b then None else e |}
    else providerHealth this !! other.
Proof. unfold updateProviderHealth. simpl. apply lookup_insert. Qed.

Lemma update_max this providerId b e now :
  maxConsecutiveFailures (updateProviderHealth this providerId b e now)
  = maxConsecutiveFailures this.
Proof. reflexivity. Qed.

Lemma update_strategy this providerId b e now :
  selectionStrategy (updateProviderHealth this providerId b e now)
  = selectionStrategy this.
Proof. reflexivity. Qed.

Lemma or_number_succ (v : Z) : JS.or_number (Some (v + 1)) 0 = v + 1.
Proof. unfold JS.or_number. destruct (Z.eqb_spec (v + 1) 0); lia. Qed.

(** Every write is a reset to zero or an increment by one. *)
Lemma failures_update this providerId b e now other :
  failures (updateProviderHealth this providerId b e now) other
  = if decide (providerId = other)
    then if b then 0 else failures this providerId + 1
    else failures this other.
Proof.
  unfold failures at 1. rewrite update_lookup.
  destruct (decide (providerId = other)); [|reflexivity].
  destruct b; simpl; [reflexivity|apply or_number_succ].
Qed.

Lemma failures_nonneg this providerId :
  health_ok (providerHealth this) -> 0 <= failures this providerId.
Proof.
  intros Hok. unfold failures.
  destruct (providerHealth this !! providerId) as [h|] eqn:Hh; simpl; [|lia].
  destruct (Hok _ _ Hh) as [Ht Hf]. unfold JS.or_number.
  destruct (isHealthy h); destruct (Z.eqb_spec (consecutiveFailures h) 0);
    try specialize (Ht eq_refl); try specialize (Hf eq_refl); lia.
Qed.

Lemma update_ok this providerId b e now :
  health_ok (providerHealth this) ->
  health_ok (providerHealth (updateProviderHealth this providerId b e now)).
Proof.
  intros Hok other h. rewrite update_lookup.
  destruct (decide (providerId = other)); [|apply Hok].
  intros [= <-]. pose proof (failures_nonneg this providerId Hok).
  split; simpl; intros ->; [auto|lia].
Qed.

Lemma roster_fold_ok (providers : list Provider) this now :
  health_ok (providerHealth this) ->
  health_ok
    (providerHealth
       (fold_left
          (fun acc provider =>
             updateProviderHealth acc (id provider)
               (is_available provider) None now)
          providers this)).
Proof.
  revert this. induction providers as [|p l IH]; intros this Hok; [exact Hok|].
  simpl. apply IH. now apply update_ok.
Qed.

Lemma getAvailableProviders_ok this reply now :
  health_ok (providerHealth this) ->
  health_ok (providerHealth (snd (getAvailableProviders this reply now))).
Proof.
  intros Hok. destruct reply; simpl; [now apply roster_fold_ok|exact Hok].
Qed.

Lemma select_by_strategy_health this providers logs :
  providerHealth (snd (fst (select_by_strategy this providers logs)))
  = providerHealth this.
Proof.
  unfold select_by_strategy.
  destruct (length _ =? 0)%nat; [reflexivity|].
  destruct (strategy_select _ _). reflexivity.
Qed.

(** [selectProvider] leaves the health map as its roster read left it. *)
Lemma selectProvider_health this preferred reply now :
  providerHealth (snd (fst (selectProvider this preferred reply now)))
  = providerHealth (snd (getAvailableProviders this reply now)).
Proof.
  unfold selectProvider.
  destruct (getAvailableProviders this reply now) as [providers this'].
  simpl. destruct preferred as [wanted|];
    [destruct (JS.truthy wanted);
     [destruct (List.find _ providers); [reflexivity|]|]|];
    apply select_by_strategy_health.
Qed.

(** So does [getFallbackProviders]. *)
Lemma getFallbackProviders_state this exclude reply now :
  snd (getFallbackProviders this exclude reply now)
  = snd (getAvailableProviders this reply now).
Proof.
  unfold getFallbackProviders.
  destruct (getAvailableProviders this reply now). reflexivity.
Qed.

Lemma testProviderHealth_ok this providerId reply now :
  health_ok (providerHealth this) ->
  health_ok (providerHealth (snd (testProviderHealth this providerId reply now))).
Proof.
  intros Hok. unfold testProviderHealth.
  destruct reply; apply update_ok; exact Hok.
Qed.

Lemma sweep_ok (providers : list Provider) this probe now :
  health_ok (providerHealth this) ->
  health_ok
    (providerHealth
       (fold_left
          (fun acc p => snd (testProviderHealth acc (id p) (probe p) now))
          providers this)).
Proof.
  revert this. induction providers as [|p l IH]; intros this Hok; [exact Hok|].
  simpl. apply IH. now apply testProviderHealth_ok.
Qed.

Lemma step_ok this call :
  health_ok (providerHealth this) -> health_ok (providerHealth (step this call)).
Proof.
  intros Hok. destruct call as [now op]. unfold step. simpl.
  destruct op as [pid e|pid|pid reply|reply|pref reply|excl reply|roster probe|].
  - now apply update_ok.
  - now apply update_ok.
  - now apply testProviderHealth_ok.
  - now apply getAvailableProviders_ok.
  - rewrite selectProvider_health. now apply getAvailableProviders_ok.
  - rewrite getFallbackProviders_state. now apply getAvailableProviders_ok.
  - destruct roster; simpl; [now apply sweep_ok|exact Hok].
  - intros pid h. simpl. rewrite lookup_empty. discriminate.
Qed.

Lemma run_ok this calls :
  health_ok (providerHealth this) -> health_ok (providerHealth (run this calls)).
Proof.
  revert this. induction calls as [|c l IH]; intros this Hok; [exact Hok|].
  simpl. apply IH. now apply step_ok.
Qed.

Lemma create_ok (strategy : S) (options : Options) :
  health_ok (providerHealth (create strategy options)).
Proof. intros pid h. simpl. rewrite lookup_empty. discriminate. Qed.

(** C10. In every state the manager reaches from its construction by its
    public operations, each record of the health map is consistent: a
    healthy record has no consecutive failure and no error, an unhealthy
    one has at least one consecutive failure. *)
Theorem health_records_consistent
    (strategy : S) (options : Options) (calls : list (Z * Op))
    (providerId : string) (h : ProviderHealthStatus) :
  providerHealth (run (create strategy options) calls) !! providerId = Some h ->
  (isHealthy h = true -> consecutiveFailures h = 0 /\ error h = None) /\
  (isHealthy h = false -> 1 <= consecutiveFailures h).
Proof.
  intros Hh. exact (run_ok _ calls (create_ok strategy options) _ _ Hh).
Qed.

(** *** Counting failures *)

Lemma step_spares this providerId call :
  spares providerId call ->
  failures (step this call) providerId
  = failures this providerId
    + (if is_failure_of providerId call then 1 else 0).
Proof.
  destruct call as [now op]. unfold spares, is_failure_of, step. simpl.
  destruct op as [other e|other| | | | | |]; try contradiction; intros Hsp.
  - unfold markProviderFailure. rewrite failures_update.
    destruct (decide (other = providerId)) as [->|Hne].
    + rewrite String.eqb_refl. reflexivity.
    + apply String.eqb_neq in Hne. rewrite Hne. lia.
  - unfold markProviderSuccess. rewrite failures_update.
    destruct (decide (other = providerId)); [contradiction|lia].
Qed.

Lemma run_cons this call calls :
  run this (call :: calls) = run (step this call) calls.
Proof. reflexivity. Qed.

Lemma run_spares this providerId calls :
  List.Forall (spares providerId) calls ->
  failures (run this calls) providerId
  = failures this providerId + failures_reported providerId calls.
Proof.
  unfold failures_reported. revert this.
  induction calls as [|c l IH]; intros this Hall; [simpl; lia|].
  inversion Hall as [|? ? Hc Hl]; subst.
  rewrite run_cons, IH, step_spares by assumption. simpl List.filter.
  destruct (is_failure_of providerId c); simpl length; lia.
Qed.

Lemma step_avoids this providerId call :
  avoids providerId call ->
  providerHealth (step this call) !! providerId
  = providerHealth this !! providerId.
Proof.
  destruct call as [now op]. unfold avoids, step. simpl.
  destruct op as [other e|other| | | | | |]; try contradiction; intros Hne;
    unfold markProviderFailure, markProviderSuccess;
    rewrite update_lookup; destruct (decide (other = providerId));
    congruence.
Qed.

Lemma run_avoids this providerId calls :
  List.Forall (avoids providerId) calls ->
  providerHealth (run this calls) !! providerId
  = providerHealth this !! providerId.
Proof.
  revert this. induction calls as [|c l IH]; intros this Hall; [reflexivity|].
  inversion Hall; subst.
  rewrite run_cons, IH, step_avoids by assumption. reflexivity.
Qed.

Lemma run_app this calls calls' :
  run this (calls ++ calls') = run (run this calls) calls'.
Proof. apply fold_left_app. Qed.

Lemma consecutive_failures_count this providerId
    (reports : list (Z * option string)) :
  failures
    (fold_left
       (fun acc r => markProviderFailure acc providerId (snd r) (fst r))
       reports this) providerId
  = failures this providerId + Z.of_nat (length reports).
Proof.
  revert this. induction reports as [|r l IH]; intros this; simpl; [lia|].
  rewrite IH. unfold markProviderFailure. rewrite failures_update.
  destruct (decide (providerId = providerId)); [lia|contradiction].
Qed.

(** C2. Reported failures of a provider, with no success of it in
    between, are counted one by one: [n] consecutive
    [markProviderFailure] calls from a counter that is zero or absent
    leave it at [n]; after the last of them the record is unhealthy and
    keeps the error that call was given.  One [markProviderSuccess] sets
    the record healthy with a counter of exactly zero and no error.  Every
    write of the map either resets the counter of the written provider to
    zero (on success) or adds one to it (on failure), and leaves the
    others alone; and the counter is never negative. *)
Theorem failure_counter_counts this providerId :
  (forall reports : list (Z * option string),
      failures this providerId = 0 ->
      failures
        (fold_left
           (fun acc r => markProviderFailure acc providerId (snd r) (fst r))
           reports this) providerId
      = Z.of_nat (length reports)) /\
  (forall before now e after,
      List.Forall (spares providerId) before ->
      List.Forall (avoids providerId) after ->
      providerHealth
        (run this (before ++ (now, MarkFailure providerId e) :: after))
      !! providerId
      = Some {| ProviderManager.providerId := providerId;
                isHealthy := false;
                lastChecked := DateAt now;
                consecutiveFailures :=
                  failures this providerId
                  + failures_reported providerId before + 1;
                error := e |}) /\
  (forall now,
      providerHealth (markProviderSuccess this providerId now) !! providerId
      = Some {| ProviderManager.providerId := providerId;
                isHealthy := true;
                lastChecked := DateAt now;
                consecutiveFailures := 0;
                error := None |}) /\
  (forall written b e now,
      failures (updateProviderHealth this written b e now) providerId
      = if decide (written = providerId)
        then if b then 0 else failures this providerId + 1
        else failures this providerId) /\
  (forall (strategy : S) options calls h,
      providerHealth (run (create strategy options) calls) !! providerId
      = Some h ->
      0 <= consecutiveFailures h).
Proof.
  repeat split.
  - intros reports Hzero. rewrite consecutive_failures_count. lia.
  - intros before now e after Hbefore Hafter.
    rewrite run_app, run_cons, run_avoids by assumption.
    change (step (run this before) (now, MarkFailure providerId e))
      with (updateProviderHealth (run this before) providerId false e now).
    rewrite update_lookup.
    destruct (decide (providerId = providerId)); [|contradiction].
    rewrite run_spares by assumption. reflexivity.
  - intros now. unfold markProviderSuccess. rewrite update_lookup.
    destruct (decide (providerId = providerId)); [reflexivity|contradiction].
  - intros written b e now.
    rewrite (failures_update this written b e now providerId).
    destruct (decide (written = providerId)) as [->|]; reflexivity.
  - intros strategy options calls h Hh.
    destruct (run_ok _ calls (create_ok strategy options) _ _ Hh) as [Ht Hf].
    destruct (isHealthy h);
      [destruct (Ht eq_refl) as [-> _]|specialize (Hf eq_refl)]; lia.
Qed.

(** *** Roster reads *)

Lemma roster_fold_untouched (providers : list Provider) this now providerId :
  ~ In providerId (List.map id providers) ->
  providerHealth
    (fold_left
       (fun acc provider =>
          updateProviderHealth acc (id provider)
            (is_available provider) None now)
       providers this) !! providerId
  = providerHealth this !! providerId.
Proof.
  revert this. induction providers as [|p l IH]; intros this Hnot;
    [reflexivity|].
  simpl in *. rewrite IH by tauto. rewrite update_lookup.
  destruct (decide (id p = providerId)); [tauto|reflexivity].
Qed.

Lemma roster_fold_rewrites (providers : list Provider) this now p :
  List.NoDup (List.map id providers) ->
  In p providers ->
  providerHealth
    (fold_left
       (fun acc provider =>
          updateProviderHealth acc (id provider)
            (is_available provider) None now)
       providers this) !! id p
  = Some {| providerId := id p;
            isHealthy := is_available p;
            lastChecked := DateAt now;
            consecutiveFailures :=
              if is_available p then 0 else failures this (id p) + 1;
            error := None |}.
Proof.
  revert this. induction providers as [|q l IH]; intros this Hnd Hin;
    [contradiction|].
  simpl in Hnd. inversion Hnd as [|? ? Hq Hl]; subst.
  destruct Hin as [->|Hin]; simpl.
  - rewrite roster_fold_untouched by assumption.
    rewrite update_lookup.
    destruct (decide (id p = id p)); [|contradiction].
    destruct (is_available p); reflexivity.
  - rewrite IH by assumption. rewrite failures_update.
    destruct (decide (id q = id p)) as [Heq|Hne]; [|reflexivity].
    exfalso. apply Hq. rewrite Heq. now apply in_map.
Qed.

(** C3. A roster read rewrites the health record of every provider of the
    fetched roster (ids distinct, as in a roster snapshot) from its remote
    status: an available provider gets a fresh success record, counter
    zero and no error, whatever failures were reported before; any other
    status counts as one more failure.  [selectProvider] and
    [getFallbackProviders] start with the same roster read and leave the
    health map as it leaves it. *)
Theorem roster_read_rewrites_health this (providers : list Provider) now :
  List.NoDup (List.map id providers) ->
  (forall p, In p providers ->
     providerHealth (snd (getAvailableProviders this (Resolves providers) now))
     !! id p
     = Some {| providerId := id p;
               isHealthy := is_available p;
               lastChecked := DateAt now;
               consecutiveFailures :=
                 if is_available p then 0 else failures this (id p) + 1;
               error := None |}) /\
  (forall preferred,
     providerHealth
       (snd (fst (selectProvider this preferred (Resolves providers) now)))
     = providerHealth
         (snd (getAvailableProviders this (Resolves providers) now))) /\
  (forall exclude,
     providerHealth
       (snd (getFallbackProviders this exclude (Resolves providers) now))
     = providerHealth
         (snd (getAvailableProviders this (Resolves providers) now))).
Proof.
  intros Hnd. split; [|split].
  - intros p Hin. simpl. now apply roster_fold_rewrites.
  - intros preferred. apply selectProvider_health.
  - intros exclude. now rewrite getFallbackProviders_state.
Qed.

End Health.

(** ** Provider selection *)

Section Selection.

Import ProviderManager Spec.
Context {S : Type} `{ProviderSelectionStrategy S}.

Implicit Types (this : t S).

Lemma isProviderHealthy_iff this providerId :
  isProviderHealthy this providerId = true <->
  providerHealth this !! providerId = None \/
  exists h, providerHealth this !! providerId = Some h /\
            isHealthy h = true /\
            consecutiveFailures h < maxConsecutiveFailures this.
Proof.
  unfold isProviderHealthy.
  destruct (providerHealth this !! providerId) as [h|].
  - rewrite andb_true_iff, Z.ltb_lt. split.
    + intros [Hh Hlt]. right. exists h. auto.
    + intros [Hnone|(h' & [= <-] & Hh & Hlt)]; [discriminate|auto].
  - split; auto.
Qed.

Lemma truthy_nonempty (s : string) : s <> "" -> JS.truthy s = true.
Proof. destruct s; [contradiction|reflexivity]. Qed.

Lemma getAvailableProviders_strategy this reply now :
  selectionStrategy (snd (getAvailableProviders this reply now))
  = selectionStrategy this /\
  maxConsecutiveFailures (snd (getAvailableProviders this reply now))
  = maxConsecutiveFailures this.
Proof.
  destruct reply as [providers|]; simpl; [|auto].
  revert this. induction providers as [|p l IH]; intros this; simpl; [auto|].
  destruct (IH (updateProviderHealth this (id p) (is_available p) None now))
    as [-> ->]. auto.
Qed.

Lemma has_id_true wanted (p : Provider) : has_id wanted p = true <-> id p = wanted.
Proof. unfold has_id. apply String.eqb_eq. Qed.

Lemma is_available_true (p : Provider) :
  is_available p = true <-> status p = available.
Proof.
  unfold is_available. destruct (status p); simpl; split;
    congruence.
Qed.

(** [selectProvider] with a preferred id given, after its roster read. *)
Lemma selectProvider_preferred this (wanted : string)
    (reply : Completion (list Provider)) (now : Z) :
  wanted <> "" ->
  let providers := fst (getAvailableProviders this reply now) in
  let refreshed := snd (getAvailableProviders this reply now) in
  selectProvider this (Some wanted) reply now
  = match List.find (fun p => has_id wanted p && is_available p &&
                              isProviderHealthy refreshed wanted) providers with
    | Some preferred => (Some preferred, refreshed, [UsingPreferred wanted])
    | None => select_by_strategy refreshed providers [PreferredFallback wanted]
    end.
Proof.
  intros Hgiven. cbv zeta. unfold selectProvider.
  destruct (getAvailableProviders this reply now) as [ps this'].
  rewrite truthy_nonempty by assumption. reflexivity.
Qed.

Lemma fallback_is_logged this (providers : list Provider) (wanted : string) :
  snd (select_by_strategy this providers [PreferredFallback wanted])
  <> [UsingPreferred wanted].
Proof.
  unfold select_by_strategy. destruct (length _ =? 0)%nat; [discriminate|].
  destruct (strategy_select _ _). discriminate.
Qed.

(** Without a preferred id, or with the empty string for it, the call
    goes to the strategy at once. *)
Lemma selectProvider_without_preference this
    (reply : Completion (list Provider)) (now : Z) :
  let providers := fst (getAvailableProviders this reply now) in
  let refreshed := snd (getAvailableProviders this reply now) in
  selectProvider this None reply now
  = select_by_strategy refreshed providers [] /\
  selectProvider this (Some "") reply now
  = select_by_strategy refreshed providers [].
Proof.
  unfold selectProvider.
  destruct (getAvailableProviders this reply now). split; reflexivity.
Qed.

(** After a roster read, every provider the roster lists once as
    available passes the local health filter, whatever was reported
    before: the read has just replaced its record by a success. *)
Lemma roster_read_makes_available_usable this (providers : list Provider)
    now p :
  List.NoDup (List.map id providers) ->
  0 < maxConsecutiveFailures this ->
  In p providers -> status p = available ->
  usable (snd (getAvailableProviders this (Resolves providers) now)) p = true.
Proof.
  intros Hnd Hmax Hin Hav.
  pose proof (getAvailableProviders_strategy this (Resolves providers) now)
    as [_ Hsame].
  apply is_available_true in Hav.
  unfold usable, isProviderHealthy. rewrite Hav.
  simpl getAvailableProviders in *. simpl snd in *.
  rewrite (roster_fold_rewrites providers this now p Hnd Hin), Hav, Hsame.
  simpl. apply Z.ltb_lt. exact Hmax.
Qed.

End Selection.

(** ** The manager on the sample roster *)

Module ManagerExamples.

Import ProviderManager Spec.

(** Three reported failures of [p1] on a fresh manager: the record counts
    three, is unhealthy and keeps the last error; a success resets it. *)
Lemma failure_counter_counts_witness :
  failures Sample.manager "p1" = 0 /\
  providerHealth (run Sample.manager Sample.three_failures) !! "p1"
  = Some {| providerId := "p1";
            isHealthy := false;
            lastChecked := DateAt 4;
            consecutiveFailures := 3;
            error := Some "boom" |}.
Proof.
  split; [reflexivity|].
  destruct (failure_counter_counts Sample.manager "p1")
    as (_ & Hrecord & _).
  refine (Hrecord
            [(2, MarkFailure "p1" (Some "boom"));
             (3, MarkFailure "p1" (Some "boom"))]
            4 (Some "boom") [] _ _).
  - repeat constructor.
  - constructor.
Defined.

(** A roster read of [p1] as available, after three reported failures. *)
Lemma roster_read_rewrites_health_witness :
  List.NoDup (List.map id [Sample.p1]) /\
  In Sample.p1 [Sample.p1] /\
  providerHealth
    (snd (getAvailableProviders
            (run Sample.manager Sample.three_failures)
            (Resolves [Sample.p1]) 5)) !! "p1"
  = Some {| providerId := "p1";
            isHealthy := true;
            lastChecked := DateAt 5;
            consecutiveFailures := 0;
            error := None |}.
Proof.
  assert (Hnd : List.NoDup (List.map id [Sample.p1])).
  { simpl. constructor; [intros []|constructor]. }
  split; [exact Hnd|]. split; [now left|].
  destruct (roster_read_rewrites_health
              (run Sample.manager Sample.three_failures)
              [Sample.p1] 5 Hnd) as (Hrecord & _).
  exact (Hrecord Sample.p1 (or_introl eq_refl)).
Defined.

(** The record of [p1] after three reported failures is consistent. *)
Lemma health_records_consistent_witness :
  let h := {| providerId := "p1";
              isHealthy := false;
              lastChecked := DateAt 4;
              consecutiveFailures := 3;
              error := Some "boom" |} in
  providerHealth (run Sample.manager Sample.three_failures) !! "p1" = Some h /\
  (isHealthy h = true -> consecutiveFailures h = 0 /\ error h = None) /\
  (isHealthy h = false -> 1 <= consecutiveFailures h).
Proof.
  intros h. split; [reflexivity|].
  apply (health_records_consistent
           (PriorityStrategy.create None)
           {| opt_healthCheckInterval := None;
              opt_maxConsecutiveFailures := Some 3;
              opt_enableHealthCheck := Some false |}
           Sample.three_failures "p1" h).
  reflexivity.
Defined.

(** C1, on the code.  The scenario of the specification: roster [p1]
    available, fresh manager with threshold 3.  The first selection
    returns [p1].  After three reported failures the record of [p1]
    counts three failures and [p1] is not locally healthy; yet the next
    selection returns [p1] again, because its roster read has replaced the
    record by a success before the health filter runs. *)
Theorem reported_failures_lost_on_selection :
  let roster := Resolves [Sample.p1] in
  let first := selectProvider Sample.manager None roster 1 in
  let failed := run (snd (fst first)) Sample.three_failures in
  let second := selectProvider failed None roster 5 in
  fst (fst first) = Some Sample.p1 /\
  maxConsecutiveFailures failed = 3 /\
  failures failed "p1" = 3 /\
  isProviderHealthy failed "p1" = false /\
  fst (fst second) = Some Sample.p1 /\
  failures (snd (fst second)) "p1" = 0.
Proof. vm_compute. repeat split; reflexivity. Qed.

(** C7, on the code.  Roster [bing, p1], both available; fresh manager
    with the default priority strategy and threshold 3.  After three
    reported failures the record of [p1] is unhealthy with three
    consecutive failures, so [p1] is not locally usable: the usable
    providers are [bing] alone, which is what the strategy picks among
    them.  Yet [selectProvider('p1')] returns [p1] directly, as the
    preferred provider: the roster read of the call has replaced the
    record of [p1] by a success before the test of the preferred provider
    reads it. *)
Theorem unhealthy_preferred_provider_is_returned :
  let bing := Sample.provider "bing" available in
  let roster := [bing; Sample.p1] in
  let failed := run Sample.manager Sample.three_failures in
  let outcome := selectProvider failed (Some "p1") (Resolves roster) 5 in
  providerHealth failed !! "p1"
  = Some {| providerId := "p1";
            isHealthy := false;
            lastChecked := DateAt 4;
            consecutiveFailures := 3;
            error := Some "boom" |} /\
  maxConsecutiveFailures failed = 3 /\
  isProviderHealthy failed "p1" = false /\
  List.filter (usable failed) roster = [bing] /\
  fst (strategy_select (selectionStrategy failed)
         (List.filter (usable failed) roster)) = Some bing /\
  fst (fst outcome) = Some Sample.p1 /\
  snd outcome = [UsingPreferred "p1"] /\
  failures (snd (fst outcome)) "p1" = 0.
Proof. vm_compute. repeat split; reflexivity. Qed.

(** The same scenario without the roster read in between: the health
    filter alone does exclude [p1]. *)
Example health_filter_excludes_failed :
  let failed := run Sample.manager Sample.three_failures in
  List.filter (usable failed) [Sample.p1] = [].
Proof. reflexivity. Qed.

End ManagerExamples.

(** ** Dispatch with retries *)

Section Dispatch.

Import G4FService Spec.

Variables (this : t) (post : nat -> PostOutcome) (payload : Payload).

(** The loop, one iteration unrolled. *)
Lemma retry_loop_unfold (a : nat) (last : option JsError) :
  retry_loop this post payload a last =
  if (a <=? maxRetries this)%nat then
    match attempt_step this a (post a) with
    | Return data => (Returned data, [HttpPost "/chat" payload])
    | Continue e ms =>
        let rest := retry_loop this post payload (S a) (Some e) in
        (fst rest, HttpPost "/chat" payload :: Sleep ms :: snd rest)
    | Break e => (Fell (Some e), [HttpPost "/chat" payload])
    | Throw thrown => (Threw thrown, [HttpPost "/chat" payload])
    end
  else (Fell last, []).
Proof.
  funelim (retry_loop this post payload a last);
    match goal with
    | Hc : (_ <=? _)%nat = false |- _ => rewrite Hc; reflexivity
    | Hc : (_ <=? _)%nat = true, Hs : attempt_step _ _ _ = _ |- _ =>
        rewrite Hc, Hs; reflexivity
    end.
Qed.

Lemma on_catch_continue (a : nat) (e e' : JsError) (ms : Z) :
  on_catch this a e = Continue e' ms ->
  e' = e /\ retryable e = true /\
  (a < maxRetries this)%nat /\ ms = retryDelay this * Z.of_nat a.
Proof.
  unfold on_catch, connection_check, retryable.
  destruct (isRateLimitError e) as [[|]|thrown];
    destruct (a <? maxRetries this)%nat eqn:Hlt;
    destruct (isConnectionError e) eqn:Hconn;
    try discriminate; intros [= <- <-];
    apply Nat.ltb_lt in Hlt; auto.
Qed.

Lemma on_catch_break (a : nat) (e e' : JsError) :
  on_catch this a e = Break e' ->
  e' = e /\ (exists rate, isRateLimitError e = Returns rate) /\
  (retryable e = false \/ (maxRetries this <= a)%nat).
Proof.
  unfold on_catch, connection_check, retryable.
  destruct (isRateLimitError e) as [[|]|thrown];
    destruct (a <? maxRetries this)%nat eqn:Hlt;
    destruct (isConnectionError e) eqn:Hconn;
    try discriminate; intros [= <-];
    try apply Nat.ltb_ge in Hlt; eauto.
Qed.

Lemma on_catch_throw (a : nat) (e : JsError) (thrown : string) :
  on_catch this a e = Throw thrown <-> isRateLimitError e = Throws thrown.
Proof.
  unfold on_catch, connection_check.
  destruct (isRateLimitError e) as [[|]|m];
    destruct (a <? maxRetries this)%nat;
    destruct (isConnectionError e);
    split; try discriminate; intros [= <-]; reflexivity.
Qed.

Lemma attempt_step_return (a : nat) (o : PostOutcome) (data : G4FResponse) :
  attempt_step this a o = Return data ->
  o = PostResolved data /\ success data = true.
Proof.
  unfold attempt_step, try_post, on_catch, connection_check.
  destruct o as [d|e]; [destruct (success d) eqn:Hs|];
    repeat match goal with
           | |- context [match ?c with _ => _ end] => destruct c
           end; try discriminate.
  intros [= <-]. auto.
Qed.

Lemma attempt_step_continue (a : nat) (o : PostOutcome) (e : JsError) (ms : Z) :
  attempt_step this a o = Continue e ms ->
  try_post o = inr e /\ retryable e = true /\
  (a < maxRetries this)%nat /\ ms = retryDelay this * Z.of_nat a.
Proof.
  unfold attempt_step. destruct (try_post o) as [d|e0]; [discriminate|].
  intros Hc. apply on_catch_continue in Hc as (-> & Hr & Hlt & Hms). auto.
Qed.

Lemma attempt_step_break (a : nat) (o : PostOutcome) (e : JsError) :
  attempt_step this a o = Break e ->
  try_post o = inr e /\ (exists rate, isRateLimitError e = Returns rate) /\
  (retryable e = false \/ (maxRetries this <= a)%nat).
Proof.
  unfold attempt_step. destruct (try_post o) as [d|e0]; [discriminate|].
  intros Hb. apply on_catch_break in Hb as (-> & Hwhy). auto.
Qed.

Lemma attempt_step_throw (a : nat) (o : PostOutcome) (thrown : string) :
  attempt_step this a o = Throw thrown ->
  exists e, try_post o = inr e /\ isRateLimitError e = Throws thrown.
Proof.
  unfold attempt_step. destruct (try_post o) as [d|e0]; [discriminate|].
  intros Ht. apply on_catch_throw in Ht. eauto.
Qed.

(** The shape of every run of the loop entered at an attempt number
    within the ceiling: some attempts that end in [continue], then one
    that ends the loop by [return], by [break] or by an exception. *)
Lemma retry_loop_shape (fuel a : nat) (last : option JsError) :
  (maxRetries this - a = fuel)%nat -> (a <= maxRetries this)%nat ->
  let run := retry_loop this post payload a last in
  let n := attempts (snd run) in
  (1 <= n)%nat /\ (a + n <= S (maxRetries this))%nat /\
  (forall k, (a <= k)%nat -> (k + 1 < a + n)%nat ->
     exists e ms, attempt_step this k (post k) = Continue e ms) /\
  ((exists data,
       attempt_step this (a + n - 1) (post (a + n - 1)%nat) = Return data /\
       fst run = Returned data) \/
   (exists e,
       attempt_step this (a + n - 1) (post (a + n - 1)%nat) = Break e /\
       fst run = Fell (Some e)) \/
   (exists thrown,
       attempt_step this (a + n - 1) (post (a + n - 1)%nat) = Throw thrown /\
       fst run = Threw thrown)).
Proof.
  revert a last. induction fuel as [|fuel IH]; intros a last Hfuel Hle;
    cbv zeta; rewrite retry_loop_unfold;
    (replace (a <=? maxRetries this)%nat with true
      by (symmetry; now apply Nat.leb_le));
    destruct (attempt_step this a (post a)) as [data|e ms|e|thrown] eqn:Hstep;
    cbn [fst snd]; unfold attempts; cbn [List.filter is_post length];
    try (replace (a + 1 - 1)%nat with a by lia;
         split; [lia|]; split; [lia|]; split;
         [intros k Hk Hk'; lia|eauto 6]; fail).
  - apply attempt_step_continue in Hstep as (_ & _ & Hlt & _). lia.
  - pose proof Hstep as Hcont.
    apply attempt_step_continue in Hcont as (_ & _ & Hlt & _).
    destruct (IH (S a) (Some e) ltac:(lia) ltac:(lia))
      as (Hn & Hbound & Hretry & Hlast).
    fold (attempts (snd (retry_loop this post payload (S a) (Some e))))
      in *.
    set (n' := attempts (snd (retry_loop this post payload (S a) (Some e))))
      in *.
    replace (a + S n' - 1)%nat with (S a + n' - 1)%nat by lia.
    split; [lia|]. split; [lia|]. split; [|exact Hlast].
    intros k Hk Hk'. destruct (Nat.eq_dec k a) as [->|Hne]; [eauto|].
    apply Hretry; lia.
Qed.

End Dispatch.

Section DispatchResults.

Import G4FService Spec.

Lemma or_string_some (s : string) : JS.or_string (Some s) "" = s.
Proof. destruct s; reflexivity. Qed.

Lemma includes_empty (pat : string) :
  pat <> "" -> JS.includes "" pat = false.
Proof. destruct pat; [contradiction|reflexivity]. Qed.

Lemma lowered_includes (o : option string) (pat : string) :
  pat <> "" ->
  JS.includes (JS.or_string (option_map JS.toLowerCase o) "") pat = true <->
  exists s, o = Some s /\ JS.includes (JS.toLowerCase s) pat = true.
Proof.
  intros Hpat. destruct o as [s|]; simpl option_map.
  - rewrite or_string_some. split; [eauto|]. now intros (s' & [= <-] & Hs).
  - simpl JS.or_string. rewrite includes_empty by assumption.
    split; [discriminate|]. now intros (s' & Hs & _).
Qed.

(** The classification throws exactly on a body whose [error] field is
    neither absent nor a string. *)
Lemma isRateLimitError_throws (e : JsError) (thrown : string) :
  isRateLimitError e = Throws thrown <->
  thrown = "error.response?.data?.error?.toLowerCase is not a function" /\
  exists truthy shown, response_error e = Some (NotText truthy shown).
Proof.
  unfold isRateLimitError, lowered.
  destruct (response_error e) as [[b|truthy shown]|].
  - split; [discriminate|]. now intros (_ & t & sh & Hv).
  - split.
    + intros [= <-]. eauto.
    + intros (-> & _). reflexivity.
  - split; [discriminate|]. now intros (_ & t & sh & Hv).
Qed.

Lemma isRateLimitError_returns (e : JsError) :
  (exists rate, isRateLimitError e = Returns rate) <->
  response_error e = None \/ exists b, response_error e = Some (Text b).
Proof.
  unfold isRateLimitError, lowered.
  destruct (response_error e) as [[b|truthy shown]|].
  - split; eauto.
  - split; [now intros (rate & Hr)|].
    intros [Hv|(b & Hv)]; discriminate.
  - split; eauto.
Qed.

(** What counts as a rate-limit failure: the body's [error] field is
    absent or a string, and one of the five tests holds. *)
Lemma isRateLimitError_iff (e : JsError) :
  isRateLimitError e = Returns true <->
  (response_error e = None \/ exists b, response_error e = Some (Text b)) /\
  ((exists m, err_message e = Some m /\
              JS.includes (JS.toLowerCase m) "rate limit" = true) \/
   (exists m, err_message e = Some m /\
              JS.includes (JS.toLowerCase m) "too many requests" = true) \/
   (exists b, response_error e = Some (Text b) /\
              JS.includes (JS.toLowerCase b) "rate limit" = true) \/
   (exists b, response_error e = Some (Text b) /\
              JS.includes (JS.toLowerCase b) "too many requests" = true) \/
   (exists r, err_response e = Some r /\ http_status r = 429)).
Proof.
  assert (Hst : response_status_is e 429 = true <->
                exists r, err_response e = Some r /\ http_status r = 429).
  { unfold response_status_is. destruct (err_response e) as [r|].
    - rewrite Z.eqb_eq. split; [eauto|]. now intros (r' & [= <-] & Hr).
    - split; [discriminate|]. now intros (r' & Hr & _). }
  assert (Hbody : forall (v : option BodyValue) (low : option string)
                         (pat : string),
             pat <> "" -> lowered v = Returns low ->
             JS.includes (JS.or_string low "") pat = true <->
             exists b, v = Some (Text b) /\
                       JS.includes (JS.toLowerCase b) pat = true).
  { intros v low pat Hpat Hlow. destruct v as [[b|truthy shown]|];
      simpl in Hlow; try discriminate; injection Hlow as <-.
    - rewrite or_string_some. split; [eauto|].
      now intros (b' & [= <-] & Hb).
    - simpl JS.or_string. rewrite includes_empty by assumption.
      split; [discriminate|]. now intros (b' & Hb & _). }
  unfold isRateLimitError.
  destruct (lowered (response_error e)) as [low|thrown] eqn:Hlow.
  - assert (Htyped : response_error e = None \/
                     exists b, response_error e = Some (Text b)).
    { destruct (response_error e) as [[b|truthy shown]|];
        simpl in Hlow; try discriminate; eauto. }
    pose proof (Hbody _ _ "rate limit" ltac:(discriminate) Hlow) as Hb1.
    pose proof (Hbody _ _ "too many requests" ltac:(discriminate) Hlow)
      as Hb2.
    split.
    + intros [= Htests]. split; [exact Htyped|].
      rewrite !orb_true_iff in Htests.
      rewrite !lowered_includes in Htests by discriminate.
      rewrite Hb1, Hb2, Hst in Htests. tauto.
    + intros [_ Htests]. f_equal.
      rewrite !orb_true_iff.
      rewrite !lowered_includes by discriminate.
      rewrite Hb1, Hb2, Hst. tauto.
  - split; [discriminate|]. intros [Htyped _].
    destruct (response_error e) as [[b|truthy shown]|];
      simpl in Hlow; try discriminate.
    destruct Htyped as [Hv|(b & Hv)]; discriminate.
Qed.

Lemma opt_is_true (o : option string) (lit : string) :
  JS.opt_is o lit = true <-> o = Some lit.
Proof.
  unfold JS.opt_is. destruct o as [s|]; [|split; discriminate].
  rewrite String.eqb_eq. split; congruence.
Qed.

Lemma opt_includes_true (o : option string) (pat : string) :
  JS.opt_includes o pat = true <->
  exists s, o = Some s /\ JS.includes s pat = true.
Proof.
  unfold JS.opt_includes. destruct o as [s|].
  - split; [eauto|]. now intros (s' & [= <-] & Hs).
  - split; [discriminate|]. now intros (s' & Hs & _).
Qed.

(** What counts as a connection failure. *)
Lemma isConnectionError_iff (e : JsError) :
  isConnectionError e = true <->
  err_code e = Some "ECONNREFUSED" \/
  err_code e = Some "ENOTFOUND" \/
  err_code e = Some "ETIMEDOUT" \/
  (exists m, err_message e = Some m /\
             JS.includes m "Network Error" = true) \/
  (exists m, err_message e = Some m /\ JS.includes m "timeout" = true).
Proof.
  unfold isConnectionError.
  rewrite !orb_true_iff, !opt_is_true, !opt_includes_true. tauto.
Qed.

(** The error string, by priority, of an error whose classification ended
    normally. *)
Lemma getErrorMessage_priority (e : JsError) (rate : bool) :
  isRateLimitError e = Returns rate ->
  getErrorMessage e
  = JS.or_string (text_of (response_error e))
      (JS.or_string (err_message e) "Unknown error occurred").
Proof.
  intros Hrate.
  assert (Htyped : response_error e = None \/
                   exists b, response_error e = Some (Text b)).
  { apply isRateLimitError_returns. eauto. }
  unfold getErrorMessage, JS.truthy_opt, JS.or_string.
  destruct Htyped as [-> | (b & ->)]; simpl;
    [|destruct (JS.truthy b); [reflexivity|]];
    destruct (err_message e) as [m|]; simpl;
    try destruct (JS.truthy m); reflexivity.
Qed.

Lemma or_string_truthy (o : option string) (d : string) :
  JS.truthy d = true -> JS.truthy (JS.or_string o d) = true.
Proof.
  intros Hd. unfold JS.or_string. destruct o as [s|]; [|exact Hd].
  destruct (JS.truthy s) eqn:Hs; [exact Hs|exact Hd].
Qed.

Lemma getErrorMessage_new_Error (m : string) :
  JS.truthy m = true -> getErrorMessage (new_Error m) = m.
Proof.
  intros Hm. unfold getErrorMessage, new_Error. simpl. now rewrite Hm.
Qed.

(** The message kept for a failed attempt, by what the attempt was. *)
Lemma caught_message (o : PostOutcome) (e : JsError) :
  try_post o = inr e ->
  (exists data, o = PostResolved data /\ success data = false /\
     getErrorMessage e
     = JS.or_string (error data) "Unknown error from G4F service") \/
  (exists rejected, o = PostRejected rejected /\ e = rejected).
Proof.
  destruct o as [data|rejected]; simpl.
  - destruct (success data) eqn:Hs; [discriminate|]. intros [= <-].
    left. exists data. split; [reflexivity|]. split; [exact Hs|].
    apply getErrorMessage_new_Error. now apply or_string_truthy.
  - intros [= <-]. right. eauto.
Qed.

(** Only a rejected request can make the classification throw: the error
    made from a reply that says failure has no response. *)
Lemma throwing_attempt_was_rejected (o : PostOutcome) (e : JsError)
    (thrown : string) :
  try_post o = inr e -> isRateLimitError e = Throws thrown ->
  o = PostRejected e.
Proof.
  destruct o as [data|rejected]; simpl.
  - destruct (success data); [discriminate|]. intros [= <-]. discriminate.
  - now intros [= <-].
Qed.

Variables (env_url : option string) (post : nat -> PostOutcome)
          (nowIso text : string) (to model : option string).

Let this := create env_url.
Let outcome := sendToProvider this post nowIso text to model.
Let payload :=
  {| pl_message := text; pl_provider := to;
     pl_model := default "gpt-3.5-turbo" model |}.

Lemma sendToProvider_shape :
  let n := attempts (snd outcome) in
  (1 <= n <= 3)%nat /\
  (forall k, (1 <= k)%nat -> (k < n)%nat ->
     exists e ms, attempt_step this k (post k) = Continue e ms) /\
  ((exists data,
       attempt_step this n (post n) = Return data /\
       fst outcome = Resolves data) \/
   (exists e,
       attempt_step this n (post n) = Break e /\
       fst outcome
       = Resolves {| success := false;
                     message := None;
                     error := Some (getErrorMessage e);
                     provider := to;
                     timestamp := Some nowIso |}) \/
   (exists thrown,
       attempt_step this n (post n) = Throw thrown /\
       fst outcome = Rejects (Some thrown))).
Proof.
  pose proof (retry_loop_shape this post payload 2 1 None eq_refl
                ltac:(simpl; lia)) as Hshape.
  cbv zeta in Hshape.
  subst outcome. unfold sendToProvider. fold payload.
  set (run := retry_loop this post payload 1 None) in *.
  destruct Hshape as (Hn & Hbound & Hretry & Hlast).
  assert (Hsnd : forall c : Completion G4FResponse,
             snd (match fst run with
                  | Returned data => (Resolves data, snd run)
                  | Fell None => (c, snd run)
                  | Fell (Some lastError) =>
                      (Resolves {| success := false;
                                   message := None;
                                   error := Some (getErrorMessage lastError);
                                   provider := to;
                                   timestamp := Some nowIso |}, snd run)
                  | Threw thrown => (Rejects (Some thrown), snd run)
                  end) = snd run).
  { intros c. destruct (fst run) as [d|[l|]|thrown]; reflexivity. }
  cbv zeta. rewrite Hsnd.
  set (n := attempts (snd run)) in *.
  replace (1 + n - 1)%nat with n in Hlast by lia.
  simpl maxRetries in Hbound.
  split; [lia|]. split.
  - intros k Hk Hk'. apply Hretry; lia.
  - destruct Hlast as [(data & Hstep & Hfst)|
                       [(e & Hstep & Hfst)|(thrown & Hstep & Hfst)]];
      rewrite Hfst; simpl; eauto 6.
Qed.

End DispatchResults.

Module DispatchExamples.

Import G4FService.

(** C4, on the code.  Two rejections with HTTP status 429 followed by a
    success: the claim counts a status 429 as a rate limit and promises
    the successful reply after three attempts.  When the body of the 429
    response carries its [error] as an object, the classification lowers
    that field before it tests the status, throws, and the dispatch
    rejects after one attempt without any retry.  With a string in the
    same field the same sequence does give the success after three
    attempts. *)
Theorem rate_limit_with_structured_body_is_not_retried :
  let structured :=
    sendToProvider (create None) Sample.flaky_structured
      "2023-01-01T00:00:00Z" "Hello" (Some "bing") None in
  let typed :=
    sendToProvider (create None) Sample.flaky
      "2023-01-01T00:00:00Z" "Hello" (Some "bing") None in
  response_status_is Sample.structuredRateLimit 429 = true /\
  fst structured
  = Rejects
      (Some "error.response?.data?.error?.toLowerCase is not a function") /\
  attempts (snd structured) = 1%nat /\
  fst typed = Resolves Sample.successResponse /\
  attempts (snd typed) = 3%nat.
Proof. vm_compute. repeat split; reflexivity. Qed.

(** C6, on the code.  A request rejected with status 500 and a body whose
    [error] field is an object: the claim promises a failure result; the
    dispatch rejects with the [TypeError] thrown inside its [catch]
    block, so no result is returned to the caller. *)
Theorem structured_error_body_rejects_dispatch :
  let outcome :=
    sendToProvider (create None)
      (fun _ => PostRejected Sample.structuredFailure)
      "2023-01-01T00:00:00Z" "Hello" (Some "bing") None in
  fst outcome
  = Rejects
      (Some "error.response?.data?.error?.toLowerCase is not a function") /\
  (forall r, fst outcome <> Resolves r) /\
  attempts (snd outcome) = 1%nat.
Proof.
  vm_compute. split; [reflexivity|]. split; [|reflexivity].
  intros r. discriminate.
Qed.

(** A reply that says failure is not retried, and its [error] field is
    the error of the result. *)
Example dispatch_error_reply :
  fst (sendToProvider (create None)
         (fun _ => PostResolved
                     {| success := false;
                        message := None;
                        error := Some "Provider not available";
                        provider := Some "bing";
                        timestamp := None |})
         "2023-01-01T00:00:00Z" "Hello" (Some "bing") None)
  = Resolves {| success := false;
                message := None;
                error := Some "Provider not available";
                provider := Some "bing";
                timestamp := Some "2023-01-01T00:00:00Z" |}.
Proof. reflexivity. Qed.

(** The classification on the errors of the test suite: the patterns of
    a rate limit are matched whatever the case of the letters, those of a
    connection failure as they are written. *)
Example classification_samples :
  isRateLimitError Sample.rateLimitError = Returns true /\
  isRateLimitError (new_Error "Too Many Requests, slow down") = Returns true /\
  isRateLimitError Sample.badRequest = Returns false /\
  isConnectionError Sample.badRequest = false /\
  isConnectionError
    {| err_code := Some "ECONNREFUSED";
       err_message := Some "Connection refused";
       err_response := None |} = true /\
  isConnectionError (new_Error "timeout of 30000ms exceeded") = true /\
  isConnectionError (new_Error "network error") = false.
Proof. repeat split; reflexivity. Qed.

(** A refused connection is retried after one second. *)
Example dispatch_connection_retry :
  sendToProvider (create None)
    (fun k => if (k <? 2)%nat
              then PostRejected {| err_code := Some "ECONNREFUSED";
                                   err_message := Some "Connection refused";
                                   err_response := None |}
              else PostResolved Sample.successResponse)
    "2023-01-01T00:00:00Z" "Hello" (Some "bing") None
  = (Resolves Sample.successResponse,
     [HttpPost "/chat" {| pl_message := "Hello"; pl_provider := Some "bing";
                          pl_model := "gpt-3.5-turbo" |};
      Sleep 1000;
      HttpPost "/chat" {| pl_message := "Hello"; pl_provider := Some "bing";
                          pl_model := "gpt-3.5-turbo" |}]).
Proof. reflexivity. Qed.

(** With a ceiling of zero attempts the loop body never runs and the
    method would reject: resolving relies on the constructor's ceiling. *)
Example dispatch_needs_an_attempt :
  fst (sendToProvider
         {| baseUrl := ""; maxRetries := 0; retryDelay := 1000;
            providersCache := []; cacheExpiry := 0; cacheTTL := 0 |}
         Sample.flaky "" "Hello" None None)
  = Rejects (Some "Cannot read properties of null (reading 'response')").
Proof. reflexivity. Qed.

End DispatchExamples.

(** ** Roster cache *)

Section RosterCache.

Import G4FService.

Lemma fetches_when_missed (this : t) (now : Z) (get : GetOutcome) (now' : Z) :
  (0 <? length (providersCache this))%nat && (now <? cacheExpiry this) = false ->
  fetches (snd (getAvailableProviders this now get now')) = 1%nat.
Proof.
  intros Hmiss. unfold getAvailableProviders. rewrite Hmiss.
  destruct get as [data|e]; [destruct (ps_success data)|]; reflexivity.
Qed.

(** C5, as the code has it.  After a call that fetched the roster with
    success, the cache holds the converted roster and expires one TTL
    after the reply was stored.  A second call before the expiry returns
    a roster that is not empty unchanged, without a request and without
    touching the cache; a second call at or after the expiry sends exactly
    one request.  An empty roster is never served from the cache: the
    second call sends one request whatever the clock says. *)
Theorem roster_cache_reuse (this : t) (now1 : Z)
    (data : G4FProvidersResponse) (now1' : Z) :
  let first := getAvailableProviders this now1 (GetResolved data) now1' in
  let roster := fst (fst first) in
  let cached := snd (fst first) in
  fetches (snd first) = 1%nat ->
  ps_success data = true ->
  roster = List.map convert (ps_providers data) /\
  providersCache cached = roster /\
  cacheExpiry cached = now1' + cacheTTL this /\
  forall (now2 : Z) (get : GetOutcome) (now2' : Z),
    let second := getAvailableProviders cached now2 get now2' in
    (roster <> [] -> now2 < cacheExpiry cached ->
     second = (roster, cached, [])) /\
    (cacheExpiry cached <= now2 -> fetches (snd second) = 1%nat) /\
    (roster = [] -> fetches (snd second) = 1%nat).
Proof.
  intros first roster cached Hfetched Hok.
  subst roster cached first. unfold getAvailableProviders in *.
  destruct ((0 <? length (providersCache this))%nat &&
            (now1 <? cacheExpiry this)) eqn:Hhit; [discriminate|].
  rewrite Hok. cbn [fst snd providersCache cacheExpiry cacheTTL].
  split; [reflexivity|]. split; [reflexivity|]. split; [reflexivity|].
  intros now2 get now2'.
  set (roster := List.map convert (ps_providers data)).
  split; [|split].
  - intros Hne Hfresh.
    assert (Hlen : (0 <? length roster)%nat = true).
    { apply Nat.ltb_lt. destruct roster; [contradiction|simpl; lia]. }
    apply Z.ltb_lt in Hfresh.
    cbv zeta. rewrite Hlen, Hfresh. reflexivity.
  - intros Hexpired. apply Z.ltb_ge in Hexpired.
    cbv zeta. rewrite Hexpired, andb_false_r.
    destruct get as [d|e]; [destruct (ps_success d)|]; reflexivity.
  - intros Hempty. cbv zeta. rewrite Hempty. simpl.
    destruct get as [d|e]; [destruct (ps_success d)|]; reflexivity.
Qed.

(** The cached roster of the test suite is served again within the TTL
    of five minutes. *)
Lemma roster_cache_reuse_witness :
  let first :=
    getAvailableProviders (create None) 1000
      (GetResolved Sample.oneRoster) 1001 in
  fetches (snd first) = 1%nat /\
  ps_success Sample.oneRoster = true /\
  fst (fst first) <> [] /\
  cacheExpiry (snd (fst first)) = 301001 /\
  getAvailableProviders (snd (fst first)) 2000
    (GetResolved Sample.oneRoster) 2001
  = (fst (fst first), snd (fst first), []).
Proof.
  intros first.
  assert (Hfetched : fetches (snd first) = 1%nat) by reflexivity.
  assert (Hok : ps_success Sample.oneRoster = true) by reflexivity.
  assert (Hne : fst (fst first) <> []) by discriminate.
  destruct (roster_cache_reuse (create None) 1000 Sample.oneRoster 1001
              Hfetched Hok) as (_ & _ & Hexp & Hsecond).
  destruct (Hsecond 2000 (GetResolved Sample.oneRoster) 2001)
    as (Hhit & _ & _).
  split; [exact Hfetched|]. split; [exact Hok|]. split; [exact Hne|].
  split; [exact Hexp|].
  apply Hhit; [exact Hne|reflexivity].
Defined.

(** C5 as stated fails on an empty roster: the fetch at clock reading
    1000 succeeds with no provider, the cache would expire at 301001,
    and the call at clock reading 2000 still sends a request. *)
Lemma empty_roster_is_fetched_again :
  let first :=
    getAvailableProviders (create None) 1000
      (GetResolved Sample.emptyRoster) 1001 in
  let cached := snd (fst first) in
  let second :=
    getAvailableProviders cached 2000 (GetResolved Sample.emptyRoster) 2001 in
  fetches (snd first) = 1%nat /\
  fst (fst first) = [] /\
  2000 < cacheExpiry cached /\
  fetches (snd second) = 1%nat /\
  fetches (snd second) <> 0%nat.
Proof. vm_compute. repeat split; try reflexivity; discriminate. Qed.

End RosterCache.

(** * Further properties of the code *)

(** ** Strategies *)

Section StrategyFacts.

Import Spec.

Lemma filter_available_member (providers : list Provider) (p : Provider) :
  In p (List.filter is_available providers) ->
  In p providers /\ status p = available.
Proof.
  intros Hin. apply filter_In in Hin as [Hin Hav]. split; [exact Hin|].
  unfold is_available in Hav. destruct (status p); try discriminate.
  reflexivity.
Qed.

Lemma scan_member (order : list string) (avail : list Provider) (p : Provider) :
  PriorityStrategy.scan order avail = Some p -> In p avail.
Proof.
  induction order as [|q order IH]; simpl; [discriminate|].
  destruct (List.find (has_id q) avail) as [found|] eqn:Hfind; [|exact IH].
  intros [= <-]. now apply find_some in Hfind.
Qed.

(** X2. Whatever [PriorityStrategy] or [RoundRobinStrategy] returns is a
    provider of the input whose status is available; the round robin, like
    the priority strategy, returns none exactly when the input has no
    available provider, and then leaves its cursor where it was. *)
Theorem strategies_return_available_members
    (priority : PriorityStrategy.t) (robin : RoundRobinStrategy.t)
    (providers : list Provider) :
  (forall p, PriorityStrategy.selectProvider priority providers = Some p ->
             In p providers /\ status p = available) /\
  (forall p, fst (RoundRobinStrategy.selectProvider robin providers) = Some p ->
             In p providers /\ status p = available) /\
  (fst (RoundRobinStrategy.selectProvider robin providers) = None <->
   List.filter is_available providers = []) /\
  (List.filter is_available providers = [] ->
   snd (RoundRobinStrategy.selectProvider robin providers) = robin).
Proof.
  split; [|split; [|split]].
  - intros p. unfold PriorityStrategy.selectProvider.
    destruct (length _ =? 0)%nat; [discriminate|].
    destruct (PriorityStrategy.scan _ _) as [found|] eqn:Hscan.
    + intros [= <-]. apply filter_available_member.
      now apply scan_member in Hscan.
    + intros Hnth. apply filter_available_member.
      now apply nth_error_In in Hnth.
  - intros p. unfold RoundRobinStrategy.selectProvider.
    destruct (length _ =? 0)%nat; [discriminate|]. simpl.
    intros Hnth. apply filter_available_member.
    now apply nth_error_In in Hnth.
  - unfold RoundRobinStrategy.selectProvider.
    destruct (length (List.filter is_available providers) =? 0)%nat eqn:Hlen.
    + apply filter_nil_length in Hlen. simpl. tauto.
    + simpl. split.
      * intros Hnone. apply nth_error_None in Hnone.
        apply Nat.eqb_neq in Hlen.
        pose proof (Nat.mod_upper_bound (RoundRobinStrategy.currentIndex robin)
                      _ Hlen). lia.
      * intros Hnil. rewrite Hnil in Hlen. discriminate.
  - intros Hnil. unfold RoundRobinStrategy.selectProvider. rewrite Hnil.
    reflexivity.
Qed.

Lemma strategies_return_available_members_witness :
  PriorityStrategy.selectProvider (PriorityStrategy.create None)
    Sample.mockProviders = Some (Sample.provider "bing" available) /\
  In (Sample.provider "bing" available) Sample.mockProviders /\
  status (Sample.provider "bing" available) = available.
Proof.
  split; [reflexivity|].
  destruct (strategies_return_available_members
              (PriorityStrategy.create None) RoundRobinStrategy.create
              Sample.mockProviders) as (Hpriority & _).
  apply Hpriority. reflexivity.
Defined.

Lemma round_robin_after_cursor (k : nat) (this : RoundRobinStrategy.t)
    (providers : list Provider) :
  let n := length (List.filter is_available providers) in
  (0 < n)%nat ->
  (RoundRobinStrategy.currentIndex (round_robin_after k this providers) mod n
   = (RoundRobinStrategy.currentIndex this + k) mod n)%nat.
Proof.
  intros n Hn. revert this.
  induction k as [|k IH]; intros this; simpl.
  - now rewrite Nat.add_0_r.
  - rewrite IH, round_robin_call by exact Hn. simpl. fold n.
    rewrite Nat.Div0.add_mod_idemp_l. f_equal. lia.
Qed.

(** X1. Round-robin rotation.  On a list with [n > 0] available providers,
    the call made after [k] earlier calls on the same list returns the
    available provider at position [(cursor + k) mod n]; so any [n]
    consecutive calls return every available provider of the list. *)
Theorem round_robin_rotation (this : RoundRobinStrategy.t)
    (providers : list Provider) :
  let avail := List.filter is_available providers in
  let n := length avail in
  (0 < n)%nat ->
  (forall k,
     fst (RoundRobinStrategy.selectProvider
            (round_robin_after k this providers) providers)
     = nth_error avail
         ((RoundRobinStrategy.currentIndex this + k) mod n)%nat) /\
  (forall p, In p avail ->
     exists k, (k < n)%nat /\
       fst (RoundRobinStrategy.selectProvider
              (round_robin_after k this providers) providers) = Some p).
Proof.
  intros avail n Hn.
  assert (Hcall : forall k,
     fst (RoundRobinStrategy.selectProvider
            (round_robin_after k this providers) providers)
     = nth_error avail
         ((RoundRobinStrategy.currentIndex this + k) mod n)%nat).
  { intros k. rewrite round_robin_call by exact Hn. cbn [fst].
    pose proof (round_robin_after_cursor k this providers Hn) as Hc.
    cbv zeta in Hc. subst n avail. now rewrite Hc. }
  split; [exact Hcall|].
  intros p Hin. apply In_nth_error in Hin as [i Hi].
  assert (Hlt : (i < n)%nat) by (apply nth_error_Some; congruence).
  set (c := RoundRobinStrategy.currentIndex this).
  exists ((i + n - c mod n) mod n)%nat. split.
  - apply Nat.mod_upper_bound. lia.
  - rewrite Hcall. fold c. rewrite <- Hi. f_equal.
    pose proof (Nat.mod_upper_bound c n ltac:(lia)) as Hr.
    rewrite Nat.Div0.add_mod_idemp_r, <- Nat.Div0.add_mod_idemp_l.
    replace (c mod n + (i + n - c mod n))%nat with (i + 1 * n)%nat by lia.
    rewrite Nat.Div0.mod_add. now apply Nat.mod_small.
Qed.

(** Both available providers of the test suite's roster are returned by
    two calls, whatever the cursor is. *)
Lemma round_robin_rotation_witness :
  exists k, (k < 2)%nat /\
    fst (RoundRobinStrategy.selectProvider
           (round_robin_after k {| RoundRobinStrategy.currentIndex := 7 |}
              Sample.mockProviders)
           Sample.mockProviders)
    = Some (Sample.provider "chatgptai" available).
Proof.
  destruct (round_robin_rotation {| RoundRobinStrategy.currentIndex := 7 |}
              Sample.mockProviders) as (_ & Hall).
  - simpl. lia.
  - apply (Hall (Sample.provider "chatgptai" available)).
    simpl. right. now left.
Defined.

(** Rounding to 53 bits the product of a significand below 2^53 and a
    natural number [n] below 2^53 never reaches [n * 2^53]: the draw is at
    least one spacing of the doubles below 1, and [n] times that is more
    than half a spacing of the doubles near the product. *)
Lemma round53_below (m n : Z) :
  0 <= m < 2 ^ 53 -> 1 <= n < 2 ^ 53 ->
  RandomStrategy.round53 (m * n) < n * 2 ^ 53.
Proof.
  intros Hm Hn. unfold RandomStrategy.round53.
  set (x := m * n). set (P := 2 ^ 53) in *.
  assert (HP : 0 < P) by (subst P; reflexivity).
  assert (Hx : 0 <= x <= n * P - n) by (subst x; nia).
  destruct (Z.log2 x + 1 - 53 <=? 0) eqn:Hex; [lia|].
  apply Z.leb_gt in Hex.
  assert (Hxpos : 0 < x).
  { destruct (Z.eq_dec x 0) as [Hz|]; [|lia].
    rewrite Hz in Hex. simpl in Hex. lia. }
  set (c := Z.log2 x + 1 - 53) in *.
  pose proof (Z.log2_spec x Hxpos) as [Hlo Hhi].
  replace (Z.log2 x) with ((c - 1) + 53) in Hlo by lia.
  replace (Z.succ (Z.log2 x)) with (c + 53) in Hhi by lia.
  rewrite Z.pow_add_r in Hlo, Hhi by lia. fold P in Hlo, Hhi.
  assert (Hu : 2 ^ c = 2 * 2 ^ (c - 1)).
  { replace c with (Z.succ (c - 1)) at 1 by lia. apply Z.pow_succ_r. lia. }
  assert (Hhalf : 0 < 2 ^ (c - 1)) by (apply Z.pow_pos_nonneg; lia).
  set (half := 2 ^ (c - 1)) in *.
  set (u := 2 ^ c) in *.
  assert (Hdiv : u / 2 = half).
  { rewrite Hu. rewrite Z.mul_comm. apply Z.div_mul. lia. }
  rewrite Hdiv.
  pose proof (Z.div_mod x u ltac:(lia)) as Hdm.
  pose proof (Z.mod_pos_bound x u ltac:(lia)) as Hrest.
  set (q := x / u) in *. set (rest := x mod u) in *.
  assert (Hq : 0 <= q < P) by nia.
  destruct ((half <? rest) || ((rest =? half) && Z.odd q)) eqn:Hup; [|nia].
  destruct (Z_lt_le_dec n u) as [Hsmall|Hbig].
  - (* the spacing exceeds [n], and 2^53 is a multiple of it *)
    assert (Hc : c <= 53).
    { assert (Hlt : 2 ^ (c - 1) < 2 ^ 53) by (fold half; fold P; nia).
      apply Z.pow_lt_mono_r_iff in Hlt; lia. }
    assert (HPu : P = u * 2 ^ (53 - c)).
    { subst P u. rewrite <- Z.pow_add_r by lia. f_equal. lia. }
    assert (Hv : 0 < 2 ^ (53 - c)) by (apply Z.pow_pos_nonneg; lia).
    set (v := 2 ^ (53 - c)) in *.
    assert (Hqv : q < n * v) by nia.
    destruct (Z.eq_dec (q + 1) (n * v)) as [Hlast|Hnot]; [|nia].
    exfalso.
    assert (Hr : rest < half) by nia.
    apply orb_true_iff in Hup as [Hup|Hup].
    + apply Z.ltb_lt in Hup. lia.
    + apply andb_true_iff in Hup as [Hup _]. apply Z.eqb_eq in Hup. lia.
  - (* [n] is at least the spacing *)
    destruct (Z.eq_dec n u) as [Heq|Hne]; [|nia].
    exfalso.
    assert (Hr : rest = 0).
    { subst rest x. rewrite Heq. apply Z.mod_mul. lia. }
    apply orb_true_iff in Hup as [Hup|Hup].
    + apply Z.ltb_lt in Hup. lia.
    + apply andb_true_iff in Hup as [Hup _]. apply Z.eqb_eq in Hup. lia.
Qed.

Lemma round53_nonneg (x : Z) : 0 <= x -> 0 <= RandomStrategy.round53 x.
Proof.
  intros Hx. unfold RandomStrategy.round53.
  destruct (Z.log2 x + 1 - 53 <=? 0) eqn:Hex; [exact Hx|].
  apply Z.leb_gt in Hex.
  assert (Hu : 0 < 2 ^ (Z.log2 x + 1 - 53))
    by (apply Z.pow_pos_nonneg; lia).
  pose proof (Z.div_pos x _ Hx Hu) as Hq.
  destruct (_ || _); nia.
Qed.

(** The index of a draw from [[0, 1)] is inside an array of [n] elements. *)
Lemma random_index_in_bounds (r : RandomStrategy.Dyadic) (n : nat) :
  RandomStrategy.is_random r = true -> (0 < n)%nat ->
  Z.of_nat n < 2 ^ 32 ->
  0 <= RandomStrategy.floor (RandomStrategy.times r n) < Z.of_nat n.
Proof.
  unfold RandomStrategy.is_random, RandomStrategy.floor, RandomStrategy.times.
  intros Hr Hn Harray. cbn [RandomStrategy.numerator RandomStrategy.scale].
  apply andb_true_iff in Hr as [Hr Hhi]. apply andb_true_iff in Hr as [Hr Hlo].
  apply andb_true_iff in Hr as [Hpos Hsig].
  apply Z.leb_le in Hhi, Hlo, Hpos. apply Z.ltb_lt in Hsig.
  set (m := RandomStrategy.numerator r) in *.
  set (s := RandomStrategy.scale r) in *.
  assert (H32 : 2 ^ 32 < 2 ^ 53) by reflexivity.
  pose proof (round53_below m (Z.of_nat n) ltac:(lia) ltac:(lia)) as Hbelow.
  pose proof (round53_nonneg (m * Z.of_nat n) ltac:(nia)) as Hnonneg.
  assert (Hscale : 2 ^ 53 <= 2 ^ s) by (apply Z.pow_le_mono_r; lia).
  assert (Hs : 0 < 2 ^ s) by (apply Z.pow_pos_nonneg; lia).
  split.
  - apply Z.div_pos; assumption.
  - apply Z.div_lt_upper_bound; [exact Hs|]. nia.
Qed.

(** X3. When [Math.random()] yields a double of [[0, 1)] and the input, an
    array and so shorter than 2^32, has an available provider,
    [RandomStrategy] returns an available provider of the input: the index
    [Math.floor(r * length)], with the product rounded as double
    arithmetic rounds it, is always inside the array. *)
Theorem random_returns_available_member (this : RandomStrategy.t)
    (providers : list Provider) :
  let draw := RandomStrategy.random this (RandomStrategy.calls this) in
  RandomStrategy.is_random draw = true ->
  Z.of_nat (length providers) < 2 ^ 32 ->
  List.filter is_available providers <> [] ->
  exists p,
    RandomStrategy.selectProvider this providers
    = (Some p, {| RandomStrategy.random := RandomStrategy.random this;
                  RandomStrategy.calls := Datatypes.S (RandomStrategy.calls this) |}) /\
    In p providers /\ status p = available.
Proof.
  intros draw Hdraw Harray Hne. unfold RandomStrategy.selectProvider.
  set (avail := List.filter is_available providers) in *.
  destruct (length avail =? 0)%nat eqn:Hlen.
  { apply filter_nil_length in Hlen. contradiction. }
  apply Nat.eqb_neq in Hlen. fold draw.
  assert (Hshort : (length avail <= length providers)%nat).
  { subst avail. clear. induction providers as [|q l IH]; simpl; [lia|].
    destruct (is_available q); simpl; lia. }
  pose proof (random_index_in_bounds draw (length avail) Hdraw
                ltac:(lia) ltac:(lia)) as [Hlo Hhi].
  unfold RandomStrategy.at_index.
  replace (_ <? 0) with false by (symmetry; apply Z.ltb_ge; exact Hlo).
  destruct (nth_error avail _) as [p|] eqn:Hnth.
  - exists p. split; [reflexivity|].
    apply filter_available_member. now apply nth_error_In in Hnth.
  - apply nth_error_None in Hnth. lia.
Qed.

(** The draw 0.7 on the roster of the test suite. *)
Lemma random_returns_available_member_witness :
  exists p,
    fst (RandomStrategy.selectProvider
           {| RandomStrategy.random :=
                fun _ => {| RandomStrategy.numerator := 6305039478318694;
                            RandomStrategy.scale := 53 |};
              RandomStrategy.calls := 0 |}
           Sample.mockProviders) = Some p /\
    status p = available.
Proof.
  destruct (random_returns_available_member
              {| RandomStrategy.random :=
                   fun _ => {| RandomStrategy.numerator := 6305039478318694;
                               RandomStrategy.scale := 53 |};
                 RandomStrategy.calls := 0 |}
              Sample.mockProviders) as (p & Hsel & _ & Hav).
  - reflexivity.
  - reflexivity.
  - discriminate.
  - exists p. rewrite Hsel. auto.
Defined.

(** The product is rounded before it is floored: the draw 0.7, which is
    6305039478318694 / 2^53, gives index 7 on ten providers, where the
    exact product has floor 6. *)
Example random_index_is_rounded :
  let draw := {| RandomStrategy.numerator := 6305039478318694;
                 RandomStrategy.scale := 53 |} in
  RandomStrategy.floor (RandomStrategy.times draw 10) = 7 /\
  6305039478318694 * 10 / 2 ^ 53 = 6.
Proof. split; reflexivity. Qed.

End StrategyFacts.

(** ** Provider manager *)

Section ManagerFacts.

Import ProviderManager Spec.
Context {S : Type} `{ProviderSelectionStrategy S}.

Implicit Types (this : t S).

#[local] Arguments updateProviderHealth : simpl never.

Lemma select_by_strategy_sound this (providers : list Provider) logs p :
  sound_strategy S ->
  fst (fst (select_by_strategy this providers logs)) = Some p ->
  In p providers /\ status p = available /\
  isProviderHealthy this (id p) = true.
Proof.
  intros Hsound. unfold select_by_strategy.
  destruct (length _ =? 0)%nat; [discriminate|].
  destruct (strategy_select _ _) as [selected s'] eqn:Hsel. simpl.
  intros ->. apply Hsound in Hsel. apply filter_In in Hsel as [Hin Huse].
  unfold usable in Huse. apply andb_true_iff in Huse as [Hav Hh].
  apply is_available_true in Hav. auto.
Qed.

(** X4. With a strategy that only returns members of the list it is
    given (the three built-in ones do), whatever [selectProvider] returns
    is a provider of the fetched roster, with remote status available, and
    locally healthy on the health map as the call reads it. *)
Theorem selectProvider_returns_usable_member this
    (preferred : option string) (providers : list Provider) (now : Z)
    (p : Provider) :
  sound_strategy S ->
  fst (fst (selectProvider this preferred (Resolves providers) now)) = Some p ->
  In p providers /\ status p = available /\
  isProviderHealthy
    (snd (getAvailableProviders this (Resolves providers) now)) (id p) = true.
Proof.
  intros Hsound. unfold selectProvider.
  destruct (getAvailableProviders this (Resolves providers) now)
    as [roster refreshed] eqn:Hget.
  assert (Hroster : roster = providers) by (simpl in Hget; congruence).
  subst roster. cbn [snd].
  destruct preferred as [wanted|];
    [destruct (JS.truthy wanted)|];
    try (now apply select_by_strategy_sound).
  destruct (List.find _ providers) as [found|] eqn:Hfind;
    [|now apply select_by_strategy_sound].
  simpl. intros [= <-]. apply find_some in Hfind as [Hin Hpred].
  apply andb_true_iff in Hpred as [Hpred Hh].
  apply andb_true_iff in Hpred as [Hid Hav].
  apply has_id_true in Hid. apply is_available_true in Hav.
  rewrite Hid. auto.
Qed.

(** X5. When the registry call rejects, the manager answers with no
    provider and an empty list, and changes nothing: neither the health
    map nor the strategy object. *)
Theorem registry_failure_degrades this (preferred : option string)
    (exclude : list string) (reason : option string) (now : Z) :
  getAvailableProviders this (Rejects reason) now = ([], this) /\
  fst (selectProvider this preferred (Rejects reason) now) = (None, this) /\
  In NoHealthyProviders (snd (selectProvider this preferred (Rejects reason) now)) /\
  getFallbackProviders this exclude (Rejects reason) now = ([], this).
Proof.
  split; [reflexivity|]. split; [|split; [|reflexivity]];
    unfold selectProvider; simpl;
    (destruct preferred as [wanted|]; [destruct (JS.truthy wanted)|]);
    simpl; auto.
Qed.

Lemma step_max this call :
  maxConsecutiveFailures (step this call) = maxConsecutiveFailures this.
Proof.
  destruct call as [now op]. unfold step. cbn [fst snd].
  destruct op as [pid e|pid|pid reply|reply|pref reply|excl reply|roster probe|];
    try reflexivity.
  - destruct reply; reflexivity.
  - apply getAvailableProviders_strategy.
  - unfold selectProvider.
    pose proof (getAvailableProviders_strategy this reply now) as [_ Hmax].
    destruct (getAvailableProviders this reply now) as [providers this'].
    cbn [snd] in Hmax. rewrite <- Hmax.
    assert (Hsel : forall logs,
      maxConsecutiveFailures (snd (fst (select_by_strategy this' providers logs)))
      = maxConsecutiveFailures this').
    { intros logs. unfold select_by_strategy.
      destruct (length _ =? 0)%nat; [reflexivity|].
      destruct (strategy_select _ _). reflexivity. }
    destruct pref as [wanted|];
      [destruct (JS.truthy wanted);
       [destruct (List.find _ providers); [reflexivity|]|]|];
      apply Hsel.
  - rewrite getFallbackProviders_state. apply getAvailableProviders_strategy.
  - destruct roster as [providers|]; [|reflexivity]. simpl.
    revert this. induction providers as [|p l IH]; intros this; [reflexivity|].
    simpl. rewrite IH. destruct (probe p); reflexivity.
Qed.

Lemma run_max this calls :
  maxConsecutiveFailures (run this calls) = maxConsecutiveFailures this.
Proof.
  revert this. induction calls as [|c l IH]; intros this; [reflexivity|].
  rewrite run_cons, IH. apply step_max.
Qed.

Lemma healthy_record_decides this providerId :
  health_ok (providerHealth this) ->
  0 < maxConsecutiveFailures this ->
  isProviderHealthy this providerId
  = match providerHealth this !! providerId with
    | None => true
    | Some h => isHealthy h
    end.
Proof.
  intros Hok Hmax. unfold isProviderHealthy.
  destruct (providerHealth this !! providerId) as [h|] eqn:Hh; [|reflexivity].
  destruct (Hok _ _ Hh) as [Ht _].
  destruct (isHealthy h); [|reflexivity].
  destruct (Ht eq_refl) as [-> _]. simpl. now apply Z.ltb_lt.
Qed.

(** X6. One reported failure is enough to make a provider locally
    unhealthy, whatever the threshold; and in every state the manager
    reaches, with a positive threshold, a provider is locally healthy
    exactly when it has no record or its record is flagged healthy: the
    comparison of the counter with [maxConsecutiveFailures] never decides. *)
Theorem one_failure_makes_unhealthy this providerId :
  (forall e now,
     isProviderHealthy (markProviderFailure this providerId e now) providerId
     = false) /\
  (forall (strategy : S) options calls,
     let reached := run (create strategy options) calls in
     0 < maxConsecutiveFailures reached ->
     isProviderHealthy reached providerId
     = match providerHealth reached !! providerId with
       | None => true
       | Some h => isHealthy h
       end).
Proof.
  split.
  - intros e now. unfold isProviderHealthy, markProviderFailure.
    rewrite update_lookup.
    destruct (decide (providerId = providerId)); [reflexivity|contradiction].
  - intros strategy options calls reached Hmax.
    apply healthy_record_decides; [|exact Hmax].
    apply run_ok, create_ok.
Qed.

Lemma sort_by_same_key (key : Provider -> Z) (l : list Provider) (k : Z) :
  (forall p, In p l -> key p = k) -> sort_by key l = l.
Proof.
  induction l as [|p l IH]; intros Hkey; [reflexivity|].
  unfold sort_by in *. simpl. rewrite IH by (intros q Hq; apply Hkey; now right).
  destruct l as [|q l']; [reflexivity|]. simpl.
  rewrite (Hkey p), (Hkey q) by (simpl; auto).
  now rewrite Z.ltb_irrefl.
Qed.

Lemma usable_has_no_failures this (p : Provider) :
  health_ok (providerHealth this) ->
  usable this p = true -> failures_of this p = 0.
Proof.
  intros Hok Huse. unfold usable in Huse.
  apply andb_true_iff in Huse as [_ Hh].
  unfold isProviderHealthy in Hh. unfold failures_of.
  destruct (providerHealth this !! id p) as [h|] eqn:Hrec; [|reflexivity].
  apply andb_true_iff in Hh as [Hflag _].
  destruct (Hok _ _ Hrec) as [Ht _]. destruct (Ht Hflag) as [Hzero _].
  simpl. now rewrite Hzero.
Qed.

(** X7. In every state the manager reaches, [getFallbackProviders] returns
    the roster's providers that are not excluded, remotely available and
    locally healthy, in the order of the roster: the sort by failures
    never moves anything, because a locally healthy provider counts no
    failure. *)
Theorem fallbacks_keep_roster_order
    (strategy : S) (options : Options) (calls : list (Z * Op))
    (exclude : list string) (providers : list Provider) (now : Z) :
  let reached := run (create strategy options) calls in
  let refreshed := snd (getAvailableProviders reached (Resolves providers) now) in
  let fallbacks :=
    fst (getFallbackProviders reached exclude (Resolves providers) now) in
  fallbacks
  = List.filter
      (fun p => negb (existsb (String.eqb (id p)) exclude) && usable refreshed p)
      providers /\
  (forall p, In p fallbacks ->
     In p providers /\ status p = available /\ ~ In (id p) exclude /\
     failures_of refreshed p = 0).
Proof.
  intros reached refreshed fallbacks.
  assert (Hok : health_ok (providerHealth refreshed)).
  { apply getAvailableProviders_ok, run_ok, create_ok. }
  assert (Hzero : forall p,
     In p (List.filter
             (fun p => negb (existsb (String.eqb (id p)) exclude) &&
                       usable refreshed p) providers) ->
     failures_of refreshed p = 0).
  { intros p Hin. apply filter_In in Hin as [_ Hpred].
    apply andb_true_iff in Hpred as [_ Huse].
    now apply usable_has_no_failures. }
  assert (Heq : fallbacks
    = List.filter
        (fun p => negb (existsb (String.eqb (id p)) exclude) &&
                  usable refreshed p) providers).
  { subst fallbacks refreshed. unfold getFallbackProviders.
    destruct (getAvailableProviders reached (Resolves providers) now)
      as [roster this'] eqn:Hget.
    assert (roster = providers) by (simpl in Hget; congruence). subst roster.
    cbn [fst snd] in *. now apply (sort_by_same_key _ _ 0). }
  split; [exact Heq|].
  intros p Hin. rewrite Heq in Hin. pose proof (Hzero p Hin) as Hz.
  apply filter_In in Hin as [Hin Hpred].
  apply andb_true_iff in Hpred as [Hex Huse].
  unfold usable in Huse. apply andb_true_iff in Huse as [Hav _].
  apply is_available_true in Hav.
  repeat split; try assumption.
  intros Hexcl. apply negb_true_iff in Hex.
  assert (existsb (String.eqb (id p)) exclude = true); [|congruence].
  apply existsb_exists. exists (id p). split; [exact Hexcl|].
  apply String.eqb_refl.
Qed.

Lemma same_id_same_provider (l : list Provider) (p q : Provider) :
  List.NoDup (List.map id l) -> In p l -> In q l -> id p = id q -> p = q.
Proof.
  induction l as [|a l IH]; simpl; [intros _ []|].
  intros Hnd [->|Hp] [->|Hq] Hid;
    inversion Hnd as [|? ? Hnot Hnd']; subst.
  - reflexivity.
  - exfalso. apply Hnot. rewrite Hid. now apply in_map.
  - exfalso. apply Hnot. rewrite <- Hid. now apply in_map.
  - now apply IH.
Qed.

(** X29. With a preferred id given, a roster with distinct ids and a
    positive threshold, [selectProvider] returns the preferred provider
    directly, leaving the strategy object as it was, exactly when the
    roster lists that id with status available.  The health record the
    manager held for the id before the call plays no part: after the
    call's roster read the providers that pass the usability filter are
    the providers the roster lists as available, and when the preferred
    id is not among them the call goes on to the strategy. *)
Theorem preferred_bypass_ignores_health this (wanted : string)
    (providers : list Provider) (now : Z) :
  wanted <> "" -> List.NoDup (List.map id providers) ->
  0 < maxConsecutiveFailures this ->
  let refreshed := snd (getAvailableProviders this (Resolves providers) now) in
  let outcome := selectProvider this (Some wanted) (Resolves providers) now in
  let listed :=
    exists p, In p providers /\ id p = wanted /\ status p = available in
  (snd outcome = [UsingPreferred wanted] <-> listed) /\
  (forall p, In p providers -> id p = wanted -> status p = available ->
     outcome = (Some p, refreshed, [UsingPreferred wanted]) /\
     selectionStrategy refreshed = selectionStrategy this) /\
  (~ listed ->
   outcome
   = select_by_strategy refreshed providers [PreferredFallback wanted]) /\
  List.filter (usable refreshed) providers
  = List.filter is_available providers.
Proof.
  intros Hgiven Hnd Hmax refreshed outcome listed.
  pose proof (getAvailableProviders_strategy this (Resolves providers) now)
    as [Hstrat _]. fold refreshed in Hstrat.
  assert (Huse : forall p, In p providers -> status p = available ->
                   usable refreshed p = true).
  { intros p Hin Hav.
    now apply roster_read_makes_available_usable. }
  assert (Hout : outcome =
    match List.find (fun p => has_id wanted p && is_available p &&
                              isProviderHealthy refreshed wanted) providers with
    | Some preferred => (Some preferred, refreshed, [UsingPreferred wanted])
    | None => select_by_strategy refreshed providers [PreferredFallback wanted]
    end).
  { exact (selectProvider_preferred this wanted (Resolves providers) now
             Hgiven). }
  assert (Hpred : forall p, In p providers -> id p = wanted ->
                    status p = available ->
                    has_id wanted p && is_available p &&
                    isProviderHealthy refreshed wanted = true).
  { intros p Hin Hid Hav. pose proof (Huse p Hin Hav) as Hu.
    unfold usable in Hu. apply andb_true_iff in Hu as [Ha Hh].
    rewrite Hid in Hh. rewrite Ha, Hh.
    apply has_id_true in Hid. now rewrite Hid. }
  split; [|split; [|split]].
  - rewrite Hout.
    destruct (List.find _ providers) as [preferred|] eqn:Hfind.
    + split; [|reflexivity]. intros _.
      apply find_some in Hfind as [Hin Hp].
      apply andb_true_iff in Hp as [Hp _].
      apply andb_true_iff in Hp as [Hid Hav].
      apply has_id_true in Hid. apply is_available_true in Hav.
      exists preferred. auto.
    + split.
      * intros Hlog. now apply fallback_is_logged in Hlog.
      * intros (p & Hin & Hid & Hav).
        pose proof (find_none _ _ Hfind p Hin) as Hno. simpl in Hno.
        rewrite (Hpred p Hin Hid Hav) in Hno. discriminate.
  - intros p Hin Hid Hav. split; [|exact Hstrat]. rewrite Hout.
    destruct (List.find _ providers) as [preferred|] eqn:Hfind.
    + apply find_some in Hfind as [Hin' Hp].
      apply andb_true_iff in Hp as [Hp _].
      apply andb_true_iff in Hp as [Hid' _].
      apply has_id_true in Hid'.
      rewrite (same_id_same_provider providers preferred p Hnd Hin' Hin)
        by congruence.
      reflexivity.
    + pose proof (find_none _ _ Hfind p Hin) as Hno. simpl in Hno.
      rewrite (Hpred p Hin Hid Hav) in Hno. discriminate.
  - intros Hno. rewrite Hout.
    destruct (List.find _ providers) as [preferred|] eqn:Hfind;
      [|reflexivity].
    exfalso. apply Hno. apply find_some in Hfind as [Hin Hp].
    apply andb_true_iff in Hp as [Hp _].
    apply andb_true_iff in Hp as [Hid Hav].
    apply has_id_true in Hid. apply is_available_true in Hav.
    exists preferred. auto.
  - apply filter_ext_in. intros p Hin. unfold usable.
    destruct (is_available p) eqn:Ha; [|reflexivity]. simpl.
    apply is_available_true in Ha. pose proof (Huse p Hin Ha) as Hu.
    unfold usable in Hu. now apply andb_true_iff in Hu as [_ Hh].
Qed.

End ManagerFacts.

Section ProbeFacts.

Import ProviderManager Spec.
Context {S : Type} `{ProviderSelectionStrategy S}.

Implicit Types (this : t S).

#[local] Arguments updateProviderHealth : simpl never.





Lemma probe_lookup_other this providerId reply now other :
  providerId <> other ->
  providerHealth (snd (testProviderHealth this providerId reply now)) !! other
  = providerHealth this !! other.
Proof.
  intros Hne. unfold testProviderHealth. cbn [snd].
  destruct reply; rewrite update_lookup;
    destruct (decide (providerId = other)); congruence.
Qed.

Lemma probe_depends_on_own_record (a b : t S) providerId reply now :
  providerHealth a !! providerId = providerHealth b !! providerId ->
  fst (testProviderHealth a providerId reply now)
  = fst (testProviderHealth b providerId reply now).
Proof.
  intros Hsame. unfold testProviderHealth. cbn [fst].
  destruct reply; rewrite !update_lookup;
    destruct (decide (providerId = providerId)); try contradiction;
    unfold failures; now rewrite Hsame.
Qed.

Lemma sweep_untouched (providers : list Provider) this probe now providerId :
  ~ In providerId (List.map id providers) ->
  providerHealth
    (fold_left
       (fun acc p => snd (testProviderHealth acc (id p) (probe p) now))
       providers this) !! providerId
  = providerHealth this !! providerId.
Proof.
  revert this. induction providers as [|p l IH]; intros this Hnot;
    [reflexivity|].
  cbn [fold_left List.map In] in *. rewrite IH by tauto.
  apply probe_lookup_other. tauto.
Qed.

(** X9. A health sweep over a roster with distinct ids records each probe
    on its own: after the sweep the record of a listed provider is the one
    a lone [testProviderHealth] of it would have returned before the sweep,
    and the record of a provider that is not listed is what it was.  If
    the roster call rejects, the sweep changes nothing. *)
Theorem sweep_records_each_probe this (providers : list Provider)
    (probe : Provider -> Completion G4FService.TestResult) (now : Z) :
  List.NoDup (List.map id providers) ->
  (forall p, In p providers ->
     providerHealth (performHealthCheck this (Resolves providers) probe now)
     !! id p
     = fst (testProviderHealth this (id p) (probe p) now)) /\
  (forall providerId, ~ In providerId (List.map id providers) ->
     providerHealth (performHealthCheck this (Resolves providers) probe now)
     !! providerId
     = providerHealth this !! providerId) /\
  (forall reason, performHealthCheck this (Rejects reason) probe now = this).
Proof.
  intros Hnd. split; [|split; [|reflexivity]].
  - unfold performHealthCheck.
    revert this. induction providers as [|q l IH]; intros this p Hin;
      [contradiction|].
    simpl in Hnd. inversion Hnd as [|? ? Hq Hl]; subst.
    destruct Hin as [->|Hin]; cbn [fold_left].
    + now rewrite sweep_untouched by assumption.
    + rewrite IH by assumption. apply probe_depends_on_own_record.
      apply probe_lookup_other. intros Heq. apply Hq. rewrite Heq.
      now apply in_map.
  - intros providerId Hnot. now apply sweep_untouched.
Qed.

Lemma sum_failures_from (l : list ProviderHealthStatus) (start : Z) :
  fold_left (fun sum h => sum + consecutiveFailures h) l start
  = start + fold_left (fun sum h => sum + consecutiveFailures h) l 0.
Proof.
  revert start. induction l as [|h l IH]; intros start; simpl; [lia|].
  rewrite IH, (IH (0 + consecutiveFailures h)). lia.
Qed.

Lemma unhealthy_counted (l : list ProviderHealthStatus) :
  List.Forall record_ok l ->
  let healthy := Z.of_nat (length (List.filter isHealthy l)) in
  let total := Z.of_nat (length l) in
  let failures := fold_left (fun sum h => sum + consecutiveFailures h) l 0 in
  0 <= healthy <= total /\ total - healthy <= failures /\
  (failures = 0 <-> total - healthy = 0).
Proof.
  induction 1 as [|h l [Ht Hf] Hall IH]; cbv zeta in *; simpl; [lia|].
  rewrite sum_failures_from.
  destruct (isHealthy h); simpl length.
  - destruct (Ht eq_refl) as [-> _]. lia.
  - specialize (Hf eq_refl). lia.
Qed.

(** X10. The statistics of every state the manager reaches: the total is
    the number of records, healthy and unhealthy counts are not negative
    and add up to it, the sum of the failure counters is at least the
    number of unhealthy providers and is zero exactly when none is
    unhealthy; the average is the number 0 exactly when there is no
    record, and so is the absence of a last check. *)
Theorem statistics_are_consistent (parseDate : string -> Z)
    (strategy : S) (options : Options) (calls : list (Z * Op)) :
  let reached := run (create strategy options) calls in
  let stats := getStatistics parseDate reached in
  totalProviders stats = Z.of_nat (size (providerHealth reached)) /\
  0 <= healthyProviders stats /\ 0 <= unhealthyProviders stats /\
  healthyProviders stats + unhealthyProviders stats = totalProviders stats /\
  match averageConsecutiveFailures stats with
  | Zero => providerHealth reached = ∅ /\ lastHealthCheck stats = None
  | Quotient totalFailures count =>
      count = totalProviders stats /\ 0 < count /\
      unhealthyProviders stats <= totalFailures /\
      (totalFailures = 0 <-> unhealthyProviders stats = 0) /\
      lastHealthCheck stats <> None
  end.
Proof.
  intros reached stats. subst stats. unfold getStatistics, statistics_of.
  set (l := (map_to_list (providerHealth reached)).*2).
  assert (Hall : List.Forall record_ok l).
  { apply List.Forall_forall. intros h Hin.
    apply list_elem_of_In, list_elem_of_fmap in Hin as ([k h'] & -> & Hin).
    apply elem_of_map_to_list in Hin.
    exact (run_ok _ calls (create_ok strategy options) _ _ Hin). }
  assert (Hlen : length l = size (providerHealth reached)).
  { subst l. now rewrite length_fmap, length_map_to_list. }
  pose proof (unhealthy_counted l Hall) as (Hh & Hu & Hz). cbv zeta in *.
  cbn [totalProviders healthyProviders unhealthyProviders
       averageConsecutiveFailures lastHealthCheck].
  rewrite <- Hlen. split; [reflexivity|].
  split; [lia|]. split; [lia|]. split; [lia|].
  destruct (Z.ltb_spec 0 (Z.of_nat (length l))) as [Hpos|Hzero].
  - split; [reflexivity|]. split; [exact Hpos|]. split; [exact Hu|].
    split; [exact Hz|]. destruct l; [simpl in Hpos; lia|discriminate].
  - assert (Hnil : l = []) by (destruct l; [reflexivity|simpl in Hzero; lia]).
    split; [|now rewrite Hnil].
    apply map_size_empty_iff. rewrite Hnil in Hlen. simpl in Hlen. lia.
Qed.

End ProbeFacts.

(** ** Registry client *)

Section CacheFacts.

Import G4FService.

(** A [GET /providers] that does not yield a roster: rejected, or answered
    without the success flag. *)
Lemma fetch_failure_cases (get : GetOutcome) :
  (forall data, get = GetResolved data -> ps_success data = false) ->
  forall (this : t) (now now' : Z),
    getAvailableProviders this now get now'
    = (providersCache this, this,
       if (0 <? length (providersCache this))%nat && (now <? cacheExpiry this)
       then [] else [HttpGet "/providers"]).
Proof.
  intros Hfail this now now'. unfold getAvailableProviders, stale_or_empty.
  destruct ((0 <? length (providersCache this))%nat && (now <? cacheExpiry this))
    eqn:Hhit; [reflexivity|].
  assert (Hstale : (if (0 <? length (providersCache this))%nat
                    then providersCache this else []) = providersCache this).
  { destruct (providersCache this); reflexivity. }
  destruct get as [data|e]; [rewrite (Hfail data eq_refl)|]; now rewrite Hstale.
Qed.

(** X11. A fetch that fails -- the request is rejected, or the reply does
    not say success -- never changes the cache or its expiry, and the call
    returns the cached roster as it is, expired or not (the empty list
    when nothing was cached). *)
Theorem failed_fetch_keeps_cache (this : t) (now : Z) (get : GetOutcome)
    (now' : Z) :
  (forall data, get = GetResolved data -> ps_success data = false) ->
  fst (getAvailableProviders this now get now') = (providersCache this, this).
Proof.
  intros Hfail. now rewrite (fetch_failure_cases get Hfail).
Qed.

(** The stale-cache test of the service: the cache expired at 301001, the
    request at 400000 is rejected, the roster cached before is returned. *)
Lemma failed_fetch_keeps_cache_witness :
  let cached :=
    snd (fst (getAvailableProviders (create None) 1000
                (GetResolved Sample.oneRoster) 1001)) in
  fst (getAvailableProviders cached 400000
         (GetRejected (new_Error "Network error")) 400001)
  = (List.map convert (ps_providers Sample.oneRoster), cached).
Proof.
  intros cached.
  apply (failed_fetch_keeps_cache cached 400000
           (GetRejected (new_Error "Network error")) 400001).
  intros data Heq. discriminate.
Defined.

(** X12. Every call returns exactly what the cache holds when the call is
    over, and sends at most one request: none when the cache is not empty
    and not expired, one otherwise. *)
Theorem roster_is_the_cache (this : t) (now : Z) (get : GetOutcome) (now' : Z) :
  let call := getAvailableProviders this now get now' in
  fst (fst call) = providersCache (snd (fst call)) /\
  fetches (snd call)
  = (if (0 <? length (providersCache this))%nat && (now <? cacheExpiry this)
     then 0%nat else 1%nat) /\
  snd call
  = (if (0 <? length (providersCache this))%nat && (now <? cacheExpiry this)
     then [] else [HttpGet "/providers"]).
Proof.
  unfold getAvailableProviders, stale_or_empty.
  destruct ((0 <? length (providersCache this))%nat && (now <? cacheExpiry this));
    [auto|].
  destruct get as [data|e]; [destruct (ps_success data)|];
    cbn [fst snd providersCache]; repeat split;
    destruct (providersCache this); reflexivity.
Qed.

Lemma cache_step_known (this : t) (call : CacheCall) :
  List.Forall (fun p => status p <> unknown) (providersCache this) ->
  List.Forall (fun p => status p <> unknown) (providersCache (cache_step this call)).
Proof.
  intros Hok. destruct call as [now get now'|]; [|constructor].
  unfold cache_step, getAvailableProviders, stale_or_empty.
  destruct ((0 <? length (providersCache this))%nat && (now <? cacheExpiry this));
    [exact Hok|].
  destruct get as [data|e]; [destruct (ps_success data)|]; cbn [fst snd];
    try exact Hok.
  cbn [providersCache]. apply List.Forall_forall. intros p Hin.
  apply in_map_iff in Hin as (r & <- & _). simpl.
  unfold mapProviderStatus.
  destruct (String.eqb (r_status r) "available"); [discriminate|].
  destruct (String.eqb (r_status r) "rate_limited"); discriminate.
Qed.

(** X13. The status [unknown] never passes the registry client: in every
    state the service reaches from its construction by roster calls and
    cache clearings, no cached provider has it, and neither has a provider
    of any roster a call returns. *)
Theorem unknown_status_never_surfaces (env_url : option string)
    (calls : list CacheCall) (now : Z) (get : GetOutcome) (now' : Z)
    (p : Provider) :
  let reached := cache_run (create env_url) calls in
  In p (providersCache reached) \/
  In p (fst (fst (getAvailableProviders reached now get now'))) ->
  status p <> unknown.
Proof.
  intros reached.
  assert (Hreached : forall this l,
    List.Forall (fun p => status p <> unknown) (providersCache this) ->
    List.Forall (fun p => status p <> unknown)
      (providersCache (cache_run this l))).
  { intros this l. revert this.
    induction l as [|c l IH]; intros this Hok; [exact Hok|].
    simpl. apply IH. now apply cache_step_known. }
  assert (Hok : List.Forall (fun p => status p <> unknown)
                  (providersCache reached)).
  { apply Hreached. constructor. }
  intros [Hin|Hin].
  - exact (proj1 (List.Forall_forall _ _) Hok p Hin).
  - destruct (roster_is_the_cache reached now get now') as (Heq & _).
    rewrite Heq in Hin.
    pose proof (cache_step_known reached (Fetch now get now') Hok) as Hnext.
    exact (proj1 (List.Forall_forall _ _) Hnext p Hin).
Qed.

(** A registry that reports [unknown]: the roster shows [unavailable]. *)
Lemma unknown_status_never_surfaces_witness :
  let reply :=
    GetResolved
      {| ps_success := true;
         ps_providers :=
           [ {| r_id := "you"; r_name := "You.com"; r_status := "unknown";
                r_last_checked := "2023-01-01T00:00:00Z";
                r_model := None; r_error_message := None |} ];
         ps_count := 1 |} in
  let listed :=
    {| id := "you"; name := "You.com"; status := unavailable;
       lastChecked := DateParsed "2023-01-01T00:00:00Z"; model := None |} in
  In listed (fst (fst (getAvailableProviders (create None) 1000 reply 1001))) /\
  status listed <> unknown.
Proof.
  intros reply listed.
  assert (Hin : In listed
                  (fst (fst (getAvailableProviders (create None) 1000
                               reply 1001)))) by (now left).
  split; [exact Hin|].
  apply (unknown_status_never_surfaces None [] 1000 reply 1001 listed).
  right. exact Hin.
Defined.

(** X14. [getCacheStatus] and [getAvailableProviders] agree: a roster call
    is served without a request exactly when the status, read at the same
    clock reading, shows a cache that is not empty and not expired.  After
    [clearCache] the status shows nothing cached and no expiry, and the
    next roster call sends a request. *)
Theorem cache_status_agrees (this : t) (now : Z) (get : GetOutcome) (now' : Z) :
  (fetches (snd (getAvailableProviders this now get now')) = 0%nat <->
   (0 < cached (getCacheStatus this now))%nat /\
   isExpired (getCacheStatus this now) = false) /\
  cached (getCacheStatus (clearCache this) now) = 0%nat /\
  expiresAt (getCacheStatus (clearCache this) now) = None /\
  fetches (snd (getAvailableProviders (clearCache this) now get now')) = 1%nat.
Proof.
  split; [|split; [reflexivity|split; [reflexivity|]]].
  - destruct (roster_is_the_cache this now get now') as (_ & -> & _).
    unfold getCacheStatus. cbn [cached isExpired].
    rewrite Z.leb_gt, <- Nat.ltb_lt, <- Z.ltb_lt.
    destruct (0 <? length (providersCache this))%nat;
      destruct (now <? cacheExpiry this); simpl; intuition congruence.
  - now destruct (roster_is_the_cache (clearCache this) now get now')
      as (_ & -> & _).
Qed.

End CacheFacts.

(** ** Dispatch: back-off and exhaustion *)

Section BackoffFacts.

(** The unrolling lemma of the loop, named before the service's module is
    opened. *)
Let loop_unrolled := retry_loop_unfold.

Import G4FService Spec.

Lemma retry_loop_trace (this : t) (post : nat -> PostOutcome)
    (payload : Payload) (fuel a : nat) (last : option JsError) :
  (maxRetries this - a = fuel)%nat -> (a <= maxRetries this)%nat ->
  snd (retry_loop this post payload a last)
  = backoff_trace this payload a
      (attempts (snd (retry_loop this post payload a last))).
Proof.
  revert a last. induction fuel as [|fuel IH]; intros a last Hfuel Hle;
    rewrite (loop_unrolled this post payload a last);
    (replace (a <=? maxRetries this)%nat with true
      by (symmetry; now apply Nat.leb_le));
    destruct (attempt_step this a (post a)) as [data|e ms|e|thrown] eqn:Hstep;
    try reflexivity.
  - apply attempt_step_continue in Hstep as (_ & _ & Hlt & _). lia.
  - apply attempt_step_continue in Hstep as (_ & _ & Hlt & ->).
    pose proof (retry_loop_shape this post payload fuel (Datatypes.S a) (Some e)
                  ltac:(lia) ltac:(lia)) as (Hn & _).
    cbv zeta in Hn.
    pose proof (IH (Datatypes.S a) (Some e) ltac:(lia) ltac:(lia)) as IHr.
    set (r := retry_loop this post payload (Datatypes.S a) (Some e)) in *.
    cbv zeta. cbn [fst snd].
    change (attempts (HttpPost "/chat" payload
                      :: Sleep (retryDelay this * Z.of_nat a) :: snd r))
      with (Datatypes.S (attempts (snd r))).
    unfold backoff_trace in *.
    replace (Datatypes.S (attempts (snd r)) - 1)%nat
      with (Datatypes.S (attempts (snd r) - 1)) by lia.
    cbn [seq flat_map app]. rewrite <- IHr. reflexivity.
Qed.

Variables (env_url : option string) (post : nat -> PostOutcome)
          (nowIso text : string) (to model : option string).

(** X15. The events of a dispatch are the attempts with the back-off
    delays between them: each attempt but the last is followed by a pause
    of [1000 * k] milliseconds after attempt [k], the same payload is
    posted every time, and nothing follows the last attempt.  So a
    dispatch pauses for one second, then for two, and never longer. *)
Theorem dispatch_backs_off :
  let outcome := sendToProvider (create env_url) post nowIso text to model in
  let payload :=
    {| pl_message := text; pl_provider := to;
       pl_model := default "gpt-3.5-turbo" model |} in
  snd outcome
  = flat_map
      (fun k => [HttpPost "/chat" payload; Sleep (1000 * Z.of_nat k)])
      (seq 1 (attempts (snd outcome) - 1))
    ++ [HttpPost "/chat" payload] /\
  (snd outcome = [HttpPost "/chat" payload] \/
   snd outcome
   = [HttpPost "/chat" payload; Sleep 1000; HttpPost "/chat" payload] \/
   snd outcome
   = [HttpPost "/chat" payload; Sleep 1000; HttpPost "/chat" payload;
      Sleep 2000; HttpPost "/chat" payload]).
Proof.
  intros outcome payload.
  pose proof (sendToProvider_shape env_url post nowIso text to model)
    as ([Hlo Hhi] & _). fold outcome in Hlo, Hhi.
  assert (Htrace : snd outcome
    = backoff_trace (create env_url) payload 1 (attempts (snd outcome))).
  { subst outcome. unfold sendToProvider. fold payload.
    pose proof (retry_loop_trace (create env_url) post payload 2 1 None
                  eq_refl ltac:(simpl; lia)) as Ht.
    destruct (fst (retry_loop (create env_url) post payload 1 None))
      as [d|[l|]|thrown]; exact Ht. }
  split; [exact Htrace|].
  rewrite Htrace.
  assert (attempts (snd outcome) = 1 \/ attempts (snd outcome) = 2 \/
          attempts (snd outcome) = 3)%nat as [-> | [-> | ->]] by lia;
    auto.
Qed.

(** X16. A reply that says success on the first attempt ends the dispatch
    at once, with that reply as the result.  When the first two attempts
    fail with retryable errors and the third fails too, the dispatch ends
    after exactly three attempts, whatever the third error is: with a
    failure result that carries the error of the third when the [error]
    field of its response body is absent or a string, and by rejecting
    with the [TypeError] of the classification when that field holds any
    other value. *)
Theorem dispatch_first_success_and_exhaustion :
  let outcome := sendToProvider (create env_url) post nowIso text to model in
  (forall data,
     post 1%nat = PostResolved data -> success data = true ->
     fst outcome = Resolves data /\ attempts (snd outcome) = 1%nat) /\
  (forall e1 e2 e3,
     try_post (post 1%nat) = inr e1 -> retryable e1 = true ->
     try_post (post 2%nat) = inr e2 -> retryable e2 = true ->
     try_post (post 3%nat) = inr e3 ->
     attempts (snd outcome) = 3%nat /\
     (response_error e3 = None \/
      (exists b, response_error e3 = Some (Text b)) ->
      fst outcome
      = Resolves {| success := false;
                    message := None;
                    error := Some (getErrorMessage e3);
                    provider := to;
                    timestamp := Some nowIso |}) /\
     ((exists truthy shown, response_error e3 = Some (NotText truthy shown)) ->
      fst outcome
      = Rejects
          (Some "error.response?.data?.error?.toLowerCase is not a function"))).
Proof.
  intros outcome.
  pose proof (sendToProvider_shape env_url post nowIso text to model)
    as (Hn & Hretry & Hlast).
  fold outcome in Hn, Hretry, Hlast.
  set (n := attempts (snd outcome)) in *.
  assert (Hretryable : forall k e, (k < 3)%nat ->
            try_post (post k) = inr e -> retryable e = true ->
            exists ms, attempt_step (create env_url) k (post k) = Continue e ms).
  { intros k e Hk Htry Hwhy.
    unfold attempt_step, on_catch, connection_check.
    unfold retryable in Hwhy. rewrite Htry. simpl maxRetries.
    replace (k <? 3)%nat with true by (symmetry; now apply Nat.ltb_lt).
    destruct (isRateLimitError e) as [[|]|thrown]; [eauto| |discriminate].
    simpl in Hwhy. rewrite Hwhy. eauto. }
  split.
  - intros data Hpost Hok.
    assert (Hs1 : attempt_step (create env_url) 1 (post 1%nat) = Return data).
    { unfold attempt_step, try_post. now rewrite Hpost, Hok. }
    assert (Hn1 : n = 1%nat).
    { destruct (Nat.eq_dec n 1%nat) as [|Hne]; [assumption|].
      destruct (Hretry 1%nat ltac:(lia) ltac:(lia)) as (e' & ms & Hstep).
      congruence. }
    rewrite Hn1 in Hlast. split; [|exact Hn1].
    destruct Hlast as [(d & Hstep & Hfst)|
                       [(e' & Hstep & _)|(thrown & Hstep & _)]];
      congruence.
  - intros e1 e2 e3 H1 Hw1 H2 Hw2 H3.
    destruct (Hretryable 1%nat e1 ltac:(lia) H1 Hw1) as (ms1 & Hs1).
    destruct (Hretryable 2%nat e2 ltac:(lia) H2 Hw2) as (ms2 & Hs2).
    assert (Hs3 : attempt_step (create env_url) 3 (post 3%nat)
                  = match isRateLimitError e3 with
                    | Returns _ => Break e3
                    | Throws thrown => Throw thrown
                    end).
    { unfold attempt_step, on_catch, connection_check. rewrite H3.
      simpl maxRetries. simpl Nat.ltb.
      destruct (isRateLimitError e3) as [[|]|thrown];
        destruct (isConnectionError e3); reflexivity. }
    assert (Hn3 : n = 3%nat).
    { assert (n = 1 \/ n = 2 \/ n = 3)%nat as [Hv | [Hv | Hv]] by lia;
        [| |exact Hv]; rewrite Hv in Hlast;
        destruct Hlast as [(d & Hstep & _)|
                           [(e & Hstep & _)|(thrown & Hstep & _)]];
        congruence. }
    split; [exact Hn3|]. rewrite Hn3 in Hlast. split.
    + intros Htyped. apply isRateLimitError_returns in Htyped as (rate & Hrate).
      rewrite Hrate in Hs3.
      destruct Hlast as [(d & Hstep & _)|
                         [(e & Hstep & Hfst)|(thrown & Hstep & _)]];
        [congruence| |congruence].
      rewrite Hs3 in Hstep. injection Hstep as <-. exact Hfst.
    + intros Hother.
      assert (Hthrows : isRateLimitError e3
                = Throws
                    "error.response?.data?.error?.toLowerCase is not a function").
      { apply isRateLimitError_throws. auto. }
      rewrite Hthrows in Hs3.
      destruct Hlast as [(d & Hstep & _)|
                         [(e & Hstep & _)|(thrown & Hstep & Hfst)]];
        [congruence|congruence|].
      rewrite Hs3 in Hstep. injection Hstep as <-. exact Hfst.
Qed.

(** X27. A dispatch makes at least one and at most three [POST /chat]
    attempts, and an attempt is followed by another only when the
    classification of its failure ended normally and found a rate limit or
    a connection failure.  Two failures classified as rate-limited
    followed by a success give the successful reply after exactly three
    attempts; a first failure classified as neither gives a failure result
    after exactly one attempt; a first failure on which the classification
    throws makes the dispatch reject after exactly one attempt. *)
Theorem retries_follow_the_classifier :
  let outcome := sendToProvider (create env_url) post nowIso text to model in
  let n := attempts (snd outcome) in
  (1 <= n <= 3)%nat /\
  (forall k, (1 <= k)%nat -> (k < n)%nat ->
     exists e, try_post (post k) = inr e /\ retryable e = true) /\
  (forall e1 e2 data,
     try_post (post 1%nat) = inr e1 -> isRateLimitError e1 = Returns true ->
     try_post (post 2%nat) = inr e2 -> isRateLimitError e2 = Returns true ->
     try_post (post 3%nat) = inl data ->
     fst outcome = Resolves data /\ success data = true /\ n = 3%nat) /\
  (forall e,
     try_post (post 1%nat) = inr e ->
     isRateLimitError e = Returns false -> isConnectionError e = false ->
     n = 1%nat /\
     fst outcome
     = Resolves {| success := false;
                   message := None;
                   error := Some (getErrorMessage e);
                   provider := to;
                   timestamp := Some nowIso |}) /\
  (forall e thrown,
     try_post (post 1%nat) = inr e -> isRateLimitError e = Throws thrown ->
     n = 1%nat /\ fst outcome = Rejects (Some thrown)).
Proof.
  intros outcome n.
  destruct (sendToProvider_shape env_url post nowIso text to model)
    as (Hn & Hretry & Hlast).
  fold outcome in Hn, Hretry, Hlast. fold n in Hn, Hretry, Hlast.
  assert (Hfirst : forall step,
            attempt_step (create env_url) 1 (post 1%nat) = step ->
            (forall e ms, step <> Continue e ms) -> n = 1%nat).
  { intros step Hstep Hstop.
    destruct (Nat.eq_dec n 1%nat) as [|Hne]; [assumption|].
    destruct (Hretry 1%nat ltac:(lia) ltac:(lia)) as (e' & ms & Hcont).
    rewrite Hcont in Hstep. subst step. now destruct (Hstop e' ms). }
  split; [exact Hn|]. split; [|split; [|split]].
  - intros k Hk Hk'. destruct (Hretry k Hk Hk') as (e & ms & Hstep).
    apply attempt_step_continue in Hstep as (Htry & Hwhy & _). eauto.
  - intros e1 e2 data H1 Hr1 H2 Hr2 H3.
    assert (Hs1 : attempt_step (create env_url) 1 (post 1%nat)
                  = Continue e1 1000).
    { unfold attempt_step, on_catch. rewrite H1, Hr1. reflexivity. }
    assert (Hs2 : attempt_step (create env_url) 2 (post 2%nat)
                  = Continue e2 2000).
    { unfold attempt_step, on_catch. rewrite H2, Hr2. reflexivity. }
    assert (Hs3 : attempt_step (create env_url) 3 (post 3%nat) = Return data).
    { unfold attempt_step. rewrite H3. reflexivity. }
    assert (Hn3 : n = 3%nat).
    { assert (n = 1 \/ n = 2 \/ n = 3)%nat as [Hv | [Hv | Hv]] by lia;
        [| |exact Hv]; rewrite Hv in Hlast;
        destruct Hlast as [(d & Hstep & _)|
                           [(e & Hstep & _)|(thrown & Hstep & _)]];
        congruence. }
    rewrite Hn3 in Hlast.
    destruct Hlast as [(d & Hstep & Hfst)|
                       [(e & Hstep & _)|(thrown & Hstep & _)]];
      [|congruence|congruence].
    rewrite Hs3 in Hstep. injection Hstep as <-.
    apply attempt_step_return in Hs3 as [_ Hok]. auto.
  - intros e H1 Hrate Hconn.
    assert (Hs1 : attempt_step (create env_url) 1 (post 1%nat) = Break e).
    { unfold attempt_step, on_catch, connection_check.
      rewrite H1, Hrate, Hconn. reflexivity. }
    assert (Hn1 : n = 1%nat) by (apply (Hfirst _ Hs1); discriminate).
    rewrite Hn1 in Hlast. split; [exact Hn1|].
    destruct Hlast as [(d & Hstep & _)|
                       [(e' & Hstep & Hfst)|(thrown & Hstep & _)]];
      [congruence| |congruence].
    rewrite Hs1 in Hstep. injection Hstep as <-. exact Hfst.
  - intros e thrown H1 Hthrows.
    assert (Hs1 : attempt_step (create env_url) 1 (post 1%nat)
                  = Throw thrown).
    { unfold attempt_step, on_catch. rewrite H1, Hthrows. reflexivity. }
    assert (Hn1 : n = 1%nat) by (apply (Hfirst _ Hs1); discriminate).
    rewrite Hn1 in Hlast. split; [exact Hn1|].
    destruct Hlast as [(d & Hstep & _)|
                       [(e' & Hstep & _)|(thrown' & Hstep & Hfst)]];
      [congruence|congruence|].
    rewrite Hs1 in Hstep. injection Hstep as <-. exact Hfst.
Qed.

(** X28. How a dispatch settles is decided by its last attempt.  It
    resolves with the remote reply when that says success.  It resolves
    with a failure result that carries the requested provider, a timestamp
    and an error string when the last attempt is a reply that says
    failure (the string is the reply's [error], or a generic text when it
    has none) or a rejected request whose response body has no [error]
    field or a string there (the string is that field, else the
    rejection's message, else a generic text).  It rejects, with a
    [TypeError], exactly when the last attempt is a rejected request whose
    response body holds a value that is not a string in its [error]
    field. *)
Theorem dispatch_settles_by_last_attempt :
  let outcome := sendToProvider (create env_url) post nowIso text to model in
  let n := attempts (snd outcome) in
  (exists r,
     fst outcome = Resolves r /\
     ((success r = true /\ post n = PostResolved r) \/
      (success r = false /\ message r = None /\ provider r = to /\
       timestamp r = Some nowIso /\
       ((exists data,
           post n = PostResolved data /\ success data = false /\
           error r
           = Some (JS.or_string (error data)
                     "Unknown error from G4F service")) \/
        (exists e,
           post n = PostRejected e /\
           (response_error e = None \/
            exists b, response_error e = Some (Text b)) /\
           error r
           = Some (JS.or_string (text_of (response_error e))
                     (JS.or_string (err_message e)
                        "Unknown error occurred"))))))) \/
  (exists e truthy shown,
     post n = PostRejected e /\
     response_error e = Some (NotText truthy shown) /\
     fst outcome
     = Rejects
         (Some "error.response?.data?.error?.toLowerCase is not a function")).
Proof.
  intros outcome n.
  destruct (sendToProvider_shape env_url post nowIso text to model)
    as (_ & _ & Hlast).
  fold outcome in Hlast. fold n in Hlast.
  destruct Hlast as [(data & Hstep & Hfst)|
                     [(e & Hstep & Hfst)|(thrown & Hstep & Hfst)]].
  - left. exists data. split; [exact Hfst|]. left.
    apply attempt_step_return in Hstep as [Hpost Hok]. auto.
  - left. eexists. split; [exact Hfst|]. right. simpl.
    repeat (split; [reflexivity|]).
    apply attempt_step_break in Hstep as (Htry & (rate & Hrate) & _).
    destruct (caught_message _ _ Htry)
      as [(data & Hpost & Hfail & Hmsg)|(rejected & Hpost & ->)].
    + left. exists data. rewrite Hmsg. auto.
    + right. exists rejected. split; [exact Hpost|]. split.
      * apply isRateLimitError_returns. eauto.
      * f_equal. exact (getErrorMessage_priority _ _ Hrate).
  - right. apply attempt_step_throw in Hstep as (e & Htry & Hthrows).
    pose proof (throwing_attempt_was_rejected _ _ _ Htry Hthrows) as Hpost.
    apply isRateLimitError_throws in Hthrows as (-> & truthy & shown & Hv).
    exists e, truthy, shown. auto.
Qed.

End BackoffFacts.

Module DispatchFacts.

Import G4FService.

(** The retry tests of the service's suite: a rate limit on every attempt,
    and a refused connection followed by a success on the first attempt of
    another dispatch. *)
Lemma dispatch_first_success_and_exhaustion_witness :
  (let outcome :=
     sendToProvider (create None)
       (fun _ => PostRejected Sample.rateLimitError)
       "2023-01-01T00:00:00Z" "Hello" (Some "bing") None in
   attempts (snd outcome) = 3%nat /\
   fst outcome
   = Resolves {| success := false;
                 message := None;
                 error := Some "Rate limit exceeded";
                 provider := Some "bing";
                 timestamp := Some "2023-01-01T00:00:00Z" |}) /\
  (let outcome :=
     sendToProvider (create None)
       (fun _ => PostResolved Sample.successResponse)
       "2023-01-01T00:00:00Z" "Hello" (Some "bing") None in
   fst outcome = Resolves Sample.successResponse /\
   attempts (snd outcome) = 1%nat).
Proof.
  split.
  - destruct (dispatch_first_success_and_exhaustion None
                (fun _ => PostRejected Sample.rateLimitError)
                "2023-01-01T00:00:00Z" "Hello" (Some "bing") None)
      as (_ & Hall).
    destruct (Hall Sample.rateLimitError Sample.rateLimitError
                Sample.rateLimitError) as (Hn & Hresult & _);
      try reflexivity.
    split; [exact Hn|]. apply Hresult. right. eexists. reflexivity.
  - destruct (dispatch_first_success_and_exhaustion None
                (fun _ => PostResolved Sample.successResponse)
                "2023-01-01T00:00:00Z" "Hello" (Some "bing") None)
      as (Hfirst & _).
    apply (Hfirst Sample.successResponse); reflexivity.
Defined.

(** The retry scenarios of the service's test suite: two rejections with
    status 429 and then a success; a rejection with status 400; and a
    rejection whose body carries a structured error. *)
Lemma retries_follow_the_classifier_witness :
  (let outcome :=
     sendToProvider (create None) Sample.flaky "2023-01-01T00:00:00Z"
       "Hello" (Some "bing") None in
   fst outcome = Resolves Sample.successResponse /\
   attempts (snd outcome) = 3%nat) /\
  (let outcome :=
     sendToProvider (create None)
       (fun _ => PostRejected Sample.badRequest) "2023-01-01T00:00:00Z"
       "Hello" (Some "bing") None in
   attempts (snd outcome) = 1%nat /\
   fst outcome
   = Resolves {| success := false;
                 message := None;
                 error := Some "Bad request";
                 provider := Some "bing";
                 timestamp := Some "2023-01-01T00:00:00Z" |}) /\
  (let outcome :=
     sendToProvider (create None)
       (fun _ => PostRejected Sample.structuredFailure)
       "2023-01-01T00:00:00Z" "Hello" (Some "bing") None in
   attempts (snd outcome) = 1%nat /\
   fst outcome
   = Rejects
       (Some "error.response?.data?.error?.toLowerCase is not a function")).
Proof.
  split; [|split].
  - destruct (retries_follow_the_classifier None Sample.flaky
                "2023-01-01T00:00:00Z" "Hello" (Some "bing") None)
      as (_ & _ & Hflaky & _).
    destruct (Hflaky Sample.rateLimitError Sample.rateLimitError
                Sample.successResponse)
      as (Hres & _ & Hn); try reflexivity.
    split; assumption.
  - destruct (retries_follow_the_classifier None
                (fun _ => PostRejected Sample.badRequest)
                "2023-01-01T00:00:00Z" "Hello" (Some "bing") None)
      as (_ & _ & _ & Hterminal & _).
    destruct (Hterminal Sample.badRequest) as (Hn & Hres);
      try reflexivity.
    split; assumption.
  - destruct (retries_follow_the_classifier None
                (fun _ => PostRejected Sample.structuredFailure)
                "2023-01-01T00:00:00Z" "Hello" (Some "bing") None)
      as (_ & _ & _ & _ & Hthrows).
    exact (Hthrows Sample.structuredFailure _ eq_refl eq_refl).
Defined.

(** A rejection with a structured error body is the rejecting case. *)
Lemma dispatch_settles_by_last_attempt_witness :
  let outcome :=
    sendToProvider (create None)
      (fun _ => PostRejected Sample.structuredFailure)
      "2023-01-01T00:00:00Z" "Hello" (Some "bing") None in
  fst outcome
  = Rejects
      (Some "error.response?.data?.error?.toLowerCase is not a function").
Proof.
  intros outcome.
  destruct (dispatch_settles_by_last_attempt None
              (fun _ => PostRejected Sample.structuredFailure)
              "2023-01-01T00:00:00Z" "Hello" (Some "bing") None)
    as [(r & Hres & _)|(e & truthy & shown & _ & _ & Hrejects)].
  - discriminate Hres.
  - exact Hrejects.
Defined.

End DispatchFacts.

(** ** Message storage *)

Section StorageFacts.

Import MessageStorage Spec.

Lemma insert_by_time_perm (m : Message) (l : list Message) :
  Permutation (insert_by_time m l) (m :: l).
Proof.
  induction l as [|q l IH]; simpl; [reflexivity|].
  destruct (timestamp q <? timestamp m); [|reflexivity].
  rewrite IH. apply perm_swap.
Qed.

Lemma sort_by_time_perm (l : list Message) : Permutation (sort_by_time l) l.
Proof.
  induction l as [|m l IH]; simpl; [reflexivity|].
  rewrite insert_by_time_perm. now apply perm_skip.
Qed.

Lemma insert_by_time_head (m q : Message) (l : list Message) :
  timestamp q <= timestamp m ->
  HdRel (fun a b => timestamp a <= timestamp b) q l ->
  HdRel (fun a b => timestamp a <= timestamp b) q (insert_by_time m l).
Proof.
  intros Hqm Hhd. destruct l as [|x l]; simpl; [now constructor|].
  inversion Hhd; subst.
  destruct (timestamp x <? timestamp m); now constructor.
Qed.

Lemma insert_by_time_sorted (m : Message) (l : list Message) :
  in_time_order l -> in_time_order (insert_by_time m l).
Proof.
  unfold in_time_order.
  induction 1 as [|q l Hsorted IH Hhd]; simpl; [repeat constructor|].
  destruct (Z.ltb_spec (timestamp q) (timestamp m)) as [Hlt|Hge].
  - constructor; [exact IH|]. apply insert_by_time_head; [lia|exact Hhd].
  - constructor; [now constructor|]. constructor. lia.
Qed.

Lemma sort_by_time_sorted (l : list Message) : in_time_order (sort_by_time l).
Proof.
  induction l as [|m l IH]; simpl; [constructor|].
  now apply insert_by_time_sorted.
Qed.

Lemma sort_by_time_fixed (l : list Message) :
  in_time_order l -> sort_by_time l = l.
Proof.
  unfold in_time_order.
  induction 1 as [|m l Hsorted IH Hhd]; simpl; [reflexivity|].
  rewrite IH. destruct l as [|q l]; [reflexivity|]. simpl.
  inversion Hhd; subst.
  destruct (Z.ltb_spec (timestamp q) (timestamp m)); [lia|reflexivity].
Qed.

(** X17. What is added is what is read back: after [addMessage] the count
    is one more, the stored messages are the old ones followed by the new
    one, which carries the given content, role, provider and error, and
    [getLastMessage] returns it.  After [clearMessages] the count is zero,
    there is no last message, and [getMessages] returns nothing. *)
Theorem storage_reads_back_what_was_added (this : t) (uuid : string)
    (now : Z) (content : string) (role : Role)
    (provider error : option string) :
  let added := addMessage this uuid now content role provider error in
  fst added
  = {| id := uuid; content := content; role := role; timestamp := now;
       MessageStorage.provider := provider; MessageStorage.error := error |} /\
  messages (snd added) = messages this ++ [fst added] /\
  getMessageCount (snd added) = getMessageCount this + 1 /\
  getLastMessage (snd added) = Some (fst added) /\
  getMessageCount (clearMessages (snd added)) = 0 /\
  getLastMessage (clearMessages (snd added)) = None /\
  (forall limit offset,
     fst (getMessages (clearMessages (snd added)) limit offset) = []).
Proof.
  cbv zeta. unfold addMessage, getMessageCount, getLastMessage. cbn [fst snd messages].
  repeat split.
  - rewrite length_app. simpl. lia.
  - apply last_snoc.
  - intros limit offset. unfold getMessages, slice. cbn [fst messages].
    simpl sort_by_time. now rewrite skipn_nil, firstn_nil.
Qed.

(** X18. [getMessages] sorts the stored array itself: after any call the
    storage holds the same messages, in time order, and as many as before;
    without limit and offset the call returns all of them; and a second
    call with the same arguments returns the same page. *)
Theorem getMessages_sorts_in_place (this : t)
    (limit offset : option JSValue.JsNum) :
  let read := getMessages this limit offset in
  Permutation (messages (snd read)) (messages this) /\
  in_time_order (messages (snd read)) /\
  getMessageCount (snd read) = getMessageCount this /\
  fst (getMessages this None None) = messages (snd read) /\
  getMessages (snd read) limit offset = read.
Proof.
  cbv zeta. unfold getMessages, getMessageCount. cbn [fst snd messages].
  pose proof (sort_by_time_perm (messages this)) as Hperm.
  pose proof (sort_by_time_sorted (messages this)) as Hsorted.
  split; [exact Hperm|]. split; [exact Hsorted|].
  split; [now rewrite (Permutation_length Hperm)|]. split.
  - unfold slice, relative. simpl JSValue.num_or. cbn [Z.ltb].
    set (l := sort_by_time (messages this)).
    replace (0 <? 0) with false by reflexivity.
    rewrite Z.min_l by lia. simpl Z.to_nat. simpl skipn.
    rewrite Z.sub_0_r, Z.max_l, Nat2Z.id by lia. apply firstn_all.
  - now rewrite (sort_by_time_fixed _ Hsorted).
Qed.

(** X19. A storage filled in time order stays as it is: when the stored
    messages are in time order, [getMessages] without limit and offset
    returns them in the order they were added and leaves the storage
    unchanged; and adding a message whose clock reading is not before any
    stored timestamp keeps the time order. *)
Theorem chronological_storage_is_stable (this : t) :
  in_time_order (messages this) ->
  getMessages this None None = (messages this, this) /\
  (forall uuid now content role provider error,
     (forall m, In m (messages this) -> timestamp m <= now) ->
     in_time_order
       (messages (snd (addMessage this uuid now content role provider error)))).
Proof.
  intros Hsorted. split.
  - destruct (getMessages_sorts_in_place this None None)
      as (_ & _ & _ & Hall & _).
    unfold getMessages in *. cbn [fst snd messages] in *.
    rewrite (sort_by_time_fixed _ Hsorted) in *.
    rewrite Hall. now destruct this.
  - intros uuid now content role provider error Hbound.
    unfold addMessage. cbn [snd messages].
    set (m := {| id := uuid; content := content; role := role;
                 timestamp := now; MessageStorage.provider := provider;
                 MessageStorage.error := error |}).
    unfold in_time_order in *.
    induction Hsorted as [|q l Hs IH Hhd]; simpl; [repeat constructor|].
    constructor.
    + apply IH. intros x Hx. apply Hbound. now right.
    + destruct l as [|x l]; simpl.
      * constructor. simpl. apply Hbound. now left.
      * inversion Hhd; subst. now constructor.
Qed.

Lemma chronological_storage_is_stable_witness :
  let this :=
    snd (addMessage (snd (addMessage create "a" 10 "hi" user None None))
           "b" 11 "hello" assistant (Some "bing") None) in
  in_time_order (messages this) /\
  getMessages this None None = (messages this, this).
Proof.
  intros this.
  assert (Hsorted : in_time_order (messages this)).
  { simpl. repeat constructor. simpl. lia. }
  split; [exact Hsorted|].
  exact (proj1 (chronological_storage_is_stable this Hsorted)).
Defined.

Lemma slice_page {A : Type} (l : list A) (start count : Z) :
  0 <= start -> 0 < count ->
  slice l start (Some (start + count))
  = firstn (Z.to_nat count) (skipn (Z.to_nat start) l).
Proof.
  intros Hstart Hcount. unfold slice, relative.
  set (len := Z.of_nat (length l)).
  replace (start <? 0) with false by (symmetry; now apply Z.ltb_ge).
  replace (start + count <? 0) with false by (symmetry; apply Z.ltb_ge; lia).
  destruct (Z.le_gt_cases len start) as [Hout|Hin].
  - rewrite (Z.min_r start len) by lia.
    rewrite !skipn_all2 by (subst len; lia). now rewrite !firstn_nil.
  - rewrite (Z.min_l start len) by lia.
    set (rest := skipn (Z.to_nat start) l).
    assert (Hrest : Z.of_nat (length rest) = len - start).
    { subst rest len. rewrite length_skipn. lia. }
    destruct (Z.le_gt_cases (start + count) len) as [Hfull|Hshort].
    + rewrite Z.min_l by lia. f_equal. lia.
    + rewrite Z.min_r by lia.
      rewrite !firstn_all2; [reflexivity| |]; lia.
Qed.

Lemma slice_rest {A : Type} (l : list A) (start : Z) :
  0 <= start -> slice l start None = skipn (Z.to_nat start) l.
Proof.
  intros Hstart. unfold slice, relative.
  set (len := Z.of_nat (length l)).
  replace (start <? 0) with false by (symmetry; now apply Z.ltb_ge).
  destruct (Z.le_gt_cases len start) as [Hout|Hin].
  - rewrite (Z.min_r start len) by lia.
    rewrite !skipn_all2 by (subst len; lia). now rewrite firstn_nil.
  - rewrite (Z.min_l start len) by lia.
    apply firstn_all2. rewrite length_skipn. subst len. lia.
Qed.

(** X20. Pages.  With an offset that is not negative and a positive
    limit, [getMessages] returns the messages in time order from position
    [offset] on, at most [limit] of them: as many as the limit when that
    many are left, and what is left otherwise. *)
Theorem getMessages_returns_a_page (this : t) (limit offset : Z) :
  0 <= offset -> 0 < limit ->
  let page :=
    fst (getMessages this (Some (JSValue.Num limit))
           (Some (JSValue.Num offset))) in
  page
  = firstn (Z.to_nat limit)
      (skipn (Z.to_nat offset) (sort_by_time (messages this))) /\
  Z.of_nat (length page)
  = Z.min limit (Z.max (getMessageCount this - offset) 0).
Proof.
  intros Hoffset Hlimit page.
  assert (Hpage : page
    = firstn (Z.to_nat limit)
        (skipn (Z.to_nat offset) (sort_by_time (messages this)))).
  { subst page. unfold getMessages. cbn [fst].
    replace (JSValue.num_or (Some (JSValue.Num offset)) 0) with offset.
    2:{ unfold JSValue.num_or. now destruct (Z.eqb_spec offset 0). }
    replace (limit =? 0) with false by (symmetry; apply Z.eqb_neq; lia).
    now apply slice_page. }
  split; [exact Hpage|]. rewrite Hpage.
  rewrite length_firstn, length_skipn.
  rewrite (Permutation_length (sort_by_time_perm (messages this))).
  unfold getMessageCount. lia.
Qed.

Lemma getMessages_returns_a_page_witness :
  let this :=
    snd (addMessage (snd (addMessage create "a" 10 "hi" user None None))
           "b" 11 "hello" assistant (Some "bing") None) in
  Z.of_nat
    (length (fst (getMessages this (Some (JSValue.Num 5))
                    (Some (JSValue.Num 1))))) = 1.
Proof.
  intros this.
  destruct (getMessages_returns_a_page this 5 1) as (_ & Hlen); [lia|lia|].
  rewrite Hlen. reflexivity.
Defined.

End StorageFacts.

(** ** Request validation and error replies *)

Section ValidationFacts.

Import JSValue ErrorHandler RequestValidator.

Lemma trimStart_empty (s : JsString) :
  trimStart s = [] <-> forall c, In c s -> is_white c = true.
Proof.
  induction s as [|c s IH]; simpl.
  - split; [intros _ c []|reflexivity].
  - destruct (is_white c) eqn:Hc.
    + rewrite IH. split.
      * intros Hall x [<-|Hx]; auto.
      * intros Hall x Hx. apply Hall. now right.
    + split; [discriminate|]. intros Hall.
      rewrite (Hall c (or_introl eq_refl)) in Hc. discriminate.
Qed.

Lemma trimStart_head (s : JsString) (c : N) (rest : JsString) :
  trimStart s = c :: rest -> is_white c = false.
Proof.
  induction s as [|x s IH]; simpl; [discriminate|].
  destruct (is_white x) eqn:Hx; [exact IH|]. now intros [= <- _].
Qed.

Lemma trimEnd_keeps_head (c : N) (rest : JsString) :
  is_white c = false -> trimEnd (c :: rest) <> [].
Proof.
  intros Hc. simpl. destruct (trimEnd rest); [rewrite Hc|]; discriminate.
Qed.

(** A string is blank after [trim] exactly when all its code units are
    white space. *)
Lemma trim_blank (s : JsString) :
  length (trim s) = 0%nat <-> forall c, In c s -> is_white c = true.
Proof.
  rewrite <- trimStart_empty. unfold trim.
  destruct (trimStart s) as [|c rest] eqn:Hstart.
  - simpl. tauto.
  - pose proof (trimEnd_keeps_head c rest (trimStart_head _ _ _ Hstart)) as Hne.
    split; [|discriminate].
    destruct (trimEnd (c :: rest)); [contradiction|discriminate].
Qed.

Lemma blank_or_not (s : JsString) :
  (forall c, In c s -> is_white c = true) \/
  (exists c, In c s /\ is_white c = false).
Proof.
  induction s as [|x s [Hall|(c & Hin & Hc)]]; simpl.
  - left. intros c [].
  - destruct (is_white x) eqn:Hx.
    + left. intros c [<-|Hin]; auto.
    + right. exists x. auto.
  - right. exists c. auto.
Qed.

Lemma no_errors_iff (errors : list string) (e : AppError) :
  (if (0 <? length errors)%nat then Throw e else Next) = Next <-> errors = [].
Proof.
  destruct errors; simpl; split; congruence.
Qed.

Lemma message_errors_none (message : JsValue) :
  message_errors message = [] <->
  exists s, message = JString s /\
    (exists c, In c s /\ is_white c = false) /\
    (N.of_nat (length s) <= 10000)%N.
Proof.
  unfold message_errors.
  destruct message as [| |b|n|s|]; simpl;
    try (split; [try destruct b; try destruct (num_truthy n); discriminate
                |intros (s' & Heq & _); discriminate]).
  destruct (nonempty s) eqn:Htruthy; simpl.
  - destruct (length (trim s) =? 0)%nat eqn:Hblank.
    + split; [discriminate|]. intros (s' & [= <-] & (c & Hin & Hc) & _).
      apply Nat.eqb_eq in Hblank.
      pose proof (proj1 (trim_blank s) Hblank c Hin) as Hwhite.
      rewrite Hwhite in Hc. discriminate.
    + assert (Hsome : exists c, In c s /\ is_white c = false).
      { apply Nat.eqb_neq in Hblank.
        destruct (blank_or_not s) as [Hall|Hsome]; [|exact Hsome].
        exfalso. apply Hblank. now apply (proj2 (trim_blank s)). }
      unfold MAX_MESSAGE_LENGTH.
      destruct (N.ltb_spec 10000 (N.of_nat (length s))) as [Hlong|Hfits].
      * split; [discriminate|]. intros (s' & [= <-] & _ & Hlen). lia.
      * split; [|reflexivity]. intros _. exists s.
        split; [reflexivity|]. split; [exact Hsome|lia].
  - split; [discriminate|]. intros (s' & [= <-] & (c & Hin & _) & _).
    destruct s; [contradiction|discriminate].
Qed.

Lemma provider_errors_none (provider : JsValue) :
  provider_errors provider = [] <->
  provider = JUndefined \/
  exists p, provider = JString p /\ (N.of_nat (length p) <= 100)%N.
Proof.
  unfold provider_errors, MAX_PROVIDER_NAME_LENGTH.
  destruct provider as [| |b|n|s|]; simpl;
    try (split; [discriminate|intros [Heq|(p & Heq & _)]; discriminate]).
  - split; auto.
  - destruct (N.ltb_spec 100 (N.of_nat (length s))) as [Hlong|Hfits].
    + split; [discriminate|].
      intros [Heq|(p & [= <-] & Hlen)]; [discriminate|lia].
    + split; [|reflexivity]. intros _. right. exists s. split; [reflexivity|lia].
Qed.

(** X21. [validateSendMessage] lets a request through exactly when
    [message] is a string with at least one code unit that is not white
    space and a length of at most 10000 code units, and [provider] is
    absent or a string of at most 100 code units.  Otherwise it throws an
    [AppError] with status 400 and code [VALIDATION_ERROR] whose details
    list one or two errors. *)
Theorem validateSendMessage_accepts (message provider : JsValue) :
  (validateSendMessage message provider = Next <->
   (exists s, message = JString s /\
      (exists c, In c s /\ is_white c = false) /\
      (N.of_nat (length s) <= 10000)%N) /\
   (provider = JUndefined \/
    exists p, provider = JString p /\ (N.of_nat (length p) <= 100)%N)) /\
  (forall e, validateSendMessage message provider = Throw e ->
     statusCode e = 400 /\ code e = "VALIDATION_ERROR" /\
     exists errors, details e = Some (ErrorsDetail errors) /\
                    (1 <= length errors <= 2)%nat).
Proof.
  split.
  - unfold validateSendMessage. rewrite no_errors_iff.
    rewrite <- message_errors_none, <- provider_errors_none.
    split.
    + intros Hnil. apply app_eq_nil in Hnil. exact Hnil.
    + intros [-> ->]. reflexivity.
  - intros e. unfold validateSendMessage.
    set (errors := message_errors message ++ provider_errors provider).
    destruct (0 <? length errors)%nat eqn:Hsome; [|discriminate].
    intros [= <-]. simpl. split; [reflexivity|]. split; [reflexivity|].
    exists errors. split; [reflexivity|].
    apply Nat.ltb_lt in Hsome. split; [lia|].
    subst errors. rewrite length_app.
    assert (length (message_errors message) <= 1)%nat.
    { unfold message_errors.
      repeat match goal with
             | |- context [if ?c then _ else _] => destruct c
             | |- context [match ?m with JUndefined => _ | _ => _ end] =>
                 destruct m
             end; simpl; lia. }
    assert (length (provider_errors provider) <= 1)%nat.
    { unfold provider_errors.
      repeat match goal with
             | |- context [if ?c then _ else _] => destruct c
             | |- context [match ?m with JUndefined => _ | _ => _ end] =>
                 destruct m
             end; simpl; lia. }
    lia.
Qed.

(** [Hello] is let through; a message of a no-break space and an em
    space, which are white space though not ASCII, is refused. *)
Lemma validateSendMessage_accepts_witness :
  validateSendMessage (JString (units "Hello")) JUndefined = Next /\
  validateSendMessage (JString [160; 8195]%N) (JString (units "bing"))
  <> Next.
Proof.
  destruct (validateSendMessage_accepts (JString (units "Hello")) JUndefined)
    as ([_ Hpass] & _).
  destruct (validateSendMessage_accepts (JString [160; 8195]%N)
              (JString (units "bing")))
    as ([Hfail _] & _).
  split.
  - apply Hpass. split; [|now left].
    exists (units "Hello"). split; [reflexivity|]. split; [|simpl; lia].
    exists 72%N. split; [now left|reflexivity].
  - intros Hnext.
    destruct (Hfail Hnext) as ((s & [= <-] & (c & Hin & Hc) & _) & _).
    simpl in Hin. destruct Hin as [<-|[<-|[]]]; discriminate.
Defined.

(** The length is counted in code units: 5001 letters [e] with an acute
    accent (unit 233) are 5001 units and pass the limit of 10000. *)
Example accented_message_is_measured_in_units :
  validateSendMessage (JString (repeat 233%N (N.to_nat 5001))) JUndefined
  = Next.
Proof. vm_compute. reflexivity. Qed.




End ValidationFacts.

Section ErrorReplyFacts.

Import JSValue ErrorHandler RequestValidator.

Lemma requestValidator_throws (req : Request) (e : AppError) :
  requestValidator req = Throw e ->
  (statusCode e = 400 \/ statusCode e = 413) /\
  details e <> None /\
  exists hint, suggestions e = Some [hint].
Proof.
  unfold requestValidator.
  destruct (_ || negb _); [discriminate|].
  destruct (_ && _); [intros [= <-]; simpl; eauto 6|].
  destruct (bodySize req) as [size|]; [|discriminate].
  destruct (1024 * 1024 <? size); [|discriminate].
  intros [= <-]. simpl. split; [auto|]. split; [discriminate|eauto].
Qed.

(** X23. Every refusal of the three validators is answered as it was
    thrown: [errorHandler] replies with the status of the [AppError], 400
    or 413, with its code and message, and the reply carries both the
    details and the one suggestion of the error. *)
Theorem validator_refusals_are_reported (req : Request)
    (message provider : JsValue) (limit offset : option JsString)
    (e : AppError) :
  requestValidator req = Throw e \/
  validateSendMessage message provider = Throw e \/
  validateHistoryQuery limit offset = Throw e ->
  let reply := errorHandler (ThrownApp e) in
  res_status reply = statusCode e /\
  (res_status reply = 400 \/ res_status reply = 413) /\
  res_code reply = code e /\
  res_message reply = ErrorHandler.message e /\
  (exists d, res_details reply = Some d /\ details e = Some d) /\
  (exists hint, res_suggestions reply = Some [hint]).
Proof.
  intros Hthrown reply.
  assert (Hshape : (statusCode e = 400 \/ statusCode e = 413) /\
                   details e <> None /\
                   exists hint, suggestions e = Some [hint]).
  { destruct Hthrown as [Hreq|[Hsend|Hhist]].
    - now apply requestValidator_throws in Hreq.
    - unfold validateSendMessage in Hsend.
      destruct (0 <? length _)%nat; [|discriminate].
      injection Hsend as <-. simpl. split; [auto|]. split; [discriminate|eauto].
    - unfold validateHistoryQuery in Hhist.
      destruct (0 <? length _)%nat; [|discriminate].
      injection Hhist as <-. simpl. split; [auto|]. split; [discriminate|eauto]. }
  destruct Hshape as (Hstatus & Hdetails & hint & Hhint).
  subst reply. unfold errorHandler, respond. cbn [res_status res_code
    res_message res_details res_suggestions].
  rewrite Hhint. simpl. repeat split; try assumption; try reflexivity.
  - destruct (details e) as [d|]; [eauto|contradiction].
  - eauto.
Qed.

Lemma validator_refusals_are_reported_witness :
  let e :=
    new_AppError "Validation failed" (Some 400) (Some "VALIDATION_ERROR")
      (Some (ErrorsDetail ["Message is required"]))
      (Some ["Check the request format and field requirements"]) in
  validateSendMessage JUndefined JUndefined = Throw e /\
  res_status (errorHandler (ThrownApp e)) = 400 /\
  res_details (errorHandler (ThrownApp e))
  = Some (ErrorsDetail ["Message is required"]).
Proof.
  intros e.
  assert (Hthrown : validateSendMessage JUndefined JUndefined = Throw e)
    by reflexivity.
  split; [exact Hthrown|].
  destruct (validator_refusals_are_reported
              {| path := ""; method := ""; contentType := None;
                 bodySize := None |}
              JUndefined JUndefined None None e
              (or_intror (or_introl Hthrown)))
    as (Hstatus & _ & _ & _ & (d & Hd & He) & _).
  split; [rewrite Hstatus; reflexivity|].
  rewrite Hd, <- He. reflexivity.
Defined.

(** X24. An error that is not an [AppError] is answered with status 400
    or 500 and never with details.  The status is 400 exactly when the
    error is named [ValidationError] or is a [SyntaxError] with a [body]
    property, and exactly then the reply carries a suggestion; with status
    500 the code is [INTERNAL_ERROR] and the message is the error's own,
    or the generic text when it has none. *)
Theorem other_errors_are_classified (name msg : string)
    (isSyntaxError hasBody : bool) :
  let reply := errorHandler (ThrownOther name msg isSyntaxError hasBody) in
  (res_status reply = 400 \/ res_status reply = 500) /\
  res_details reply = None /\
  (res_status reply = 400 <->
   name = "ValidationError" \/ (isSyntaxError = true /\ hasBody = true)) /\
  (res_suggestions reply <> None <-> res_status reply = 400) /\
  (res_status reply = 500 ->
   res_code reply = "INTERNAL_ERROR" /\
   res_message reply
   = JS.or_string (Some msg) "An unexpected error occurred").
Proof.
  cbv zeta. unfold errorHandler.
  destruct (String.eqb_spec name "ValidationError") as [->|Hname].
  - simpl. repeat split; auto; try discriminate.
  - destruct isSyntaxError, hasBody; simpl;
      try destruct (JS.truthy msg) eqn:Hmsg; simpl;
      unfold JS.or_string; try rewrite Hmsg;
      repeat split; auto; try discriminate; try tauto;
      try (intros [?|[? ?]]; [contradiction|discriminate]);
      try (intros Hs; exfalso; now apply Hs).
Qed.

Lemma other_errors_are_classified_witness :
  res_status (errorHandler (ThrownOther "SyntaxError" "Unexpected token" true true))
  = 400.
Proof.
  destruct (other_errors_are_classified "SyntaxError" "Unexpected token"
              true true) as (_ & _ & [_ Hbad] & _).
  apply Hbad. right. auto.
Defined.

End ErrorReplyFacts.

(** ** Chat controller *)

Section ControllerFacts.

Import JSValue RequestValidator MessageStorage ChatController Spec.

Lemma parseInt_nonempty (s : JsString) (z : Z) :
  parseInt s = Num z -> nonempty s = true.
Proof. destruct s; [discriminate|reflexivity]. Qed.

Lemma limit_errors_none (q : option JsString) :
  limit_errors q = [] ->
  (q = None /\ query_number q = None) \/
  (exists s z, q = Some s /\ query_number q = Some (Num z) /\
               parseInt s = Num z /\ 1 <= z <= 1000).
Proof.
  destruct q as [s|]; simpl; [|auto].
  destruct (parseInt s) as [|z] eqn:Hparse; simpl; [discriminate|].
  destruct (Z.ltb_spec z 1); simpl; [discriminate|].
  destruct (Z.ltb_spec 1000 z); simpl; [discriminate|].
  intros _. right. exists s, z.
  rewrite (parseInt_nonempty s z Hparse), Hparse. repeat split; auto.
Qed.

Lemma offset_errors_none (q : option JsString) :
  offset_errors q = [] ->
  (q = None /\ query_number q = None) \/
  (exists s z, q = Some s /\ query_number q = Some (Num z) /\
               parseInt s = Num z /\ 0 <= z).
Proof.
  destruct q as [s|]; simpl; [|auto].
  destruct (parseInt s) as [|z] eqn:Hparse; simpl; [discriminate|].
  destruct (Z.ltb_spec z 0); simpl; [discriminate|].
  intros _. right. exists s, z.
  rewrite (parseInt_nonempty s z Hparse), Hparse. repeat split; auto.
Qed.

Lemma Num_inj (a b : Z) : Num a = Num b -> a = b.
Proof. now intros [= ->]. Qed.

Lemma num_or_num (z d : Z) : z <> 0 -> num_or (Some (Num z)) d = z.
Proof. intros Hz. unfold num_or. now destruct (Z.eqb_spec z 0). Qed.

Lemma num_or_offset (o : option JsNum) :
  o = None \/ (exists z, o = Some (Num z) /\ 0 <= z) -> 0 <= num_or o 0.
Proof.
  intros [->|(z & -> & Hz)]; simpl; [lia|].
  destruct (Z.eqb_spec z 0); lia.
Qed.

(** X25. The history of a query that [validateHistoryQuery] lets through:
    the offset is not negative, a given limit is between 1 and 1000, and
    the reply holds the stored messages in time order from the offset on,
    at most the limit of them (all of them when no limit is given).  The
    total is the number of stored messages, and [hasMore] is true exactly
    when messages are left after the returned page. *)
Theorem validated_history_is_a_page (this : ChatController.t)
    (q_limit q_offset : option JsString) :
  validateHistoryQuery q_limit q_offset = Next ->
  let reply := fst (getHistory this q_limit q_offset) in
  let page := pagination reply in
  let stored := sort_by_time (messages (messageStorage this)) in
  total page = getMessageCount (messageStorage this) /\
  0 <= offset page /\
  (q_limit = None -> limit page = total page) /\
  (forall s, q_limit = Some s ->
     parseInt s = Num (limit page) /\ 1 <= limit page <= 1000) /\
  history reply
  = firstn (Z.to_nat (limit page)) (skipn (Z.to_nat (offset page)) stored) /\
  (hasMore page = true <->
   offset page + Z.of_nat (length (history reply)) < total page) /\
  messages (messageStorage (snd (getHistory this q_limit q_offset))) = stored.
Proof.
  intros Hvalid reply page stored.
  unfold validateHistoryQuery in Hvalid.
  destruct (limit_errors q_limit ++ offset_errors q_offset) as [|x l] eqn:Herr;
    [|discriminate].
  apply app_eq_nil in Herr as [Hlim Hoff].
  apply limit_errors_none in Hlim. apply offset_errors_none in Hoff.
  assert (Hlen : Z.of_nat (length stored)
                 = getMessageCount (messageStorage this)).
  { subst stored. unfold getMessageCount.
    now rewrite (Permutation_length
                   (sort_by_time_perm (messages (messageStorage this)))). }
  assert (Hstart : 0 <= num_or (query_number q_offset) 0).
  { apply num_or_offset.
    destruct Hoff as [[_ ->]|(s & z & _ & -> & _ & Hz)]; eauto. }
  subst reply page. unfold getHistory, getMessages.
  cbn [fst snd history pagination total limit offset hasMore messageStorage
       messages].
  fold stored. set (start := num_or (query_number q_offset) 0) in *.
  set (count := getMessageCount (messageStorage this)) in *.
  assert (Hc : getMessageCount {| messages := stored |} = count)
    by exact Hlen.
  rewrite !Hc.
  split; [reflexivity|]. split; [exact Hstart|].
  destruct Hlim as [[-> ->]|(s & z & -> & -> & Hparse & Hz)].
  - simpl num_or. split; [reflexivity|]. split; [discriminate|].
    rewrite slice_rest by exact Hstart.
    assert (Hrest : length (skipn (Z.to_nat start) stored)
                    = (length stored - Z.to_nat start)%nat)
      by apply length_skipn.
    split; [|split; [|reflexivity]].
    + symmetry. apply firstn_all2. lia.
    + split; [discriminate|]. lia.
  - rewrite num_or_num by lia.
    replace (z =? 0) with false by (symmetry; apply Z.eqb_neq; lia).
    split; [discriminate|]. split; [now intros s' [= <-]|].
    rewrite slice_page by lia.
    split; [reflexivity|]. split; [|reflexivity].
    rewrite length_firstn, length_skipn, Z.ltb_lt. lia.
Qed.

(** The query [limit=1] on a controller that has stored one exchange. *)
Lemma validated_history_is_a_page_witness :
  let this :=
    snd (sendMessage ChatController.create "Hello" None "a" 10 "b" 11) in
  validateHistoryQuery (Some (units "1")) None = Next /\
  let page := pagination (fst (getHistory this (Some (units "1")) None)) in
  total page = 2 /\ limit page = 1 /\ offset page = 0 /\ hasMore page = true.
Proof.
  intros this.
  assert (Hvalid : validateHistoryQuery (Some (units "1")) None = Next)
    by reflexivity.
  split; [exact Hvalid|].
  destruct (validated_history_is_a_page this (Some (units "1")) None Hvalid)
    as (Htotal & _ & _ & Hlimit & Hpage & Hmore & _).
  destruct (Hlimit (units "1") eq_refl) as [Hparse _].
  pose proof (Num_inj 1 _ Hparse) as Hl.
  split; [exact Htotal|]. split; [now rewrite <- Hl|].
  split; [reflexivity|].
  apply Hmore. rewrite Hpage, Htotal, <- Hl. reflexivity.
Defined.

Lemma send_count (this : ChatController.t) (c : SendCall) :
  getMessageCount (messageStorage (send this c))
  = getMessageCount (messageStorage this) + 2.
Proof.
  unfold send, sendMessage, addMessage, getMessageCount.
  cbn [fst snd messageStorage messages]. rewrite !length_app. simpl. lia.
Qed.

Lemma sends_count (this : ChatController.t) (calls : list SendCall) :
  getMessageCount (messageStorage (fold_left send calls this))
  = getMessageCount (messageStorage this) + 2 * Z.of_nat (length calls).
Proof.
  revert this.
  induction calls as [|x l IH]; intros this; simpl fold_left; [simpl; lia|].
  rewrite IH, send_count. simpl length. lia.
Qed.

(** X26. Every [sendMessage] stores two messages, the user's and then the
    assistant's: the reply's total is the count before plus two, the user
    message carries the request's text, and the assistant message, which
    is the last one stored, carries the mock answer and the requested
    provider, or [mock-provider] when none (or the empty string) was
    given.  After any number of sends, [clearHistory] reports twice that
    number more than was stored before them, and leaves nothing. *)
Theorem sends_store_two_messages (this : ChatController.t)
    (calls : list SendCall) (c : SendCall) :
  let before := fold_left send calls this in
  let sent :=
    sendMessage before (call_message c) (call_provider c)
      (call_uuid1 c) (call_now1 c) (call_uuid2 c) (call_now2 c) in
  let reply := fst sent in
  totalMessages reply = getMessageCount (messageStorage before) + 2 /\
  getMessageCount (messageStorage before)
  = getMessageCount (messageStorage this) + 2 * Z.of_nat (length calls) /\
  content (userMessage reply) = call_message c /\
  role (userMessage reply) = user /\
  role (assistantMessage reply) = assistant /\
  content (assistantMessage reply) = mockResponse (call_message c) /\
  MessageStorage.provider (assistantMessage reply)
  = Some (JS.or_string (call_provider c) "mock-provider") /\
  messages (messageStorage (snd sent))
  = messages (messageStorage before)
    ++ [userMessage reply; assistantMessage reply] /\
  getLastMessage (messageStorage (snd sent)) = Some (assistantMessage reply) /\
  fst (clearHistory (snd sent)) = totalMessages reply /\
  getMessageCount (messageStorage (snd (clearHistory (snd sent)))) = 0.
Proof.
  intros before sent reply.
  pose proof (sends_count this calls) as Hcount. fold before in Hcount.
  pose proof (send_count before c) as Hsend.
  subst reply sent. unfold send in Hsend.
  unfold sendMessage, addMessage, clearHistory, getLastMessage,
    clearMessages, getMessageCount in *.
  cbn [fst snd messageStorage messages totalMessages userMessage
       assistantMessage content role MessageStorage.provider] in *.
  rewrite <- !app_assoc. cbn [app].
  repeat split; try assumption.
  - rewrite length_app. simpl. lia.
  - match goal with
    | |- last (?l ++ [?a; ?b]) = _ =>
        change (l ++ [a; b]) with (l ++ [a] ++ [b]);
        rewrite (app_assoc l [a] [b])
    end.
    apply last_snoc.
Qed.

End ControllerFacts.

(** ** The further properties on the sample data *)

Module FurtherExamples.

Import ProviderManager Spec.

(** The three built-in strategies only return members of their input. *)
Lemma priority_strategy_sound : sound_strategy PriorityStrategy.t.
Proof.
  intros s l p s' Hsel. unfold strategy_select, Priority_strategy in Hsel.
  injection Hsel as Hsel _.
  destruct (strategies_return_available_members s RoundRobinStrategy.create l)
    as (Hmember & _).
  now apply Hmember.
Qed.

Lemma round_robin_strategy_sound : sound_strategy RoundRobinStrategy.t.
Proof.
  intros s l p s' Hsel. unfold strategy_select, RoundRobin_strategy in Hsel.
  destruct (strategies_return_available_members
              (PriorityStrategy.create None) s l) as (_ & Hmember & _).
  apply Hmember. now rewrite Hsel.
Qed.

Lemma random_strategy_sound : sound_strategy RandomStrategy.t.
Proof.
  intros s l p s' Hsel. unfold strategy_select, Random_strategy in Hsel.
  unfold RandomStrategy.selectProvider in Hsel.
  destruct (length _ =? 0)%nat; [discriminate|].
  injection Hsel as Hnth _. unfold RandomStrategy.at_index in Hnth.
  destruct (_ <? 0); [discriminate|]. apply nth_error_In in Hnth.
  now apply filter_In in Hnth.
Qed.

(** The default manager on the roster of the test suite selects [bing],
    a listed provider that is available and locally healthy. *)
Lemma selectProvider_returns_usable_member_witness :
  sound_strategy PriorityStrategy.t /\
  fst (fst (selectProvider Sample.manager None
              (Resolves Sample.mockProviders) 1))
  = Some (Sample.provider "bing" available) /\
  In (Sample.provider "bing" available) Sample.mockProviders.
Proof.
  split; [exact priority_strategy_sound|]. split; [reflexivity|].
  apply (selectProvider_returns_usable_member Sample.manager None
           Sample.mockProviders 1 (Sample.provider "bing" available)
           priority_strategy_sound eq_refl).
Defined.

(** With the threshold at 3, one reported failure of [p1]. *)
(** [selectProvider('p1')] after three reported failures of [p1]. *)
Lemma preferred_bypass_ignores_health_witness :
  let roster := [Sample.provider "bing" available; Sample.p1] in
  let failed := run Sample.manager Sample.three_failures in
  isProviderHealthy failed "p1" = false /\
  fst (fst (selectProvider failed (Some "p1") (Resolves roster) 5))
  = Some Sample.p1.
Proof.
  intros roster failed. split; [reflexivity|].
  assert (Hgiven : "p1" <> "") by discriminate.
  assert (Hnd : List.NoDup (List.map id roster)).
  { simpl. constructor; [intros [Heq|[]]; discriminate|].
    constructor; [intros []|constructor]. }
  assert (Hmax : 0 < maxConsecutiveFailures failed) by reflexivity.
  destruct (preferred_bypass_ignores_health failed "p1" roster 5
              Hgiven Hnd Hmax) as (_ & Hdirect & _).
  destruct (Hdirect Sample.p1) as [Hout _];
    [right; left; reflexivity|reflexivity|reflexivity|].
  exact (f_equal (fun o => fst (fst o)) Hout).
Defined.

Lemma one_failure_makes_unhealthy_witness :
  let reached :=
    run (create (PriorityStrategy.create None)
           {| opt_healthCheckInterval := None;
              opt_maxConsecutiveFailures := Some 3;
              opt_enableHealthCheck := Some false |})
      [(2, MarkFailure "p1" (Some "boom"))] in
  0 < maxConsecutiveFailures reached /\
  failures reached "p1" = 1 /\
  isProviderHealthy reached "p1" = false.
Proof.
  intros reached. split; [reflexivity|]. split; [reflexivity|].
  destruct (one_failure_makes_unhealthy Sample.manager "p1") as (_ & Hreach).
  subst reached.
  rewrite (Hreach (PriorityStrategy.create None)
             {| opt_healthCheckInterval := None;
                opt_maxConsecutiveFailures := Some 3;
                opt_enableHealthCheck := Some false |}
             [(2, MarkFailure "p1" (Some "boom"))]).
  - reflexivity.
  - reflexivity.
Defined.

(** The fallbacks of the test suite's roster when [bing] is excluded. *)
Lemma fallbacks_keep_roster_order_witness :
  fst (getFallbackProviders Sample.manager ["bing"]
         (Resolves Sample.mockProviders) 1)
  = [Sample.provider "chatgptai" available] /\
  ~ In "chatgptai" ["bing"].
Proof.
  destruct (fallbacks_keep_roster_order (PriorityStrategy.create None)
              {| opt_healthCheckInterval := None;
                 opt_maxConsecutiveFailures := Some 3;
                 opt_enableHealthCheck := Some false |}
              [] ["bing"] Sample.mockProviders 1) as (Heq & Hall).
  split; [exact Heq|].
  apply (Hall (Sample.provider "chatgptai" available)).
  rewrite Heq. now left.
Defined.


(** A sweep of the test suite's roster in which every probe is
    rejected. *)
Lemma sweep_records_each_probe_witness :
  List.NoDup (List.map id Sample.mockProviders) /\
  isHealthy
    <$> providerHealth
          (performHealthCheck Sample.manager (Resolves Sample.mockProviders)
             (fun _ => Rejects (Some "down")) 5) !! "you"
  = Some false.
Proof.
  assert (Hnd : List.NoDup (List.map id Sample.mockProviders)).
  { simpl. repeat constructor; simpl; intuition discriminate. }
  split; [exact Hnd|].
  destruct (sweep_records_each_probe Sample.manager Sample.mockProviders
              (fun _ => Rejects (Some "down")) 5 Hnd) as (Hlisted & _).
  assert (Hin : In (Sample.provider "you" rate_limited) Sample.mockProviders)
    by (simpl; auto).
  refine (eq_trans
            (f_equal (fmap isHealthy)
               (Hlisted (Sample.provider "you" rate_limited) Hin)) _).
  reflexivity.
Defined.

(** The statistics after three reported failures of one provider. *)
Lemma statistics_are_consistent_witness :
  let stats :=
    getStatistics (fun _ => 0)
      (run (create (PriorityStrategy.create None)
              {| opt_healthCheckInterval := None;
                 opt_maxConsecutiveFailures := Some 3;
                 opt_enableHealthCheck := Some false |})
         Sample.three_failures) in
  totalProviders stats = 1 /\
  averageConsecutiveFailures stats = Quotient 3 1.
Proof.
  intros stats.
  pose proof (statistics_are_consistent (fun _ => 0)
                (PriorityStrategy.create None)
                {| opt_healthCheckInterval := None;
                   opt_maxConsecutiveFailures := Some 3;
                   opt_enableHealthCheck := Some false |}
                Sample.three_failures) as (Htotal & _).
  subst stats. split; [rewrite Htotal; reflexivity|reflexivity].
Defined.

(** A fresh service has nothing cached, so its first roster call sends a
    request. *)
Lemma cache_status_agrees_witness :
  G4FService.fetches
    (snd (G4FService.getAvailableProviders (G4FService.create None) 1000
            (G4FService.GetResolved Sample.oneRoster) 1001)) <> 0%nat.
Proof.
  destruct (cache_status_agrees (G4FService.create None) 1000
              (G4FService.GetResolved Sample.oneRoster) 1001)
    as ([Hhit _] & _).
  intros Hnone. destruct (Hhit Hnone) as [Hcached _].
  simpl in Hcached. lia.
Defined.

End FurtherExamples.
